(** * Liveness challenge engine: a shallow embedding of
      [src/engine/utils.js], [src/engine/LivenessEngine.js], the
      callback wiring and the listeners of [src/sdk/LivenessSDK.js], and
      the identity matching of [src/components/LivenessChecker.jsx].

    JavaScript numbers are modelled as real numbers: arithmetic is the
    exact one, rounding and the special values (NaN, the infinities) are
    not modelled.  A division whose divisor is zero is therefore never
    relied upon: every statement below that depends on a quotient either
    sits behind the guard the source has, or carries the hypothesis that
    the divisor is not zero.

    Two refinements stand beside [Engine.step].  The remainder of the
    frame scheduler is not continuous, so that rounding matters there:
    [FrameScheduler] has the scheduler with its three operations
    rounded to double precision, as the code computes them.  And
    [Engine.completeLiveness] resumes its [await] at once:
    [Completion] has the two halves apart, with whatever the host runs
    in between. *)

From Stdlib Require Import String.
From Stdlib Require Import Reals Lra Lia List ZArith Bool Arith Permutation.
Import ListNotations.
Open Scope R_scope.

(* ================================================================== *)
(** * Part I. Definitions                                              *)
(* ================================================================== *)

(** ** Numbers *)

Module Num.

(** The comparison operators, as booleans. *)
Definition gtb (a b : R) : bool := if Rgt_dec a b then true else false.
Definition ltb (a b : R) : bool := if Rlt_dec a b then true else false.
Definition eqb (a b : R) : bool := if Req_dec_T a b then true else false.

(** Truncation towards zero. *)
Definition trunc (a : R) : Z :=
  if Rle_dec 0 a then Zfloor a else (- Zfloor (- a))%Z.

(** The [%] operator: the remainder of the truncated division, which
    takes the sign of the dividend. *)
Definition rem (a b : R) : R := a - b * IZR (trunc (a / b)).

(** [Math.floor], read as an array index. *)
Definition floor_index (a : R) : nat := Z.to_nat (Zfloor a).

End Num.

Infix ">?" := Num.gtb (at level 70, no associativity) : R_scope.
Infix "<?" := Num.ltb (at level 70, no associativity) : R_scope.
Infix "=?" := Num.eqb (at level 70, no associativity) : R_scope.

(** ** [src/engine/utils.js] *)

Module Utils.

(** A landmark: [x], [y] in normalised image space, [z] the relative
    depth. *)
Record Point : Type := p { x : R; y : R; z : R }.

(** A landmark set is the face mesh of one frame.  Its topology fixes
    the cardinality (every index the code reads, up to 454, is in
    range), so the array is modelled as a total map from index to
    point. *)
Definition Landmarks : Type := nat -> Point.

Inductive Side : Type := left | right.

(** [EYE_INDICES] *)
Definition EYE_INDICES (side : Side) : list nat :=
  match side with
  | left => [362; 385; 387; 263; 373; 380]
  | right => [33; 160; 158; 133; 153; 144]
  end%nat.

(** [HEAD_POSE_INDICES] *)
Definition leftCheek : nat := 234.
Definition rightCheek : nat := 454.
Definition chin : nat := 152.

Definition euclideanDistance (p1 p2 : Point) : R :=
  sqrt ((x p1 - x p2) ^ 2 + (y p1 - y p2) ^ 2 + (z p1 - z p2) ^ 2).

Definition calculateEAR (landmarks : Landmarks) (side : Side) : R :=
  let indices := EYE_INDICES side in
  let p1 := landmarks (nth 0 indices O) in
  let p2 := landmarks (nth 1 indices O) in
  let p3 := landmarks (nth 2 indices O) in
  let p4 := landmarks (nth 3 indices O) in
  let p5 := landmarks (nth 4 indices O) in
  let p6 := landmarks (nth 5 indices O) in
  let verticalDist1 := euclideanDistance p2 p6 in
  let verticalDist2 := euclideanDistance p3 p5 in
  let horizontalDist := euclideanDistance p1 p4 in
  if horizontalDist =? 0 then 0
  else (verticalDist1 + verticalDist2) / (2 * horizontalDist).

Definition calculateHeadTurnV2 (landmarks : Landmarks) : R :=
  let leftCheek := landmarks leftCheek in
  let rightCheek := landmarks rightCheek in
  let chin := landmarks chin in
  let leftDepth := z leftCheek - z chin in
  let rightDepth := z rightCheek - z chin in
  let faceWidth := euclideanDistance leftCheek rightCheek in
  if faceWidth <? 0.1 then 0
  else (rightDepth - leftDepth) / faceWidth.

(** A vector argument is an array, or absent ([null], [undefined]). *)
Definition Vector : Type := option (list R).

(** The body of the [for] loop of [calculateCosineSimilarity], run for
    the indices [i = 0 .. vecA.length - 1] in order. *)
Definition dotProduct_loop (vecA vecB : list R) : R :=
  fold_left (fun dotProduct i => dotProduct + nth i vecA 0 * nth i vecB 0)
            (seq 0 (length vecA)) 0.

Definition calculateCosineSimilarity (vecA vecB : Vector) : R :=
  match vecA, vecB with
  | Some a, Some b =>
      if Nat.eqb (length a) (length b) then dotProduct_loop a b else 0
  | _, _ => 0
  end.

End Utils.

(** ** Vectors, as mathematics has them (used to state the properties) *)

Module Vec.

Fixpoint dot (a b : list R) : R :=
  match a, b with
  | u :: a', v :: b' => u * v + dot a' b'
  | _, _ => 0
  end.

Definition norm (a : list R) : R := sqrt (dot a a).

Definition unit (a : list R) : Prop := norm a = 1.

Definition neg (a : list R) : list R := map Ropp a.

Fixpoint add (a b : list R) : list R :=
  match a, b with
  | u :: a', v :: b' => (u + v) :: add a' b'
  | _, _ => []
  end.

(** Two vectors are orthogonal when they span a right angle
    (Pythagoras). *)
Definition orthogonal (a b : list R) : Prop :=
  length a = length b /\
  norm (add a b) ^ 2 = norm a ^ 2 + norm b ^ 2.

End Vec.

(** ** [src/engine/LivenessEngine.js] *)

Module Engine.

Import Utils.

(** The challenge names; ["PROCESSING"] is the fourth value the engine
    hands to [onChallengeChanged]. *)
Inductive ChallengeType : Type := BLINK | TURN_LEFT | TURN_RIGHT | PROCESSING.

Record Config : Type := {
  blinkEARThreshold : R;
  headTurnThreshold : R;
  challengeTimeout : R;
  targetFPS : R
}.

Definition DEFAULT_CONFIG : Config :=
  {| blinkEARThreshold := 0.25;
     headTurnThreshold := 0.4;
     challengeTimeout := 5000;
     targetFPS := 30 |}.

Inductive FailureCode : Type :=
| FACE_NOT_FOUND
| CHALLENGE_TIMEOUT
| CAMERA_ACCESS_DENIED
| MODEL_LOAD_FAILED
| RECOGNITION_FAILED.

(** One call of a member of the [callbacks] object.  [onChallengeChanged]
    receives [challenges[i]], which is [undefined] ([None]) out of
    range; [rawValue] is [undefined] when no [case] of the [switch]
    ran.  The [message] text of a failure is not modelled. *)
Inductive Callback : Type :=
| onReady
| onChallengeChanged (challenge : option ChallengeType)
| onProgress (progress : R) (rawValue : option R)
| onSuccess (descriptor : list R)
| onFailure (code : FailureCode).

(** The private fields of a [LivenessEngine], followed by the part of
    the host the engine acts on: the animation-frame requests that are
    registered and not yet run or cancelled, the activations of
    [#detectionLoop] suspended at [await this.#faceMesh.send], the
    number of frames sent, the [setTimeout] callbacks that are
    pending, whether the render surface carries overlay strokes, and
    the calls made to the callbacks, oldest first. *)
Record World : Type := {
  config : Config;
  isReady : bool;
  videoElement : bool;
  canvasCtx : bool;
  detectionLoopId : option nat;
  isStopped : bool;
  challenges : list ChallengeType;
  currentChallengeIndex : nat;
  lastChallengeTime : R;
  isChallengeProcessing : bool;
  hasDetectedOpenEyes : bool;
  lastFrameTime : R;
  frameRequests : list nat;
  nextRequestId : nat;
  awaitingSend : nat;
  framesSent : nat;
  settleTimers : nat;
  surfaceDirty : bool;
  callbackLog : list Callback
}.

(** Assignments to the fields. *)
Definition set_isReady (v : bool) (w : World) : World :=
  {| config := config w; isReady := v; videoElement := videoElement w;
     canvasCtx := canvasCtx w; detectionLoopId := detectionLoopId w;
     isStopped := isStopped w; challenges := challenges w;
     currentChallengeIndex := currentChallengeIndex w;
     lastChallengeTime := lastChallengeTime w;
     isChallengeProcessing := isChallengeProcessing w;
     hasDetectedOpenEyes := hasDetectedOpenEyes w;
     lastFrameTime := lastFrameTime w; frameRequests := frameRequests w;
     nextRequestId := nextRequestId w; awaitingSend := awaitingSend w;
     framesSent := framesSent w; settleTimers := settleTimers w;
     surfaceDirty := surfaceDirty w; callbackLog := callbackLog w |}.

Definition set_videoElement (v : bool) (w : World) : World :=
  {| config := config w; isReady := isReady w; videoElement := v;
     canvasCtx := canvasCtx w; detectionLoopId := detectionLoopId w;
     isStopped := isStopped w; challenges := challenges w;
     currentChallengeIndex := currentChallengeIndex w;
     lastChallengeTime := lastChallengeTime w;
     isChallengeProcessing := isChallengeProcessing w;
     hasDetectedOpenEyes := hasDetectedOpenEyes w;
     lastFrameTime := lastFrameTime w; frameRequests := frameRequests w;
     nextRequestId := nextRequestId w; awaitingSend := awaitingSend w;
     framesSent := framesSent w; settleTimers := settleTimers w;
     surfaceDirty := surfaceDirty w; callbackLog := callbackLog w |}.

Definition set_canvasCtx (v : bool) (w : World) : World :=
  {| config := config w; isReady := isReady w; videoElement := videoElement w;
     canvasCtx := v; detectionLoopId := detectionLoopId w;
     isStopped := isStopped w; challenges := challenges w;
     currentChallengeIndex := currentChallengeIndex w;
     lastChallengeTime := lastChallengeTime w;
     isChallengeProcessing := isChallengeProcessing w;
     hasDetectedOpenEyes := hasDetectedOpenEyes w;
     lastFrameTime := lastFrameTime w; frameRequests := frameRequests w;
     nextRequestId := nextRequestId w; awaitingSend := awaitingSend w;
     framesSent := framesSent w; settleTimers := settleTimers w;
     surfaceDirty := surfaceDirty w; callbackLog := callbackLog w |}.

Definition set_detectionLoopId (v : option nat) (w : World) : World :=
  {| config := config w; isReady := isReady w; videoElement := videoElement w;
     canvasCtx := canvasCtx w; detectionLoopId := v; isStopped := isStopped w;
     challenges := challenges w;
     currentChallengeIndex := currentChallengeIndex w;
     lastChallengeTime := lastChallengeTime w;
     isChallengeProcessing := isChallengeProcessing w;
     hasDetectedOpenEyes := hasDetectedOpenEyes w;
     lastFrameTime := lastFrameTime w; frameRequests := frameRequests w;
     nextRequestId := nextRequestId w; awaitingSend := awaitingSend w;
     framesSent := framesSent w; settleTimers := settleTimers w;
     surfaceDirty := surfaceDirty w; callbackLog := callbackLog w |}.

Definition set_isStopped (v : bool) (w : World) : World :=
  {| config := config w; isReady := isReady w; videoElement := videoElement w;
     canvasCtx := canvasCtx w; detectionLoopId := detectionLoopId w;
     isStopped := v; challenges := challenges w;
     currentChallengeIndex := currentChallengeIndex w;
     lastChallengeTime := lastChallengeTime w;
     isChallengeProcessing := isChallengeProcessing w;
     hasDetectedOpenEyes := hasDetectedOpenEyes w;
     lastFrameTime := lastFrameTime w; frameRequests := frameRequests w;
     nextRequestId := nextRequestId w; awaitingSend := awaitingSend w;
     framesSent := framesSent w; settleTimers := settleTimers w;
     surfaceDirty := surfaceDirty w; callbackLog := callbackLog w |}.

Definition set_challenges (v : list ChallengeType) (w : World) : World :=
  {| config := config w; isReady := isReady w; videoElement := videoElement w;
     canvasCtx := canvasCtx w; detectionLoopId := detectionLoopId w;
     isStopped := isStopped w; challenges := v;
     currentChallengeIndex := currentChallengeIndex w;
     lastChallengeTime := lastChallengeTime w;
     isChallengeProcessing := isChallengeProcessing w;
     hasDetectedOpenEyes := hasDetectedOpenEyes w;
     lastFrameTime := lastFrameTime w; frameRequests := frameRequests w;
     nextRequestId := nextRequestId w; awaitingSend := awaitingSend w;
     framesSent := framesSent w; settleTimers := settleTimers w;
     surfaceDirty := surfaceDirty w; callbackLog := callbackLog w |}.

Definition set_currentChallengeIndex (v : nat) (w : World) : World :=
  {| config := config w; isReady := isReady w; videoElement := videoElement w;
     canvasCtx := canvasCtx w; detectionLoopId := detectionLoopId w;
     isStopped := isStopped w; challenges := challenges w;
     currentChallengeIndex := v; lastChallengeTime := lastChallengeTime w;
     isChallengeProcessing := isChallengeProcessing w;
     hasDetectedOpenEyes := hasDetectedOpenEyes w;
     lastFrameTime := lastFrameTime w; frameRequests := frameRequests w;
     nextRequestId := nextRequestId w; awaitingSend := awaitingSend w;
     framesSent := framesSent w; settleTimers := settleTimers w;
     surfaceDirty := surfaceDirty w; callbackLog := callbackLog w |}.

Definition set_lastChallengeTime (v : R) (w : World) : World :=
  {| config := config w; isReady := isReady w; videoElement := videoElement w;
     canvasCtx := canvasCtx w; detectionLoopId := detectionLoopId w;
     isStopped := isStopped w; challenges := challenges w;
     currentChallengeIndex := currentChallengeIndex w; lastChallengeTime := v;
     isChallengeProcessing := isChallengeProcessing w;
     hasDetectedOpenEyes := hasDetectedOpenEyes w;
     lastFrameTime := lastFrameTime w; frameRequests := frameRequests w;
     nextRequestId := nextRequestId w; awaitingSend := awaitingSend w;
     framesSent := framesSent w; settleTimers := settleTimers w;
     surfaceDirty := surfaceDirty w; callbackLog := callbackLog w |}.

Definition set_isChallengeProcessing (v : bool) (w : World) : World :=
  {| config := config w; isReady := isReady w; videoElement := videoElement w;
     canvasCtx := canvasCtx w; detectionLoopId := detectionLoopId w;
     isStopped := isStopped w; challenges := challenges w;
     currentChallengeIndex := currentChallengeIndex w;
     lastChallengeTime := lastChallengeTime w; isChallengeProcessing := v;
     hasDetectedOpenEyes := hasDetectedOpenEyes w;
     lastFrameTime := lastFrameTime w; frameRequests := frameRequests w;
     nextRequestId := nextRequestId w; awaitingSend := awaitingSend w;
     framesSent := framesSent w; settleTimers := settleTimers w;
     surfaceDirty := surfaceDirty w; callbackLog := callbackLog w |}.

Definition set_hasDetectedOpenEyes (v : bool) (w : World) : World :=
  {| config := config w; isReady := isReady w; videoElement := videoElement w;
     canvasCtx := canvasCtx w; detectionLoopId := detectionLoopId w;
     isStopped := isStopped w; challenges := challenges w;
     currentChallengeIndex := currentChallengeIndex w;
     lastChallengeTime := lastChallengeTime w;
     isChallengeProcessing := isChallengeProcessing w;
     hasDetectedOpenEyes := v; lastFrameTime := lastFrameTime w;
     frameRequests := frameRequests w; nextRequestId := nextRequestId w;
     awaitingSend := awaitingSend w; framesSent := framesSent w;
     settleTimers := settleTimers w; surfaceDirty := surfaceDirty w;
     callbackLog := callbackLog w |}.

Definition set_lastFrameTime (v : R) (w : World) : World :=
  {| config := config w; isReady := isReady w; videoElement := videoElement w;
     canvasCtx := canvasCtx w; detectionLoopId := detectionLoopId w;
     isStopped := isStopped w; challenges := challenges w;
     currentChallengeIndex := currentChallengeIndex w;
     lastChallengeTime := lastChallengeTime w;
     isChallengeProcessing := isChallengeProcessing w;
     hasDetectedOpenEyes := hasDetectedOpenEyes w; lastFrameTime := v;
     frameRequests := frameRequests w; nextRequestId := nextRequestId w;
     awaitingSend := awaitingSend w; framesSent := framesSent w;
     settleTimers := settleTimers w; surfaceDirty := surfaceDirty w;
     callbackLog := callbackLog w |}.

Definition set_frameRequests (v : list nat) (w : World) : World :=
  {| config := config w; isReady := isReady w; videoElement := videoElement w;
     canvasCtx := canvasCtx w; detectionLoopId := detectionLoopId w;
     isStopped := isStopped w; challenges := challenges w;
     currentChallengeIndex := currentChallengeIndex w;
     lastChallengeTime := lastChallengeTime w;
     isChallengeProcessing := isChallengeProcessing w;
     hasDetectedOpenEyes := hasDetectedOpenEyes w;
     lastFrameTime := lastFrameTime w; frameRequests := v;
     nextRequestId := nextRequestId w; awaitingSend := awaitingSend w;
     framesSent := framesSent w; settleTimers := settleTimers w;
     surfaceDirty := surfaceDirty w; callbackLog := callbackLog w |}.

Definition set_nextRequestId (v : nat) (w : World) : World :=
  {| config := config w; isReady := isReady w; videoElement := videoElement w;
     canvasCtx := canvasCtx w; detectionLoopId := detectionLoopId w;
     isStopped := isStopped w; challenges := challenges w;
     currentChallengeIndex := currentChallengeIndex w;
     lastChallengeTime := lastChallengeTime w;
     isChallengeProcessing := isChallengeProcessing w;
     hasDetectedOpenEyes := hasDetectedOpenEyes w;
     lastFrameTime := lastFrameTime w; frameRequests := frameRequests w;
     nextRequestId := v; awaitingSend := awaitingSend w;
     framesSent := framesSent w; settleTimers := settleTimers w;
     surfaceDirty := surfaceDirty w; callbackLog := callbackLog w |}.

Definition set_awaitingSend (v : nat) (w : World) : World :=
  {| config := config w; isReady := isReady w; videoElement := videoElement w;
     canvasCtx := canvasCtx w; detectionLoopId := detectionLoopId w;
     isStopped := isStopped w; challenges := challenges w;
     currentChallengeIndex := currentChallengeIndex w;
     lastChallengeTime := lastChallengeTime w;
     isChallengeProcessing := isChallengeProcessing w;
     hasDetectedOpenEyes := hasDetectedOpenEyes w;
     lastFrameTime := lastFrameTime w; frameRequests := frameRequests w;
     nextRequestId := nextRequestId w; awaitingSend := v;
     framesSent := framesSent w; settleTimers := settleTimers w;
     surfaceDirty := surfaceDirty w; callbackLog := callbackLog w |}.

Definition set_framesSent (v : nat) (w : World) : World :=
  {| config := config w; isReady := isReady w; videoElement := videoElement w;
     canvasCtx := canvasCtx w; detectionLoopId := detectionLoopId w;
     isStopped := isStopped w; challenges := challenges w;
     currentChallengeIndex := currentChallengeIndex w;
     lastChallengeTime := lastChallengeTime w;
     isChallengeProcessing := isChallengeProcessing w;
     hasDetectedOpenEyes := hasDetectedOpenEyes w;
     lastFrameTime := lastFrameTime w; frameRequests := frameRequests w;
     nextRequestId := nextRequestId w; awaitingSend := awaitingSend w;
     framesSent := v; settleTimers := settleTimers w;
     surfaceDirty := surfaceDirty w; callbackLog := callbackLog w |}.

Definition set_settleTimers (v : nat) (w : World) : World :=
  {| config := config w; isReady := isReady w; videoElement := videoElement w;
     canvasCtx := canvasCtx w; detectionLoopId := detectionLoopId w;
     isStopped := isStopped w; challenges := challenges w;
     currentChallengeIndex := currentChallengeIndex w;
     lastChallengeTime := lastChallengeTime w;
     isChallengeProcessing := isChallengeProcessing w;
     hasDetectedOpenEyes := hasDetectedOpenEyes w;
     lastFrameTime := lastFrameTime w; frameRequests := frameRequests w;
     nextRequestId := nextRequestId w; awaitingSend := awaitingSend w;
     framesSent := framesSent w; settleTimers := v;
     surfaceDirty := surfaceDirty w; callbackLog := callbackLog w |}.

Definition set_surfaceDirty (v : bool) (w : World) : World :=
  {| config := config w; isReady := isReady w; videoElement := videoElement w;
     canvasCtx := canvasCtx w; detectionLoopId := detectionLoopId w;
     isStopped := isStopped w; challenges := challenges w;
     currentChallengeIndex := currentChallengeIndex w;
     lastChallengeTime := lastChallengeTime w;
     isChallengeProcessing := isChallengeProcessing w;
     hasDetectedOpenEyes := hasDetectedOpenEyes w;
     lastFrameTime := lastFrameTime w; frameRequests := frameRequests w;
     nextRequestId := nextRequestId w; awaitingSend := awaitingSend w;
     framesSent := framesSent w; settleTimers := settleTimers w;
     surfaceDirty := v; callbackLog := callbackLog w |}.

Definition set_callbackLog (v : list Callback) (w : World) : World :=
  {| config := config w; isReady := isReady w; videoElement := videoElement w;
     canvasCtx := canvasCtx w; detectionLoopId := detectionLoopId w;
     isStopped := isStopped w; challenges := challenges w;
     currentChallengeIndex := currentChallengeIndex w;
     lastChallengeTime := lastChallengeTime w;
     isChallengeProcessing := isChallengeProcessing w;
     hasDetectedOpenEyes := hasDetectedOpenEyes w;
     lastFrameTime := lastFrameTime w; frameRequests := frameRequests w;
     nextRequestId := nextRequestId w; awaitingSend := awaitingSend w;
     framesSent := framesSent w; settleTimers := settleTimers w;
     surfaceDirty := surfaceDirty w; callbackLog := v |}.

(** [new LivenessEngine(callbacks, config)]: the field initialisers. *)
Definition new (cfg : Config) : World :=
  {| config := cfg; isReady := false; videoElement := false;
     canvasCtx := false; detectionLoopId := None; isStopped := true;
     challenges := []; currentChallengeIndex := 0;
     lastChallengeTime := 0; isChallengeProcessing := false;
     hasDetectedOpenEyes := false; lastFrameTime := 0;
     frameRequests := []; nextRequestId := 1; awaitingSend := 0;
     framesSent := 0; settleTimers := 0; surfaceDirty := false;
     callbackLog := [] |}.

Definition emit (c : Callback) (w : World) : World :=
  set_callbackLog (callbackLog w ++ [c]) w.

(** *** The host *)

(** [this.#detectionLoopId = requestAnimationFrame(this.#detectionLoop)]:
    the host hands out a fresh, non-zero handle. *)
Definition requestAnimationFrame (w : World) : World :=
  let id := nextRequestId w in
  set_detectionLoopId (Some id)
    (set_nextRequestId (S id)
       (set_frameRequests (frameRequests w ++ [id]) w)).

Definition cancelAnimationFrame (id : nat) (w : World) : World :=
  set_frameRequests (remove Nat.eq_dec id (frameRequests w)) w.

(** [setTimeout(() => this.#moveToNextChallenge(), 300)] *)
Definition setTimeout (w : World) : World :=
  set_settleTimers (S (settleTimers w)) w.

(** [this.#canvasCtx.clearRect(0, 0, width, height)] *)
Definition clearRect (w : World) : World := set_surfaceDirty false w.

(** *** [#generateChallenges] *)

Fixpoint update {A : Type} (l : list A) (i : nat) (v : A) : list A :=
  match l, i with
  | [], _ => []
  | _ :: l', O => v :: l'
  | a :: l', S i' => a :: update l' i' v
  end.

(** [[challenges[i], challenges[j]] = [challenges[j], challenges[i]]].
    [Math.random()] is below 1, so [j <= i] and both indices are in
    range; out of range the list is left as it is. *)
Definition swap {A : Type} (l : list A) (i j : nat) : list A :=
  match nth_error l i, nth_error l j with
  | Some ci, Some cj => update (update l i cj) j ci
  | _, _ => l
  end.

(** The [for] loop, from index [i] down to 1; [random k] is the value
    of the [k]-th call of [Math.random()]. *)
Fixpoint shuffle (random : nat -> R) (k : nat) (i : nat)
         (challenges : list ChallengeType) : list ChallengeType :=
  match i with
  | O => challenges
  | S i' =>
      let j := Num.floor_index (random k * INR (i + 1)) in
      shuffle random (S k) i' (swap challenges i j)
  end.

Definition generateChallenges (random : nat -> R) : list ChallengeType :=
  let challenges :=
    [BLINK] ++ (if random O >? 0.5
                then [TURN_LEFT; TURN_RIGHT]
                else [TURN_RIGHT; TURN_LEFT]) in
  shuffle random 1 (length challenges - 1) challenges.

(** *** [load], [stop], [#detectionLoop] *)

(** [load()]: [ok] tells whether both models were set up without an
    error. *)
Definition load (ok : bool) (w : World) : World :=
  if ok then emit onReady (set_isReady true w)
  else emit (onFailure MODEL_LOAD_FAILED) w.

(** [if (this.#detectionLoopId)] takes the branch unless the field is
    [null] or [0]. *)
Definition stop (w : World) : World :=
  let w := set_isStopped true w in
  let w :=
    match detectionLoopId w with
    | Some (S _ as id) =>
        set_detectionLoopId None (cancelAnimationFrame id w)
    | _ => w
    end in
  if canvasCtx w then clearRect w else w.

(** [#detectionLoop], up to its end or to the [await]; [readyState] is
    what [this.#videoElement.readyState] reads. *)
Definition detectionLoop (now : R) (readyState : nat) (w : World) : World :=
  if isStopped w || negb (videoElement w) || (readyState <? 2)%nat then
    if negb (isStopped w) then requestAnimationFrame w else w
  else
    let elapsed := now - lastFrameTime w in
    let fpsInterval := 1000 / targetFPS (config w) in
    if elapsed >? fpsInterval then
      let w := set_lastFrameTime (now - Num.rem elapsed fpsInterval) w in
      set_awaitingSend (S (awaitingSend w))
        (set_framesSent (S (framesSent w)) w)
    else requestAnimationFrame w.

(** [#detectionLoop] after the [await]: its last statement. *)
Definition detectionLoop_resume (w : World) : World :=
  requestAnimationFrame w.

(** *** The state machine *)

Definition failChallenge (code : FailureCode) (w : World) : World :=
  emit (onFailure code) (stop w).

(** The tensor arithmetic of [#completeLiveness]: divide by the
    Euclidean norm when it is above [1e-6]. *)
Definition normalize (prediction : list R) : list R :=
  let norm := Vec.norm prediction in
  if norm >? 1e-6 then map (fun v => v / norm) prediction
  else prediction.

(** [#completeLiveness]; [prediction] is what the recognition model
    returns for the current frame, [None] when anything inside the
    [try] throws.  The [await] on the tensor's data is taken to
    resume before anything else runs. *)
Definition completeLiveness (prediction : option (list R)) (w : World)
  : World :=
  let w := stop w in
  let w := emit (onChallengeChanged (Some PROCESSING)) w in
  match prediction with
  | Some predictionTensor => emit (onSuccess (normalize predictionTensor)) w
  | None => failChallenge RECOGNITION_FAILED w
  end.

Definition moveToNextChallenge (now : R) (prediction : option (list R))
           (w : World) : World :=
  let w := set_currentChallengeIndex (S (currentChallengeIndex w)) w in
  let w := set_hasDetectedOpenEyes false w in
  if (length (challenges w) <=? currentChallengeIndex w)%nat then
    completeLiveness prediction w
  else
    let w := set_lastChallengeTime now w in
    let w := emit (onChallengeChanged
                     (nth_error (challenges w) (currentChallengeIndex w))) w in
    set_isChallengeProcessing false w.

Definition OPEN_THRESHOLD : R := 0.3.

(** The [switch] of [#processChallenge]: the world after it, with
    [challengePassed], [progress] and [rawValue]. *)
Definition evaluate (landmarks : Landmarks) (w : World)
  : World * bool * R * option R :=
  match nth_error (challenges w) (currentChallengeIndex w) with
  | Some BLINK =>
      let leftEAR := calculateEAR landmarks left in
      let rightEAR := calculateEAR landmarks right in
      let rawValue := Rmin leftEAR rightEAR in
      let w := if rawValue >? OPEN_THRESHOLD
               then set_hasDetectedOpenEyes true w else w in
      (w,
       hasDetectedOpenEyes w && (rawValue <? blinkEARThreshold (config w)),
       0, Some rawValue)
  | Some TURN_LEFT =>
      let turnRatio := calculateHeadTurnV2 landmarks in
      if turnRatio >? headTurnThreshold (config w)
      then (w, true, 1, Some turnRatio)
      else (w, false,
            Rmax 0 (turnRatio / headTurnThreshold (config w)),
            Some turnRatio)
  | Some TURN_RIGHT =>
      let turnRatio := calculateHeadTurnV2 landmarks in
      if turnRatio <? - headTurnThreshold (config w)
      then (w, true, 1, Some turnRatio)
      else (w, false,
            Rmax 0 (turnRatio / - headTurnThreshold (config w)),
            Some turnRatio)
  | _ => (w, false, 0, None)
  end.

Definition processChallenge (now : R) (landmarks : Landmarks) (w : World)
  : World :=
  if isChallengeProcessing w then w
  else
    let '(w, challengePassed, progress, rawValue) := evaluate landmarks w in
    let clampedProgress := Rmax 0 (Rmin progress 1) in
    let w := emit (onProgress clampedProgress rawValue) w in
    if challengePassed then
      setTimeout (set_isChallengeProcessing true w)
    else if now - lastChallengeTime w >? challengeTimeout (config w) then
      failChallenge CHALLENGE_TIMEOUT w
    else w.

Definition drawDebugOverlay (landmarksArray : option (list Landmarks))
           (w : World) : World :=
  match landmarksArray with
  | Some (_ :: _) =>
      if canvasCtx w then set_surfaceDirty true (clearRect w) else w
  | _ => w
  end.

Definition onFaceMeshResults (now : R)
           (multiFaceLandmarks : option (list Landmarks)) (w : World)
  : World :=
  if isStopped w then w
  else
    let w := drawDebugOverlay multiFaceLandmarks w in
    match multiFaceLandmarks with
    | Some (landmarks :: _) => processChallenge now landmarks w
    | _ =>
        let w := set_hasDetectedOpenEyes false w in
        if now - lastChallengeTime w >? challengeTimeout (config w)
        then failChallenge FACE_NOT_FOUND w
        else w
    end.

(** What a call of a public method comes to. *)
Inductive Outcome : Type :=
| Returned (w : World)
| Thrown (message : string).

(** [start(videoElement, canvasCtx)]; the two flags tell whether the
    arguments are objects rather than [null].  [start] reads the clock
    and then calls [#detectionLoop], which reads it again: both readings
    are [now]. *)
Definition start (now : R) (random : nat -> R) (video canvas : bool)
           (readyState : nat) (w : World) : Outcome :=
  if negb (isReady w) then Thrown "Engine not loaded. Call load() first."
  else
    let w := set_videoElement video w in
    let w := set_canvasCtx canvas w in
    let w := set_isStopped false w in
    let w := set_isChallengeProcessing false w in
    let w := set_currentChallengeIndex 0 w in
    let w := set_lastChallengeTime now w in
    let w := set_hasDetectedOpenEyes false w in
    let w := set_lastFrameTime 0 w in
    let w := set_challenges (generateChallenges random) w in
    let w := emit (onChallengeChanged
                     (nth_error (challenges w) (currentChallengeIndex w))) w in
    let w :=
      match detectionLoopId w with
      | Some (S _ as id) => cancelAnimationFrame id w
      | _ => w
      end in
    Returned (detectionLoop now readyState w).

(** *** What can happen to an engine, one turn of the event loop at a
    time *)

Inductive Input : Type :=
| Load (ok : bool)
| Start (now : R) (random : nat -> R) (video canvas : bool)
        (readyState : nat)
| Stop
| AnimationFrame (id : nat) (now : R) (readyState : nat)
| SendResolved
| FaceMeshResults (now : R) (multiFaceLandmarks : option (list Landmarks))
| SettleTimeout (now : R) (prediction : option (list R)).

(** The host runs only what is registered: a frame request that is
    pending (running it takes it off the list), a suspended activation,
    a timer that was set.  A call that throws leaves the world as it
    was. *)
Definition step (w : World) (i : Input) : World :=
  match i with
  | Load ok => load ok w
  | Start now random video canvas readyState =>
      match start now random video canvas readyState w with
      | Returned w' => w'
      | Thrown _ => w
      end
  | Stop => stop w
  | AnimationFrame id now readyState =>
      if existsb (Nat.eqb id) (frameRequests w)
      then detectionLoop now readyState (cancelAnimationFrame id w)
      else w
  | SendResolved =>
      match awaitingSend w with
      | O => w
      | S n => detectionLoop_resume (set_awaitingSend n w)
      end
  | FaceMeshResults now multiFaceLandmarks =>
      onFaceMeshResults now multiFaceLandmarks w
  | SettleTimeout now prediction =>
      match settleTimers w with
      | O => w
      | S n => moveToNextChallenge now prediction (set_settleTimers n w)
      end
  end.

Definition run (w : World) (inputs : list Input) : World :=
  fold_left step inputs w.

End Engine.

(** ** [src/sdk/LivenessSDK.js]: the events behind the callbacks *)

Module SDK.

Import Engine.

Inductive Event : Type :=
| ready
| challenge (type : option ChallengeType) (instruction : string)
| progress (progress : R) (rawValue : option R)
| success (descriptor : list R)
| failure (code : FailureCode).

(** [this.instructions[challengeType] || ""] *)
Definition instructions (challengeType : option ChallengeType) : string :=
  match challengeType with
  | Some BLINK => "Please blink both eyes."
  | Some TURN_LEFT => "Slowly turn your head to your left."
  | Some TURN_RIGHT => "Slowly turn your head to your right."
  | Some PROCESSING => "Processing..."
  | None => EmptyString
  end.

(** The [callbacks] object that [load] hands to the engine: each
    callback emits one event. *)
Definition emitted (c : Callback) : Event :=
  match c with
  | onReady => ready
  | onChallengeChanged challengeType =>
      challenge challengeType (instructions challengeType)
  | onSuccess descriptor => success descriptor
  | onFailure error => failure error
  | onProgress p rawValue => progress p rawValue
  end.

Definition is_challenge (e : Event) : bool :=
  match e with challenge _ _ => true | _ => false end.
Definition is_success (e : Event) : bool :=
  match e with success _ => true | _ => false end.

End SDK.

(** ** The chances of [#generateChallenges] *)

Module Randomizer.

Import Engine.

Definition ChallengeType_eq_dec (a b : ChallengeType) : {a = b} + {a <> b}.
Proof. decide equality. Defined.

Definition sequence_eq_dec (a b : list ChallengeType) : {a = b} + {a <> b} :=
  list_eq_dec ChallengeType_eq_dec a b.

(** What the three calls of [Math.random()] decide: the pairing, the
    index drawn at [i = 2] and the index drawn at [i = 1]. *)
Definition Choice : Type := (bool * nat * nat)%type.

Definition choice_of (random : nat -> R) : Choice :=
  (random O >? 0.5,
   Num.floor_index (random 1%nat * INR 3),
   Num.floor_index (random 2%nat * INR 2)).

(** The sequence a choice leads to. *)
Definition generate_with (c : Choice) : list ChallengeType :=
  let '(pairing, j2, j1) := c in
  let challenges :=
    [BLINK] ++ (if pairing
                then [TURN_LEFT; TURN_RIGHT]
                else [TURN_RIGHT; TURN_LEFT]) in
  swap (swap challenges 2 j2) 1 j1.

(** The twelve choices. *)
Definition choices : list Choice :=
  flat_map (fun pairing =>
    flat_map (fun j2 => map (fun j1 => (pairing, j2, j1)) (seq 0 2))
             (seq 0 3))
    [true; false].

(** A uniform draw from [0, 1) exceeds 0.5 on an interval of length
    [1 - 0.5], and [Math.floor(r * n)] is [j] on an interval of length
    [1 / n]. *)
Definition pairing_measure (pairing : bool) : R :=
  if pairing then 1 - 0.5 else 0.5 - 0.

Definition index_measure (n : nat) : R := 1 / INR n.

Definition weight (c : Choice) : R :=
  let '(pairing, _, _) := c in
  pairing_measure pairing * index_measure 3 * index_measure 2.

(** The probability that [#generateChallenges] returns [sequence]. *)
Definition probability (sequence : list ChallengeType) : R :=
  fold_right Rplus 0
    (map (fun c => if sequence_eq_dec (generate_with c) sequence
                   then weight c else 0)
         choices).

End Randomizer.

(** ** Fixtures *)

Module Fixture.

(** The mesh of [utils.test.js]: [Array(500).fill(p(0, 0, 0))] with some
    entries replaced. *)
Definition blank : Utils.Landmarks := fun _ => Utils.p 0 0 0.

Definition put (i : nat) (q : Utils.Point) (landmarks : Utils.Landmarks)
  : Utils.Landmarks :=
  fun k => if Nat.eqb k i then q else landmarks k.

(** A face whose two eyes have aspect ratio [ear] (corners 10 apart, lids
    [10 * ear] apart) and whose right cheek lies ([dx], 0, [dz]) away from
    the left one; the chin is as deep as the left cheek. *)
Definition face (ear dx dz : R) : Utils.Landmarks :=
  let eye (side : Utils.Side) (landmarks : Utils.Landmarks) :=
    let i k := nth k (Utils.EYE_INDICES side) O in
    put (i 0%nat) (Utils.p 0 0 0)
      (put (i 3%nat) (Utils.p 10 0 0)
         (put (i 1%nat) (Utils.p 5 (5 * ear) 0)
            (put (i 2%nat) (Utils.p 5 (5 * ear) 0)
               (put (i 4%nat) (Utils.p 5 (- (5 * ear)) 0)
                  (put (i 5%nat) (Utils.p 5 (- (5 * ear)) 0) landmarks))))) in
  eye Utils.left
    (eye Utils.right
       (put Utils.leftCheek (Utils.p 0 0 0)
          (put Utils.rightCheek (Utils.p dx 0 dz)
             (put Utils.chin (Utils.p 0 1 0) blank)))).

(** Eyes open, eyes closed, head turned to the left, to the right. *)
Definition eyesOpen : Utils.Landmarks := face 0.35 1 0.
Definition eyesClosed : Utils.Landmarks := face 0.10 1 0.
Definition turnedLeft : Utils.Landmarks := face 0.35 0.8 0.6.
Definition turnedRight : Utils.Landmarks := face 0.35 0.8 (-0.6).

(** Three draws of [Math.random()] that leave the base list
    [BLINK, TURN_LEFT, TURN_RIGHT] as it is. *)
Definition keepOrder (k : nat) : R :=
  match k with
  | O => 0.75
  | _ => 0.9
  end.

(** An engine that has loaded its models. *)
Definition loaded (cfg : Engine.Config) : Engine.World :=
  Engine.step (Engine.new cfg) (Engine.Load true).

(** An embedding of 128 zeros, and one of norm 5. *)
Definition zeros : list R := repeat 0 128.
Definition threeFour : list R := 3 :: 4 :: repeat 0 126.

(** The start of a session whose first challenge is the blink. *)
Definition blinkFirst : list Engine.Input :=
  [ Engine.Start 1000 keepOrder true true 4 ].

(** The EAR sequences [0.35, 0.10] and [0.10, 0.10]. *)
Definition openThenClosed : list Engine.Input :=
  blinkFirst
  ++ [ Engine.FaceMeshResults 1010 (Some [eyesOpen]);
       Engine.SendResolved;
       Engine.AnimationFrame 1 1100 4;
       Engine.FaceMeshResults 1110 (Some [eyesClosed]) ].

Definition closedTwice : list Engine.Input :=
  blinkFirst
  ++ [ Engine.FaceMeshResults 1010 (Some [eyesClosed]);
       Engine.SendResolved;
       Engine.AnimationFrame 1 1100 4;
       Engine.FaceMeshResults 1110 (Some [eyesClosed]) ].

(** Open eyes, then a frame in which the face is lost; the next frame
    is about to arrive. *)
Definition openThenLost : list Engine.Input :=
  blinkFirst
  ++ [ Engine.FaceMeshResults 1010 (Some [eyesOpen]);
       Engine.SendResolved;
       Engine.AnimationFrame 1 1100 4;
       Engine.FaceMeshResults 1110 None;
       Engine.SendResolved;
       Engine.AnimationFrame 2 1200 4 ].

(** A session in which the three challenges pass in turn: [start] sends
    the first frame; every later frame is sent by an animation frame,
    its results arrive, and the send resolves and requests the next
    animation frame; the settle timers of the first two challenges fire
    300 ms after the pass (the prediction they carry is not looked
    at). *)
Definition twoPasses : list Engine.Input :=
  [ Engine.FaceMeshResults 1010 (Some [eyesOpen]);
    Engine.SendResolved;
    Engine.AnimationFrame 1 1100 4;
    Engine.FaceMeshResults 1110 (Some [eyesClosed]);
    Engine.SendResolved;
    Engine.SettleTimeout 1410 (Some zeros);
    Engine.AnimationFrame 2 1500 4;
    Engine.FaceMeshResults 1510 (Some [turnedLeft]);
    Engine.SendResolved;
    Engine.SettleTimeout 1810 (Some zeros) ].

Definition threePasses : list Engine.Input :=
  twoPasses
  ++ [ Engine.AnimationFrame 3 1900 4;
       Engine.FaceMeshResults 1910 (Some [turnedRight]);
       Engine.SendResolved ].

(** The third challenge passes 4900 ms after it started; while the
    session settles, the face is lost on a frame that arrives 5040 ms
    after the challenge started; then the settle timer fires. *)
Definition faceLostWhileSettling : list Engine.Input :=
  blinkFirst ++ twoPasses
  ++ [ Engine.AnimationFrame 3 6700 4;
       Engine.FaceMeshResults 6710 (Some [turnedRight]);
       Engine.SendResolved;
       Engine.AnimationFrame 4 6800 4;
       Engine.FaceMeshResults 6850 None;
       Engine.SendResolved;
       Engine.SettleTimeout 7010 (Some threeFour) ].

(** The blink passes and the caller stops the engine while the session
    settles; the settle timer is still to fire. *)
Definition stoppedWhileSettling : list Engine.Input :=
  openThenClosed ++ [ Engine.SendResolved; Engine.Stop ].

Definition challengesPassed : list Engine.Input := blinkFirst ++ threePasses.

(** The same, up to the last settle timer, on which the recognition
    model returns [prediction]. *)
Definition completion (prediction : list R) : list Engine.Input :=
  threePasses ++ [Engine.SettleTimeout 2210 (Some prediction)].

Definition passingSession (prediction : list R) : list Engine.Input :=
  blinkFirst ++ completion prediction.

(** A configuration whose frame interval is a whole number of
    milliseconds: 1000 / 40 = 25. *)
Definition fortyFPS : Engine.Config :=
  {| Engine.blinkEARThreshold := 0.25;
     Engine.headTurnThreshold := 0.4;
     Engine.challengeTimeout := 5000;
     Engine.targetFPS := 40 |}.

(** [start] at a time that is a multiple of 25 ms sends the first frame;
    the send resolves and requests animation frame 1. *)
Definition firstFrameSent : list Engine.Input :=
  [ Engine.Start 1000000 keepOrder true true 4; Engine.SendResolved ].

End Fixture.

(** ** The vocabulary of the statements *)

Module Session.

Import Engine.

(** [w'] differs from [w] at most in the fields of the frame scheduler
    and of the host's animation frames and render surface. *)
Definition same_session (w w' : World) : Prop :=
  config w' = config w /\
  isReady w' = isReady w /\
  challenges w' = challenges w /\
  currentChallengeIndex w' = currentChallengeIndex w /\
  lastChallengeTime w' = lastChallengeTime w /\
  isChallengeProcessing w' = isChallengeProcessing w /\
  hasDetectedOpenEyes w' = hasDetectedOpenEyes w /\
  settleTimers w' = settleTimers w /\
  callbackLog w' = callbackLog w.

(** The challenge that is active. *)
Definition currentChallenge (w : World) : option ChallengeType :=
  nth_error (challenges w) (currentChallengeIndex w).

(** The session awaits a challenge: it is neither stopped nor settling. *)
Definition awaiting (w : World) : Prop :=
  isStopped w = false /\ isChallengeProcessing w = false.

(** The blink metric of a frame. *)
Definition rawEAR (landmarks : Utils.Landmarks) : R :=
  Rmin (Utils.calculateEAR landmarks Utils.left)
       (Utils.calculateEAR landmarks Utils.right).

(** Whether the metric of the active challenge passes on a frame. *)
Definition challengePassed (landmarks : Utils.Landmarks) (w : World) : bool :=
  let '(_, passed, _, _) := evaluate landmarks w in passed.

(** A results callback that carries no face. *)
Definition noFace (multiFaceLandmarks : option (list Utils.Landmarks)) : bool :=
  match multiFaceLandmarks with
  | Some (_ :: _) => false
  | _ => true
  end.

(** The world the [switch] of [#processChallenge] leaves, and the
    progress and raw value it reports. *)
Definition latchAfter (landmarks : Utils.Landmarks) (w : World) : bool :=
  let '(w', _, _, _) := evaluate landmarks w in hasDetectedOpenEyes w'.

Definition progressOf (landmarks : Utils.Landmarks) (w : World) : R :=
  let '(_, _, progress, _) := evaluate landmarks w in
  Rmax 0 (Rmin progress 1).

Definition rawValueOf (landmarks : Utils.Landmarks) (w : World) : option R :=
  let '(_, _, _, rawValue) := evaluate landmarks w in rawValue.

(** Whether a callback that arrives at [now] finds the challenge timed
    out. *)
Definition timedOut (now : R) (w : World) : bool :=
  now - lastChallengeTime w >? challengeTimeout (config w).

(** The state machine's share of the world: what the frame scheduler
    and the render surface neither read nor write. *)
Record View : Type := {
  vconfig : Config;
  vready : bool;
  vstopped : bool;
  vchallenges : list ChallengeType;
  vindex : nat;
  vtime : R;
  vprocessing : bool;
  vlatch : bool;
  vtimers : nat;
  vlog : list Callback
}.

Definition view (w : World) : View :=
  {| vconfig := config w;
     vready := isReady w;
     vstopped := isStopped w;
     vchallenges := challenges w;
     vindex := currentChallengeIndex w;
     vtime := lastChallengeTime w;
     vprocessing := isChallengeProcessing w;
     vlatch := hasDetectedOpenEyes w;
     vtimers := settleTimers w;
     vlog := callbackLog w |}.

(** The state machine on its own share of the world.  It is a device of
    the proofs: [view (step w i) = vstep (view w) i] is proved below
    ([simulation]), and the statements are about [Engine.step]. *)
Definition assess (v : View) (landmarks : Utils.Landmarks)
  : bool * bool * R * option R :=
  match nth_error (vchallenges v) (vindex v) with
  | Some BLINK =>
      let latch := (rawEAR landmarks >? OPEN_THRESHOLD) || vlatch v in
      (latch,
       latch && (rawEAR landmarks <? blinkEARThreshold (vconfig v)),
       Rmax 0 (Rmin 0 1),
       Some (rawEAR landmarks))
  | Some TURN_LEFT =>
      let turnRatio := Utils.calculateHeadTurnV2 landmarks in
      let passed := turnRatio >? headTurnThreshold (vconfig v) in
      (vlatch v, passed,
       Rmax 0 (Rmin (if passed then 1
                     else Rmax 0 (turnRatio / headTurnThreshold (vconfig v))) 1),
       Some turnRatio)
  | Some TURN_RIGHT =>
      let turnRatio := Utils.calculateHeadTurnV2 landmarks in
      let passed := turnRatio <? - headTurnThreshold (vconfig v) in
      (vlatch v, passed,
       Rmax 0 (Rmin (if passed then 1
                     else Rmax 0 (turnRatio / - headTurnThreshold (vconfig v))) 1),
       Some turnRatio)
  | _ => (vlatch v, false, Rmax 0 (Rmin 0 1), None)
  end.

Definition vtimedOut (now : R) (v : View) : bool :=
  now - vtime v >? challengeTimeout (vconfig v).

Definition vstep (v : View) (i : Input) : View :=
  match i with
  | Load ok =>
      {| vconfig := vconfig v;
         vready := if ok then true else vready v;
         vstopped := vstopped v;
         vchallenges := vchallenges v;
         vindex := vindex v;
         vtime := vtime v;
         vprocessing := vprocessing v;
         vlatch := vlatch v;
         vtimers := vtimers v;
         vlog := vlog v ++ [if ok then onReady else onFailure MODEL_LOAD_FAILED] |}
  | Start now random _ _ _ =>
      if vready v then
        {| vconfig := vconfig v;
           vready := true;
           vstopped := false;
           vchallenges := generateChallenges random;
           vindex := 0;
           vtime := now;
           vprocessing := false;
           vlatch := false;
           vtimers := vtimers v;
           vlog := vlog v
                   ++ [onChallengeChanged
                         (nth_error (generateChallenges random) 0)] |}
      else v
  | Stop =>
      {| vconfig := vconfig v;
         vready := vready v;
         vstopped := true;
         vchallenges := vchallenges v;
         vindex := vindex v;
         vtime := vtime v;
         vprocessing := vprocessing v;
         vlatch := vlatch v;
         vtimers := vtimers v;
         vlog := vlog v |}
  | AnimationFrame _ _ _ => v
  | SendResolved => v
  | FaceMeshResults now faces =>
      if vstopped v then v
      else
        match faces with
        | Some (landmarks :: _) =>
            if vprocessing v then v
            else
              let '(latch, passed, progress, rawValue) := assess v landmarks in
              let late := negb passed && vtimedOut now v in
              {| vconfig := vconfig v;
                 vready := vready v;
                 vstopped := late;
                 vchallenges := vchallenges v;
                 vindex := vindex v;
                 vtime := vtime v;
                 vprocessing := passed;
                 vlatch := latch;
                 vtimers := if passed then S (vtimers v) else vtimers v;
                 vlog := vlog v
                         ++ onProgress progress rawValue
                            :: (if late then [onFailure CHALLENGE_TIMEOUT]
                                else []) |}
        | _ =>
            {| vconfig := vconfig v;
               vready := vready v;
               vstopped := vtimedOut now v;
               vchallenges := vchallenges v;
               vindex := vindex v;
               vtime := vtime v;
               vprocessing := vprocessing v;
               vlatch := false;
               vtimers := vtimers v;
               vlog := vlog v
                       ++ (if vtimedOut now v then [onFailure FACE_NOT_FOUND]
                           else []) |}
        end
  | SettleTimeout now prediction =>
      match vtimers v with
      | O => v
      | S n =>
          if (length (vchallenges v) <=? S (vindex v))%nat then
            {| vconfig := vconfig v;
               vready := vready v;
               vstopped := true;
               vchallenges := vchallenges v;
               vindex := S (vindex v);
               vtime := vtime v;
               vprocessing := vprocessing v;
               vlatch := false;
               vtimers := n;
               vlog := vlog v
                       ++ [onChallengeChanged (Some PROCESSING);
                           match prediction with
                           | Some predictionTensor =>
                               onSuccess (normalize predictionTensor)
                           | None => onFailure RECOGNITION_FAILED
                           end] |}
          else
            {| vconfig := vconfig v;
               vready := vready v;
               vstopped := vstopped v;
               vchallenges := vchallenges v;
               vindex := S (vindex v);
               vtime := now;
               vprocessing := false;
               vlatch := false;
               vtimers := n;
               vlog := vlog v
                       ++ [onChallengeChanged
                             (nth_error (vchallenges v) (S (vindex v)))] |}
      end
  end.

Definition vrun (v : View) (inputs : list Input) : View :=
  fold_left vstep inputs v.

(** *** The "eyes seen open" flag *)

(** The inputs that reset the flag: a [start] that does not throw, a
    results callback without a face that is not ignored, a settle timer
    that fires. *)
Definition resetsLatch (w : World) (i : Input) : bool :=
  match i with
  | Start _ _ _ _ _ => isReady w
  | FaceMeshResults _ faces => negb (isStopped w) && noFace faces
  | SettleTimeout _ _ => negb (Nat.eqb (settleTimers w) 0)
  | _ => false
  end.

(** None of [inputs], run from [w], resets the flag. *)
Fixpoint undisturbed (w : World) (inputs : list Input) : Prop :=
  match inputs with
  | [] => True
  | i :: rest => resetsLatch w i = false /\ undisturbed (step w i) rest
  end.

(** [i] is a frame with a face that is evaluated while a Blink
    challenge is awaited, and its eyes are open. *)
Definition seesOpenEyes (w : World) (i : Input) : Prop :=
  match i with
  | FaceMeshResults _ (Some (landmarks :: _)) =>
      awaiting w /\ currentChallenge w = Some BLINK /\
      rawEAR landmarks > OPEN_THRESHOLD
  | _ => False
  end.

(** Open eyes were seen on one of [inputs], run from [w0], and the flag
    was not reset since. *)
Definition openSeen (w0 : World) (inputs : list Input) : Prop :=
  exists before frame after,
    inputs = before ++ frame :: after /\
    seesOpenEyes (run w0 before) frame /\
    undisturbed (step (run w0 before) frame) after.

(** *** Sessions *)

(** What the host does during a session, as opposed to the calls of the
    public methods. *)
Definition hostOnly (i : Input) : Prop :=
  match i with
  | Load _ | Start _ _ _ _ _ | Stop => False
  | _ => True
  end.

(** The recognition model does not throw. *)
Definition extracts (i : Input) : Prop :=
  match i with
  | SettleTimeout _ None => False
  | _ => True
  end.

(** The active challenge passes on [i]. *)
Definition passesOn (w : World) (i : Input) : bool :=
  match i with
  | FaceMeshResults _ (Some (landmarks :: _)) =>
      negb (isStopped w) && negb (isChallengeProcessing w)
      && challengePassed landmarks w
  | _ => false
  end.

(** The number of inputs, run from [w], on which a challenge passes. *)
Fixpoint passCount (w : World) (inputs : list Input) : nat :=
  match inputs with
  | [] => O
  | i :: rest =>
      ((if passesOn w i then 1 else 0) + passCount (step w i) rest)%nat
  end.

Definition isChallengeChanged (c : Callback) : bool :=
  match c with onChallengeChanged _ => true | _ => false end.

Definition isSuccess (c : Callback) : bool :=
  match c with onSuccess _ => true | _ => false end.

(** The calls of [onChallengeChanged] of a session that runs to its
    end: one per challenge, then ["PROCESSING"]. *)
Definition challengeCallbacks (cs : list ChallengeType) : list Callback :=
  map (fun c => onChallengeChanged (Some c)) (cs ++ [PROCESSING]).

(** The invariant of a session with the challenges [cs], started when
    the log was [log0]: a settle timer is pending exactly while the
    session settles; [onChallengeChanged] was called once for each
    challenge up to the current one; [onSuccess] was called only if the
    index has run past the last challenge, and then once, with the
    normalised prediction of one of the settle timers ([P]). *)
Definition onTrack (cs : list ChallengeType) (log0 : list Callback)
           (P : list R -> Prop) (v : View) : Prop :=
  vchallenges v = cs /\
  (vindex v <= 3)%nat /\
  vtimers v = (if vprocessing v && (vindex v <? 3)%nat then 1 else 0)%nat /\
  exists l,
    vlog v = log0 ++ l /\
    filter isChallengeChanged l = firstn (S (vindex v)) (challengeCallbacks cs) /\
    ((vindex v < 3)%nat /\ filter isSuccess l = [] \/
     vindex v = 3%nat /\
     exists prediction,
       P prediction /\ filter isSuccess l = [onSuccess (normalize prediction)]).

(** The callbacks made after [w0], up to [w]. *)
Definition since (w0 w : World) : list Callback :=
  skipn (length (callbackLog w0)) (callbackLog w).

(** The events emitted after [w0], up to [w]. *)
Definition eventsSince (w0 w : World) : list SDK.Event :=
  map SDK.emitted (since w0 w).

Definition isTimeout (e : SDK.Event) : bool :=
  match e with
  | SDK.failure FACE_NOT_FOUND | SDK.failure CHALLENGE_TIMEOUT => true
  | _ => false
  end.

End Session.

(** ** Moving the face in front of the camera *)

Module Geometry.

Import Utils.

(** Every landmark moved by [d]. *)
Definition translate (d : Point) (landmarks : Landmarks) : Landmarks :=
  fun i =>
    p (x (landmarks i) + x d) (y (landmarks i) + y d) (z (landmarks i) + z d).

(** Every landmark [k] times as far from the origin. *)
Definition scale (k : R) (landmarks : Landmarks) : Landmarks :=
  fun i => p (k * x (landmarks i)) (k * y (landmarks i)) (k * z (landmarks i)).

(** The two cheek landmarks exchanged. *)
Definition exchangeCheeks (landmarks : Landmarks) : Landmarks :=
  Fixture.put leftCheek (landmarks rightCheek)
    (Fixture.put rightCheek (landmarks leftCheek) landmarks).

End Geometry.

(** ** [src/components/ProgressBar.jsx] *)

Module ProgressBar.

(** [Math.max(0, Math.min(progress, 1))] *)
Definition clampedProgress (progress : R) : R := Rmax 0 (Rmin progress 1).

(** The width of the bar, in percent of its track. *)
Definition width (progress : R) : R := clampedProgress progress * 100.

End ProgressBar.

(** ** The vocabulary of the statements about runs *)

Module Runs.

Import Engine.

Definition isLoad (i : Input) : bool :=
  match i with Load _ => true | _ => false end.

(** An input other than a call of [start], of [load]. *)
Definition notStart (i : Input) : Prop :=
  match i with Start _ _ _ _ _ => False | _ => True end.

Definition notLoad (i : Input) : Prop :=
  match i with Load _ => False | _ => True end.

(** The frame interval of the configuration, in ms. *)
Definition fpsInterval (w : World) : R := 1000 / targetFPS (config w).


(** The activations of [#detectionLoop] that are alive: the animation
    frames that are requested and the sends that are awaited. *)
Definition activations (w : World) : nat :=
  (length (frameRequests w) + awaitingSend w)%nat.

(** At most one activation is alive; an animation frame that is
    requested is the one [#detectionLoopId] holds, so that [stop] and
    [start] can cancel it. *)
Definition singleLoop (w : World) : Prop :=
  (activations w <= 1)%nat /\
  (forall id, In id (frameRequests w) ->
              detectionLoopId w = Some id /\ id <> O) /\
  nextRequestId w <> O.

(** [w'] has the loop fields of [w]. *)
Definition sameLoop (w w' : World) : Prop :=
  frameRequests w' = frameRequests w /\
  detectionLoopId w' = detectionLoopId w /\
  awaitingSend w' = awaitingSend w /\
  nextRequestId w' = nextRequestId w.

(** No activation is alive. *)
Definition idle (w : World) : Prop :=
  frameRequests w = [] /\ awaitingSend w = O /\ nextRequestId w <> O.

(** [start] is not called while a send is awaited. *)
Definition startsFresh (w : World) (i : Input) : Prop :=
  match i with Start _ _ _ _ _ => awaitingSend w = O | _ => True end.

Fixpoint noRestartInFlight (w : World) (inputs : list Input) : Prop :=
  match inputs with
  | [] => True
  | i :: rest => startsFresh w i /\ noRestartInFlight (step w i) rest
  end.

(** A progress callback reports a value of the unit interval, which the
    progress bar shows as it is. *)
Definition progressInRange (c : Callback) : Prop :=
  match c with
  | onProgress progress _ =>
      0 <= progress <= 1 /\ ProgressBar.clampedProgress progress = progress
  | _ => True
  end.

Definition isFailure (c : Callback) : bool :=
  match c with onFailure _ => true | _ => false end.

(** [Math.random()] returns numbers of the interval [0, 1). *)
Definition fairDraws (i : Input) : Prop :=
  match i with
  | Start _ random _ _ _ => forall k, 0 <= random k < 1
  | _ => True
  end.

(** A call of [onChallengeChanged] names a challenge. *)
Definition namesChallenge (c : Callback) : Prop :=
  match c with
  | onChallengeChanged challenge => challenge <> None
  | _ => True
  end.

(** Since the log was [log0], [onSuccess] was called only if the index
    has run past the last challenge. *)
Definition successAtEnd (log0 : list Callback) (v : Session.View) : Prop :=
  exists l,
    Session.vlog v = log0 ++ l /\
    (filter Session.isSuccess l <> [] ->
     (length (Session.vchallenges v) <= Session.vindex v)%nat).

End Runs.

(** ** [src/sdk/LivenessSDK.js]: the listeners *)

Module Listeners.

(** A listener is a function object; it is told from the others by its
    identity. *)
Definition Listener : Type := nat.

(** [this.listeners]: the own keys of the object, in the order of the
    literal, each with its array. *)
Definition Registry : Type := list (string * list Listener).

(** The object the constructor creates. *)
Definition initial : Registry :=
  [ ("ready"%string, []); ("challenge"%string, []); ("progress"%string, []);
    ("success"%string, []); ("failure"%string, []); ("error"%string, []) ].

(** The members an object literal inherits from [Object.prototype].
    Each of them is truthy, and none has a [push], a [filter] or a
    [forEach]. *)
Definition objectPrototype : list string :=
  [ "constructor"; "hasOwnProperty"; "isPrototypeOf"; "propertyIsEnumerable";
    "toLocaleString"; "toString"; "valueOf"; "__proto__";
    "__defineGetter__"; "__defineSetter__"; "__lookupGetter__";
    "__lookupSetter__" ]%string.

(** What [this.listeners[event]] reads. *)
Inductive Property : Type :=
| Own (callbacks : list Listener)
| Inherited
| Undefined.

Definition get (listeners : Registry) (event : string) : Property :=
  match find (fun entry => String.eqb (fst entry) event) listeners with
  | Some entry => Own (snd entry)
  | None =>
      if existsb (String.eqb event) objectPrototype then Inherited
      else Undefined
  end.

(** The array under the own key [event] replaced. *)
Definition set (listeners : Registry) (event : string)
           (callbacks : list Listener) : Registry :=
  map (fun entry =>
         if String.eqb (fst entry) event then (fst entry, callbacks) else entry)
      listeners.

(** What a method comes to: it returns, or it throws a [TypeError]
    ([undefined] is called as a function). *)
Inductive Outcome (A : Type) : Type :=
| Returned (a : A)
| TypeError.

Arguments Returned {A} a.
Arguments TypeError {A}.

Definition on (event : string) (callback : Listener) (listeners : Registry)
  : Outcome Registry :=
  match get listeners event with
  | Own callbacks => Returned (set listeners event (callbacks ++ [callback]))
  | Inherited => TypeError
  | Undefined => Returned listeners
  end.

Definition off (event : string) (callback : Listener) (listeners : Registry)
  : Outcome Registry :=
  match get listeners event with
  | Own callbacks =>
      Returned
        (set listeners event
             (filter (fun cb => negb (Nat.eqb cb callback)) callbacks))
  | Inherited => TypeError
  | Undefined => Returned listeners
  end.

(** What an emission does: it calls a listener, and it writes to the
    console when the listener has thrown. *)
Inductive Effect : Type :=
| call (cb : Listener)
| consoleError (cb : Listener).

(** The body of the [forEach]; [throws cb] tells whether [cb] throws
    on the payload. *)
Definition deliver (throws : Listener -> bool) (callbacks : list Listener)
  : list Effect :=
  flat_map (fun cb => call cb :: if throws cb then [consoleError cb] else [])
           callbacks.

Definition _emit (throws : Listener -> bool) (event : string)
           (listeners : Registry) : Outcome (list Effect) :=
  match get listeners event with
  | Own callbacks => Returned (deliver throws callbacks)
  | Inherited => TypeError
  | Undefined => Returned []
  end.

(** The effects that are calls, as the listeners called. *)
Definition called (effects : list Effect) : list Listener :=
  flat_map (fun e => match e with call cb => [cb] | consoleError _ => [] end)
           effects.

(** The six event names. *)
Definition events : list string := map fst initial.

End Listeners.

(** ** [src/components/LivenessChecker.jsx]: the enrolled identities *)

Module Checker.

Import Utils.

Inductive MODE : Type := ENROLL | VERIFY.

(** An enrolled identity; [descriptor] is absent when the stored object
    has no such member. *)
Record Identity : Type := { name : string; descriptor : Vector }.

(** [bestMatch]: the object [{ score, name }]. *)
Record Match : Type := { score : R; matched : string }.

(** The [forEach] over the enrolled users, from
    [{ score: -1, name: "Unknown" }]. *)
Definition bestMatch (descriptor : Vector) (enrolledUsers : list Identity)
  : Match :=
  fold_left
    (fun bestMatch user =>
       let score :=
         calculateCosineSimilarity descriptor (Checker.descriptor user) in
       if score >? Checker.score bestMatch
       then {| score := score; matched := name user |}
       else bestMatch)
    enrolledUsers
    {| score := -1; matched := "Unknown" |}.

(** The verification branch of the success handler: what it hands to
    [setMatchScore] and to [setInstruction]; nothing is set when nobody
    is enrolled. *)
Definition verify (descriptor : list R) (enrolledUsers : list Identity)
  : option (R * string) :=
  match enrolledUsers with
  | [] => None
  | _ :: _ =>
      let bestMatch := bestMatch (Some descriptor) enrolledUsers in
      Some (score bestMatch,
            if score bestMatch >? 0.8
            then ("Identity Verified! Welcome, " ++ matched bestMatch ++ ".")%string
            else "Identity Mismatch!"%string)
  end.

(** What [localStorage.getItem("face_identity")] holds, as
    [JSON.parse] reads it: nothing, a text that does not parse, a value
    that is no array, or an array of identities. *)
Inductive Saved : Type :=
| absent
| malformed
| noArray
| users (identities : list Identity).

(** The part of the component state that holds the identities, with
    the storage. *)
Record Store : Type := {
  enrolledUsers : list Identity;
  mode : MODE;
  face_identity : Saved
}.

(** The initial values of [useState]. *)
Definition initial (saved : Saved) : Store :=
  {| enrolledUsers := []; mode := ENROLL; face_identity := saved |}.

(** The effect that reads the storage when the component is mounted. *)
Definition load (s : Store) : Store :=
  match face_identity s with
  | users (user :: others) =>
      {| enrolledUsers := user :: others;
         mode := VERIFY;
         face_identity := face_identity s |}
  | _ => s
  end.

(** The enrolment branch of the success handler; [userName] is what
    [userNameRef.current] holds. *)
Definition enroll (userName : string) (descriptor : list R) (s : Store)
  : Store :=
  let newIdentity :=
    {| name := if String.eqb userName EmptyString then "User"%string
               else userName;
       descriptor := Some descriptor |} in
  let updated := enrolledUsers s ++ [newIdentity] in
  {| enrolledUsers := updated; mode := mode s; face_identity := users updated |}.

(** The success handler of the SDK the component holds. *)
Definition onSuccess (userName : string) (descriptor : list R) (s : Store)
  : Store :=
  match mode s with
  | ENROLL => enroll userName descriptor s
  | VERIFY => s
  end.

(** [prev.filter((_, index) => index !== indexToRemove)], from
    [index]. *)
Fixpoint filterIndex {A : Type} (indexToRemove index : nat) (prev : list A)
  : list A :=
  match prev with
  | [] => []
  | user :: others =>
      if negb (Nat.eqb index indexToRemove)
      then user :: filterIndex indexToRemove (S index) others
      else filterIndex indexToRemove (S index) others
  end.

Definition removeIdentity (indexToRemove : nat) (s : Store) : Store :=
  let updated := filterIndex indexToRemove 0 (enrolledUsers s) in
  match updated with
  | [] => {| enrolledUsers := updated; mode := ENROLL; face_identity := absent |}
  | _ :: _ =>
      {| enrolledUsers := updated; mode := mode s;
         face_identity := users updated |}
  end.

Definition clearIdentity (s : Store) : Store :=
  {| enrolledUsers := []; mode := ENROLL; face_identity := absent |}.

(** The two mode buttons; the Verify button is disabled while nobody is
    enrolled. *)
Definition selectMode (m : MODE) (s : Store) : Store :=
  match m, enrolledUsers s with
  | VERIFY, [] => s
  | _, _ =>
      {| enrolledUsers := enrolledUsers s; mode := m;
         face_identity := face_identity s |}
  end.

(** What can happen to the identities. *)
Inductive Action : Type :=
| Success (userName : string) (descriptor : list R)
| SelectMode (m : MODE)
| RemoveIdentity (indexToRemove : nat)
| ClearIdentity.

Definition act (s : Store) (a : Action) : Store :=
  match a with
  | Success userName descriptor => onSuccess userName descriptor s
  | SelectMode m => selectMode m s
  | RemoveIdentity indexToRemove => removeIdentity indexToRemove s
  | ClearIdentity => clearIdentity s
  end.

Definition acts (s : Store) (actions : list Action) : Store :=
  fold_left act actions s.

(** The similarity of [descriptor] with an enrolled identity. *)
Definition similarity (descriptor : list R) (user : Identity) : R :=
  calculateCosineSimilarity (Some descriptor) (Checker.descriptor user).

End Checker.

(** ** More fixtures *)

Module Samples.

(** A configuration whose head turn threshold is out of reach. *)
Definition strictTurn : Engine.Config :=
  {| Engine.blinkEARThreshold := 0.25;
     Engine.headTurnThreshold := 1;
     Engine.challengeTimeout := 5000;
     Engine.targetFPS := 30 |}.

(** An engine that awaits a turn to the left. *)
Definition awaitingTurn (cfg : Engine.Config) : Engine.World :=
  Engine.set_challenges [Engine.TURN_LEFT]
    (Engine.set_isStopped false (Fixture.loaded cfg)).

(** A loaded engine one of whose frames is being sent. *)
Definition frameInFlight : Engine.World :=
  Engine.set_awaitingSend 1 (Fixture.loaded Engine.DEFAULT_CONFIG).

(** A loaded engine that was given a render surface. *)
Definition withSurface : Engine.World :=
  Engine.set_canvasCtx true (Fixture.loaded Engine.DEFAULT_CONFIG).

(** What a caller may do before the models are loaded. *)
Definition tooEarly : list Engine.Input :=
  [ Engine.Load false;
    Engine.Start 1000 Fixture.keepOrder true true 4;
    Engine.FaceMeshResults 1010 (Some [Fixture.eyesOpen]);
    Engine.Stop ].


(** An embedding of norm 5. *)
Definition embedding : list R := [3; 4].

(** Somebody who is enrolled. *)
Definition ada : Checker.Identity :=
  {| Checker.name := "Ada"; Checker.descriptor := Some [1; 0] |}.

Definition grace : Checker.Identity :=
  {| Checker.name := "Grace"; Checker.descriptor := Some [0; 1] |}.

End Samples.

(** ** Numbers in double precision *)

Module Binary64.

(** The exponent of a number other than 0: the [e] with
    [2^e <= |x| < 2^(e+1)]. *)
Definition exponent (x : R) : Z := Zfloor (ln (Rabs x) / ln 2).

(** The unit in the last place: 53 significant bits, and nothing finer
    than [2^-1074]. *)
Definition ulp (x : R) : R := powerRZ 2 (Z.max (exponent x - 52) (-1074)).

(** The integer nearest to [y]; of two that are equally near, the even
    one. *)
Definition nearest (y : R) : Z :=
  let n := Zfloor y in
  if Rlt_dec (y - IZR n) (/ 2) then n
  else if Rlt_dec (/ 2) (y - IZR n) then (n + 1)%Z
  else if Z.even n then n else (n + 1)%Z.

(** The double nearest to [x], ties to even.  The overflow to an
    infinity is not modelled. *)
Definition round (x : R) : R := IZR (nearest (x / ulp x)) * ulp x.

(** [a - b] and [a / b], as the code computes them. *)
Definition sub (a b : R) : R := round (a - b).
Definition div (a b : R) : R := round (a / b).

(** [a % b]: the remainder of two doubles is a double, the operator
    does not round. *)
Definition rem (a b : R) : R := Num.rem a b.

End Binary64.

(** ** [#detectionLoop] in double precision

    The remainder is not continuous: a divisor that is off by one unit
    in the last place moves it by a whole interval.  The frame
    scheduler is therefore also given in the arithmetic of the code,
    with the three operations rounded as they are there.
    [Engine.detectionLoop] is this scheduler wherever the three
    operations are exact, as they are at 40 frames per second; at the
    default of 30 the interval [1000 / 30] is rounded and the two
    differ. *)

Module FrameScheduler.

Import Engine.

Definition detectionLoop (now : R) (readyState : nat) (w : World) : World :=
  if isStopped w || negb (videoElement w) || (readyState <? 2)%nat then
    if negb (isStopped w) then requestAnimationFrame w else w
  else
    let elapsed := Binary64.sub now (lastFrameTime w) in
    let fpsInterval := Binary64.div 1000 (targetFPS (config w)) in
    if elapsed >? fpsInterval then
      let w :=
        set_lastFrameTime
          (Binary64.sub now (Binary64.rem elapsed fpsInterval)) w in
      set_awaitingSend (S (awaitingSend w))
        (set_framesSent (S (framesSent w)) w)
    else requestAnimationFrame w.

(** [start], which ends in a call of [#detectionLoop]. *)
Definition start (now : R) (random : nat -> R) (video canvas : bool)
           (readyState : nat) (w : World) : Outcome :=
  if negb (isReady w) then Thrown "Engine not loaded. Call load() first."
  else
    let w := set_videoElement video w in
    let w := set_canvasCtx canvas w in
    let w := set_isStopped false w in
    let w := set_isChallengeProcessing false w in
    let w := set_currentChallengeIndex 0 w in
    let w := set_lastChallengeTime now w in
    let w := set_hasDetectedOpenEyes false w in
    let w := set_lastFrameTime 0 w in
    let w := set_challenges (generateChallenges random) w in
    let w := emit (onChallengeChanged
                     (nth_error (challenges w) (currentChallengeIndex w))) w in
    let w :=
      match detectionLoopId w with
      | Some (S _ as id) => cancelAnimationFrame id w
      | _ => w
      end in
    Returned (detectionLoop now readyState w).

(** The turns of the event loop: those that run [#detectionLoop] run
    this one, the others are as in [Engine.step]. *)
Definition step (w : World) (i : Input) : World :=
  match i with
  | Start now random video canvas readyState =>
      match start now random video canvas readyState w with
      | Returned w' => w'
      | Thrown _ => w
      end
  | AnimationFrame id now readyState =>
      if existsb (Nat.eqb id) (frameRequests w)
      then detectionLoop now readyState (cancelAnimationFrame id w)
      else w
  | _ => Engine.step w i
  end.

Definition run (w : World) (inputs : list Input) : World :=
  fold_left step inputs w.

(** [start] when the clock reads 1000; the first frame is sent, the
    send resolves and requests animation frame 1. *)
Definition startedAt1000 : list Input :=
  [ Start 1000 Fixture.keepOrder true true 4; SendResolved ].

End FrameScheduler.

(** ** [#completeLiveness] with its [await]

    [Engine.completeLiveness] takes the [await] on the tensor's data to
    resume before anything else runs.  Here the two halves are apart:
    between them the engine is stopped and the extraction is awaited,
    and the host may run anything else. *)

Module Completion.

Import Engine.

(** The engine, and the normalised tensors whose [data()] is
    awaited. *)
Record World : Type := {
  engine : Engine.World;
  awaitingData : list (list R)
}.

(** [#completeLiveness] up to the [await]; [prediction] is [None] when
    [#getFaceTensor], the model or the normalisation throws. *)
Definition completeLiveness (prediction : option (list R)) (w : World)
  : World :=
  let e := stop (engine w) in
  let e := emit (onChallengeChanged (Some PROCESSING)) e in
  match prediction with
  | Some predictionTensor =>
      {| engine := e;
         awaitingData := awaitingData w ++ [normalize predictionTensor] |}
  | None =>
      {| engine := failChallenge RECOGNITION_FAILED e;
         awaitingData := awaitingData w |}
  end.

(** [#completeLiveness] after the [await]: [ok] tells whether the
    promise was fulfilled, with [descriptorArray], rather than
    rejected. *)
Definition completeLiveness_resume (ok : bool) (descriptorArray : list R)
           (e : Engine.World) : Engine.World :=
  if ok then emit (onSuccess descriptorArray) e
  else failChallenge RECOGNITION_FAILED e.

Definition moveToNextChallenge (now : R) (prediction : option (list R))
           (w : World) : World :=
  let e := set_currentChallengeIndex (S (currentChallengeIndex (engine w)))
             (engine w) in
  let e := set_hasDetectedOpenEyes false e in
  if (length (challenges e) <=? currentChallengeIndex e)%nat then
    completeLiveness prediction
      {| engine := e; awaitingData := awaitingData w |}
  else
    let e := set_lastChallengeTime now e in
    let e := emit (onChallengeChanged
                     (nth_error (challenges e) (currentChallengeIndex e))) e in
    {| engine := set_isChallengeProcessing false e;
       awaitingData := awaitingData w |}.

(** The [k]-th element taken out. *)
Fixpoint without {A : Type} (k : nat) (l : list A) : list A :=
  match l, k with
  | [], _ => []
  | _ :: rest, O => rest
  | a :: rest, S k' => a :: without k' rest
  end.

(** A turn of the event loop: one of [Engine.Input], or the data of the
    [k]-th awaited tensor being there. *)
Inductive Input : Type :=
| Host (i : Engine.Input)
| DataResolved (k : nat) (ok : bool).

Definition step (w : World) (i : Input) : World :=
  match i with
  | Host (SettleTimeout now prediction) =>
      match settleTimers (engine w) with
      | O => w
      | S n =>
          moveToNextChallenge now prediction
            {| engine := set_settleTimers n (engine w);
               awaitingData := awaitingData w |}
      end
  | Host i =>
      {| engine := Engine.step (engine w) i; awaitingData := awaitingData w |}
  | DataResolved k ok =>
      match nth_error (awaitingData w) k with
      | Some descriptorArray =>
          {| engine := completeLiveness_resume ok descriptorArray (engine w);
             awaitingData := without k (awaitingData w) |}
      | None => w
      end
  end.

Definition run (w : World) (inputs : list Input) : World :=
  fold_left step inputs w.

(** The vocabulary of the statements. *)
Definition notStart (i : Input) : Prop :=
  match i with Host i => Runs.notStart i | _ => True end.

Definition notLoad (i : Input) : Prop :=
  match i with Host i => Runs.notLoad i | _ => True end.

(** The caller stops the engine while the last challenge settles. *)
Definition stoppedBeforeCompletion : World :=
  {| engine :=
       Engine.step
         (Engine.run (Fixture.loaded DEFAULT_CONFIG) Fixture.challengesPassed)
         Stop;
     awaitingData := [] |}.

(** The settle timer fires and the data of the tensor arrives. *)
Definition lateCompletion : list Input :=
  [ Host (SettleTimeout 2210 (Some Fixture.threeFour));
    DataResolved 0 true ].

End Completion.

(* ================================================================== *)
(** * Part II. Properties                                              *)
(* ================================================================== *)

(** ** Numbers *)

Lemma gtb_true a b : a > b -> (a >? b) = true.
Proof. unfold Num.gtb; destruct (Rgt_dec a b); tauto. Qed.

Lemma gtb_false a b : ~ a > b -> (a >? b) = false.
Proof. unfold Num.gtb; destruct (Rgt_dec a b); tauto. Qed.

Lemma ltb_true a b : a < b -> (a <? b) = true.
Proof. unfold Num.ltb; destruct (Rlt_dec a b); tauto. Qed.

Lemma ltb_false a b : ~ a < b -> (a <? b) = false.
Proof. unfold Num.ltb; destruct (Rlt_dec a b); tauto. Qed.

Lemma gtb_spec a b : (a >? b) = true <-> a > b.
Proof. unfold Num.gtb; destruct (Rgt_dec a b); split; auto; discriminate. Qed.

Lemma ltb_spec a b : (a <? b) = true <-> a < b.
Proof. unfold Num.ltb; destruct (Rlt_dec a b); split; auto; discriminate. Qed.

(** ** Vectors *)

Lemma dot_self_nonneg v : 0 <= Vec.dot v v.
Proof. induction v as [|u v IH]; simpl; [lra | nra]. Qed.

Lemma norm_sqr v : Vec.norm v ^ 2 = Vec.dot v v.
Proof. unfold Vec.norm; apply pow2_sqrt, dot_self_nonneg. Qed.

Lemma unit_dot v : Vec.unit v -> Vec.dot v v = 1.
Proof.
  unfold Vec.unit; intros H.
  rewrite <- norm_sqr, H; lra.
Qed.

Lemma dot_neg_r a b : Vec.dot a (Vec.neg b) = - Vec.dot a b.
Proof.
  revert b; induction a as [|u a IH]; intros [|v b]; simpl; try lra.
  rewrite IH; lra.
Qed.

Lemma neg_length v : length (Vec.neg v) = length v.
Proof. apply length_map. Qed.

Lemma dot_add a b :
  length a = length b ->
  Vec.dot (Vec.add a b) (Vec.add a b)
  = Vec.dot a a + 2 * Vec.dot a b + Vec.dot b b.
Proof.
  revert b; induction a as [|u a IH]; intros [|v b]; simpl; intros Hl;
    try discriminate; [lra|].
  rewrite IH by congruence; lra.
Qed.

Lemma orthogonal_dot a b : Vec.orthogonal a b -> Vec.dot a b = 0.
Proof.
  intros [Hl H]; rewrite !norm_sqr, dot_add in H by assumption; lra.
Qed.

(** ** [calculateCosineSimilarity] *)

Section DotLoop.

Import Utils.

Let body (a b : list R) := fun (acc : R) (i : nat) => acc + nth i a 0 * nth i b 0.

Lemma loop_shift u v a b l acc :
  fold_left (body (u :: a) (v :: b)) (map S l) acc
  = fold_left (body a b) l acc.
Proof.
  revert acc; induction l as [|i l IH]; intros acc; simpl; [reflexivity|].
  apply IH.
Qed.

Lemma loop_acc a b l acc :
  fold_left (body a b) l acc = acc + fold_left (body a b) l 0.
Proof.
  revert acc; induction l as [|i l IH]; intros acc; simpl; [lra|].
  rewrite IH, (IH (body a b 0 i)); unfold body; lra.
Qed.

Lemma dotProduct_loop_dot a b :
  length a = length b -> dotProduct_loop a b = Vec.dot a b.
Proof.
  unfold dotProduct_loop; fold (body a b).
  revert b; induction a as [|u a IH]; intros [|v b] Hl; simpl in *;
    try discriminate; [reflexivity|].
  rewrite <- seq_shift.
  change (fold_left (body (u :: a) (v :: b)) (map S (seq 0 (length a)))
                    (0 + u * v) = u * v + Vec.dot a b).
  rewrite loop_shift, loop_acc.
  fold (body a b) in IH; rewrite IH by congruence; lra.
Qed.

End DotLoop.

Example cosine_identical :
  Utils.calculateCosineSimilarity (Some [1; 0; 0]) (Some [1; 0; 0]) = 1.
Proof. unfold Utils.calculateCosineSimilarity, Utils.dotProduct_loop; simpl; lra. Qed.

Example cosine_mismatched :
  Utils.calculateCosineSimilarity (Some [1; 0; 0]) (Some [1; 0]) = 0.
Proof. reflexivity. Qed.

(** C7. [calculateCosineSimilarity] is 0 when an argument is absent or
    the lengths differ (the function is total: it has no way to throw);
    on arrays of one length it is the dot product, nothing being divided
    by a magnitude; hence 1 on [(v, v)] and -1 on [(v, -v)] for a unit
    vector [v], and 0 on orthogonal unit vectors. *)
Theorem calculateCosineSimilarity_spec :
  (forall vecB, Utils.calculateCosineSimilarity None vecB = 0) /\
  (forall vecA, Utils.calculateCosineSimilarity vecA None = 0) /\
  (forall a b, length a <> length b ->
               Utils.calculateCosineSimilarity (Some a) (Some b) = 0) /\
  (forall a b, length a = length b ->
               Utils.calculateCosineSimilarity (Some a) (Some b) = Vec.dot a b) /\
  (forall v, Vec.unit v ->
             Utils.calculateCosineSimilarity (Some v) (Some v) = 1 /\
             Utils.calculateCosineSimilarity (Some v) (Some (Vec.neg v)) = -1) /\
  (forall a b, Vec.unit a -> Vec.unit b -> Vec.orthogonal a b ->
               Utils.calculateCosineSimilarity (Some a) (Some b) = 0).
Proof.
  assert (Hdot : forall a b, length a = length b ->
            Utils.calculateCosineSimilarity (Some a) (Some b) = Vec.dot a b).
  { intros a b Hl; unfold Utils.calculateCosineSimilarity.
    rewrite (proj2 (Nat.eqb_eq _ _) Hl); now apply dotProduct_loop_dot. }
  refine (conj _ (conj _ (conj _ (conj Hdot (conj _ _))))).
  - reflexivity.
  - now intros [a|].
  - intros a b Hl; unfold Utils.calculateCosineSimilarity.
    now rewrite (proj2 (Nat.eqb_neq _ _) Hl).
  - intros v Hv; split.
    + rewrite Hdot by reflexivity; now apply unit_dot.
    + rewrite Hdot by (now rewrite neg_length).
      rewrite dot_neg_r, unit_dot by assumption; lra.
  - intros a b _ _ Ho; rewrite Hdot by apply Ho.
    now apply orthogonal_dot.
Qed.

(** ** [calculateHeadTurnV2] *)

Import Fixture.

Lemma sqrt_of_square a b : 0 <= b -> a = b * b -> sqrt a = b.
Proof. intros Hb ->; now apply sqrt_square. Qed.

Example headTurn_neutral :
  Utils.calculateHeadTurnV2
    (put 454 (Utils.p 10 5 (-1))
       (put 234 (Utils.p 0 5 (-1)) (put 152 (Utils.p 5 10 0) blank))) = 0.
Proof.
  unfold Utils.calculateHeadTurnV2, Utils.euclideanDistance; cbn.
  rewrite (sqrt_of_square _ 10) by lra.
  rewrite ltb_false by lra; lra.
Qed.

Example headTurn_left_positive :
  Utils.calculateHeadTurnV2
    (put 454 (Utils.p 10 0 0)
       (put 234 (Utils.p 0 0 (-5)) (put 152 (Utils.p 5 10 0) blank))) > 0.
Proof.
  unfold Utils.calculateHeadTurnV2, Utils.euclideanDistance; cbn.
  set (d := sqrt _).
  assert (Hd : 10 <= d).
  { unfold d; rewrite <- (sqrt_square 10) at 1 by lra.
    apply sqrt_le_1_alt; lra. }
  rewrite ltb_false by lra.
  apply Rdiv_lt_0_compat; lra.
Qed.

(** C8. [calculateHeadTurnV2] is exactly 0 when the distance between
    the two cheek landmarks is below 0.1, whatever the depths; otherwise
    it is ((rightCheek.z - chin.z) - (leftCheek.z - chin.z)) / faceWidth,
    which is exactly 0 when the two cheek depths relative to the chin
    are equal. *)
Theorem calculateHeadTurnV2_spec (landmarks : Utils.Landmarks) :
  let leftCheek := landmarks Utils.leftCheek in
  let rightCheek := landmarks Utils.rightCheek in
  let chin := landmarks Utils.chin in
  let faceWidth := Utils.euclideanDistance leftCheek rightCheek in
  (faceWidth < 0.1 -> Utils.calculateHeadTurnV2 landmarks = 0) /\
  (~ faceWidth < 0.1 ->
   Utils.calculateHeadTurnV2 landmarks
   = ((Utils.z rightCheek - Utils.z chin) - (Utils.z leftCheek - Utils.z chin))
     / faceWidth) /\
  (Utils.z rightCheek - Utils.z chin = Utils.z leftCheek - Utils.z chin ->
   Utils.calculateHeadTurnV2 landmarks = 0).
Proof.
  intros lc rc c fw; unfold Utils.calculateHeadTurnV2.
  fold lc rc c; fold fw.
  refine (conj _ (conj _ _)).
  - intros H; now rewrite ltb_true.
  - intros H; now rewrite ltb_false.
  - intros H; destruct (fw <? 0.1); [reflexivity|].
    rewrite H; unfold Rdiv; ring.
Qed.

(** ** [#generateChallenges] *)

Section Sequencer.

Import Engine Randomizer.

Lemma Zfloor_nonneg a : 0 <= a -> (0 <= Zfloor a)%Z.
Proof. intros H; apply Zfloor_lub; simpl; lra. Qed.

(** [Math.floor(r * n)] is [j] exactly on the cell [j/n <= r < (j+1)/n]. *)
Lemma floor_index_cell r n j :
  (0 < n)%nat -> 0 <= r ->
  Num.floor_index (r * INR n) = j <->
  INR j / INR n <= r < (INR j + 1) / INR n.
Proof.
  intros Hn Hr.
  assert (HN : 0 < INR n) by (apply lt_0_INR; lia).
  assert (Hx : 0 <= r * INR n) by nra.
  assert (Hdiv : forall a, a / INR n * INR n = a) by (intros; field; lra).
  unfold Num.floor_index.
  pose proof (Zfloor_bound (r * INR n)) as Hb.
  pose proof (Zfloor_nonneg _ Hx) as H0.
  split.
  - intros <-; rewrite INR_IZR_INZ, Z2Nat.id by assumption.
    split.
    + apply Rmult_le_reg_r with (INR n); [assumption|]; rewrite Hdiv; lra.
    + apply Rmult_lt_reg_r with (INR n); [assumption|]; rewrite Hdiv; lra.
  - intros [Hl Hu].
    apply (Rmult_le_compat_r (INR n)) in Hl; [|lra].
    apply (Rmult_lt_compat_r (INR n)) in Hu; [|lra].
    rewrite Hdiv in Hl, Hu.
    rewrite (Zfloor_eq (Z.of_nat j)).
    + apply Nat2Z.id.
    + rewrite <- INR_IZR_INZ; lra.
Qed.

Lemma floor_index_lt r n :
  (0 < n)%nat -> 0 <= r < 1 -> (Num.floor_index (r * INR n) < n)%nat.
Proof.
  intros Hn [Hr Hr1].
  assert (HN : 0 < INR n) by (apply lt_0_INR; lia).
  destruct (proj1 (floor_index_cell r n _ Hn Hr) eq_refl) as [Hl _].
  apply INR_lt.
  apply (Rmult_le_compat_r (INR n)) in Hl; [|lra].
  replace (_ / INR n * INR n) with (INR (Num.floor_index (r * INR n))) in Hl
    by (field; lra).
  nra.
Qed.

(** The pairing test splits [0, 1) at 0.5. *)
Lemma pairing_cell r :
  0 <= r < 1 ->
  ((r >? 0.5) = true <-> 0.5 < r < 1) /\
  ((r >? 0.5) = false <-> 0 <= r <= 0.5).
Proof.
  intros Hr; unfold Num.gtb; destruct (Rgt_dec r 0.5); split; split;
    intros; try discriminate; try reflexivity; lra.
Qed.

Lemma generateChallenges_choice random :
  generateChallenges random = generate_with (choice_of random).
Proof.
  unfold generateChallenges, generate_with, choice_of.
  destruct (random O >? 0.5); reflexivity.
Qed.

Lemma choice_in_range random :
  (forall k, 0 <= random k < 1) -> In (choice_of random) choices.
Proof.
  intros Hr; unfold choice_of.
  pose proof (floor_index_lt (random 1%nat) 3 ltac:(lia) (Hr _)) as H2.
  pose proof (floor_index_lt (random 2%nat) 2 ltac:(lia) (Hr _)) as H1.
  destruct (random O >? 0.5);
    destruct (Num.floor_index (random 1%nat * INR 3)) as [|[|[|?]]]; try lia;
    destruct (Num.floor_index (random 2%nat * INR 2)) as [|[|?]]; try lia;
    simpl; tauto.
Qed.

Lemma generate_with_permutation c :
  In c choices -> Permutation [BLINK; TURN_LEFT; TURN_RIGHT] (generate_with c).
Proof.
  simpl; intros H.
  repeat (destruct H as [<- | H]; [cbn; auto using perm_swap, Permutation_refl|]);
    try contradiction.
  all: cbn.
  all: try (apply perm_skip, perm_swap).
  all: try (apply perm_swap).
  all: try (eapply perm_trans; [apply perm_swap | apply perm_skip, perm_swap]).
  all: try (eapply perm_trans; [apply perm_skip, perm_swap | apply perm_swap]).
  all: try (eapply perm_trans;
            [apply perm_swap
            |eapply perm_trans; [apply perm_skip, perm_swap | apply perm_swap]]).
Qed.

Lemma weight_value c : weight c = 1 / 12.
Proof.
  destruct c as [[[|] j2] j1]; unfold weight, pairing_measure, index_measure;
    simpl; lra.
Qed.

Lemma probability_count sequence :
  probability sequence
  = INR (length (filter (fun c => if sequence_eq_dec (generate_with c) sequence
                                  then true else false) choices)) * (1 / 12).
Proof.
  unfold probability; induction choices as [|c l IH]; [simpl; lra|].
  cbn [map fold_right filter]; rewrite IH.
  destruct (sequence_eq_dec (generate_with c) sequence).
  - cbn [length]; rewrite S_INR, weight_value; lra.
  - lra.
Qed.

End Sequencer.

Example generateChallenges_sample :
  Engine.generateChallenges
    (fun k => match k with O => 0.75 | 1%nat => 0.5 | _ => 0.25 end)
  = [Engine.TURN_RIGHT; Engine.BLINK; Engine.TURN_LEFT].
Proof.
  rewrite generateChallenges_choice; unfold Randomizer.choice_of.
  rewrite gtb_true by lra.
  rewrite (proj2 (floor_index_cell 0.5 3 1 ltac:(lia) ltac:(lra)))
    by (simpl; lra).
  rewrite (proj2 (floor_index_cell 0.25 2 0 ltac:(lia) ltac:(lra)))
    by (simpl; lra).
  reflexivity.
Qed.

(** C3. [#generateChallenges] returns three challenges, one each of
    BLINK, TURN_LEFT and TURN_RIGHT; the sequence is the one fixed by the
    pairing choice and the two Fisher-Yates indices (drawn at [i = 2],
    then at [i = 1]), and with these uniform each of the six orders has
    probability exactly 1/6. *)
Theorem generateChallenges_uniform :
  (forall random, (forall k, 0 <= random k < 1) ->
     let challenges := Engine.generateChallenges random in
     length challenges = 3%nat /\
     Permutation [Engine.BLINK; Engine.TURN_LEFT; Engine.TURN_RIGHT] challenges /\
     challenges = Randomizer.generate_with (Randomizer.choice_of random) /\
     In (Randomizer.choice_of random) Randomizer.choices) /\
  (forall sequence,
     Permutation [Engine.BLINK; Engine.TURN_LEFT; Engine.TURN_RIGHT] sequence ->
     Randomizer.probability sequence = 1 / 6).
Proof.
  split.
  - intros random Hr challenges; subst challenges.
    pose proof (choice_in_range random Hr) as Hin.
    pose proof (generate_with_permutation _ Hin) as Hp.
    rewrite generateChallenges_choice.
    repeat split; try assumption.
    now rewrite <- (Permutation_length Hp).
  - intros sequence Hp.
    pose proof (Permutation_length Hp) as Hl.
    pose proof (proj1 (Permutation_count_occ Randomizer.ChallengeType_eq_dec _ _) Hp) as Hc.
    pose proof (Hc Engine.BLINK) as Hb.
    pose proof (Hc Engine.TURN_LEFT) as Hleft.
    pose proof (Hc Engine.TURN_RIGHT) as Hright.
    clear Hc Hp.
    destruct sequence as [|a [|b [|c [|d l]]]]; try discriminate Hl.
    rewrite probability_count.
    destruct a, b, c; try discriminate Hb; try discriminate Hleft;
      try discriminate Hright; cbn; lra.
Qed.

(** ** The fixtures *)

Lemma face_EAR ear dx dz side :
  0 <= ear -> Utils.calculateEAR (face ear dx dz) side = ear.
Proof.
  intros He.
  unfold Utils.calculateEAR, Utils.euclideanDistance, face, put.
  destruct side; cbn.
  all: rewrite (sqrt_of_square _ 10) by lra.
  all: rewrite (sqrt_of_square _ (10 * ear)) by nra.
  all: unfold Num.eqb; destruct (Req_dec_T 10 0); [lra|]; field.
Qed.

Lemma face_rawValue ear dx dz :
  0 <= ear ->
  Rmin (Utils.calculateEAR (face ear dx dz) Utils.left)
       (Utils.calculateEAR (face ear dx dz) Utils.right) = ear.
Proof. intros He; rewrite !face_EAR by assumption; apply Rmin_left; lra. Qed.

Lemma face_headTurn ear dx dz w :
  0.1 <= w -> dx * dx + dz * dz = w * w ->
  Utils.calculateHeadTurnV2 (face ear dx dz) = dz / w.
Proof.
  intros Hw H.
  unfold Utils.calculateHeadTurnV2, Utils.euclideanDistance, face, put; cbn.
  rewrite (sqrt_of_square _ w) by nra.
  rewrite ltb_false by lra; f_equal; lra.
Qed.

(** ** The engine: what each method leaves alone *)

(** Case analysis on the innermost scrutinee of the goal, repeatedly. *)
Ltac break_match :=
  repeat match goal with
         | |- context [match ?b with _ => _ end] =>
             lazymatch b with
             | context [match _ with _ => _ end] => fail
             | _ => destruct b
             end
         end.

Section Frame.

Import Session.

Import Engine.

Lemma stop_same w : same_session w (stop w).
Proof. unfold stop, same_session; break_match; cbn; tauto. Qed.

Lemma same_log w w' : same_session w w' -> callbackLog w' = callbackLog w.
Proof. unfold same_session; tauto. Qed.

Lemma same_config w w' : same_session w w' -> config w' = config w.
Proof. unfold same_session; tauto. Qed.

Lemma same_time w w' :
  same_session w w' -> lastChallengeTime w' = lastChallengeTime w.
Proof. unfold same_session; tauto. Qed.

Lemma same_processing w w' :
  same_session w w' -> isChallengeProcessing w' = isChallengeProcessing w.
Proof. unfold same_session; tauto. Qed.

Lemma stop_isStopped w : isStopped (stop w) = true.
Proof. unfold stop; break_match; reflexivity. Qed.

Lemma detectionLoop_same now readyState w :
  same_session w (detectionLoop now readyState w).
Proof. unfold detectionLoop, same_session; break_match; cbn; tauto. Qed.

Lemma detectionLoop_isStopped now readyState w :
  isStopped (detectionLoop now readyState w) = isStopped w.
Proof. unfold detectionLoop; break_match; reflexivity. Qed.

Lemma drawDebugOverlay_same faces w : same_session w (drawDebugOverlay faces w).
Proof. unfold drawDebugOverlay, same_session; break_match; cbn; tauto. Qed.

Lemma drawDebugOverlay_isStopped faces w :
  isStopped (drawDebugOverlay faces w) = isStopped w.
Proof. unfold drawDebugOverlay; break_match; reflexivity. Qed.

End Frame.

(** ** The callbacks a step makes *)

Section Callbacks.

Import Engine Session.

Lemma since_app w w' l : callbackLog w' = callbackLog w ++ l -> since w w' = l.
Proof.
  unfold since; intros ->.
  rewrite skipn_app, skipn_all, Nat.sub_diag; reflexivity.
Qed.

Lemma since_refl w w' : callbackLog w' = callbackLog w -> since w w' = [].
Proof. intros H; apply since_app; now rewrite app_nil_r. Qed.

Lemma failChallenge_log code w :
  callbackLog (failChallenge code w) = callbackLog w ++ [onFailure code].
Proof.
  unfold failChallenge, emit; cbn.
  now rewrite (same_log _ _ (stop_same w)).
Qed.

Lemma failChallenge_isStopped code w : isStopped (failChallenge code w) = true.
Proof. unfold failChallenge, emit; cbn; apply stop_isStopped. Qed.

Lemma evaluate_same landmarks w :
  let '(w', _, _, _) := evaluate landmarks w in
  config w' = config w /\ isStopped w' = isStopped w /\
  isReady w' = isReady w /\
  challenges w' = challenges w /\
  currentChallengeIndex w' = currentChallengeIndex w /\
  lastChallengeTime w' = lastChallengeTime w /\
  isChallengeProcessing w' = isChallengeProcessing w /\
  settleTimers w' = settleTimers w /\
  callbackLog w' = callbackLog w.
Proof. unfold evaluate; break_match; cbn; tauto. Qed.

Lemma challengePassed_same landmarks w w' :
  same_session w w' -> challengePassed landmarks w' = challengePassed landmarks w.
Proof.
  intros (Hc & _ & Hch & Hi & _ & _ & Ho & _).
  unfold challengePassed, evaluate; rewrite Hch, Hi, Hc.
  destruct (nth_error _ _) as [[| | |]|]; try reflexivity.
  - destruct (_ >? OPEN_THRESHOLD); cbn; rewrite ?Hc, ?Ho; reflexivity.
  - now destruct (_ >? _).
  - now destruct (_ <? _).
Qed.

Lemma evaluate_congr landmarks w w' :
  same_session w w' ->
  latchAfter landmarks w' = latchAfter landmarks w /\
  progressOf landmarks w' = progressOf landmarks w /\
  rawValueOf landmarks w' = rawValueOf landmarks w.
Proof.
  intros (Hc & _ & Hch & Hi & _ & _ & Ho & _).
  unfold latchAfter, progressOf, rawValueOf, evaluate; rewrite Hch, Hi, Hc.
  destruct (nth_error _ _) as [[| | |]|]; try (cbn; tauto).
  - destruct (_ >? OPEN_THRESHOLD); cbn; rewrite ?Ho; tauto.
  - destruct (_ >? _); cbn; tauto.
  - destruct (_ <? _); cbn; tauto.
Qed.

End Callbacks.

(** ** Timeouts *)

Section Timeouts.

Import Engine Session.

Lemma noFace_timeout w now faces :
  isStopped w = false -> noFace faces = true ->
  now - lastChallengeTime w > challengeTimeout (config w) ->
  step w (FaceMeshResults now faces)
  = failChallenge FACE_NOT_FOUND
      (set_hasDetectedOpenEyes false (drawDebugOverlay faces w)).
Proof.
  intros Hs Hf Ht; cbn; unfold onFaceMeshResults; rewrite Hs.
  destruct (drawDebugOverlay_same faces w) as (Hc & _ & _ & _ & Hl & _).
  destruct faces as [[|lm rest]|]; try discriminate Hf;
    cbn [lastChallengeTime config set_hasDetectedOpenEyes];
    rewrite Hc, Hl, gtb_true by assumption; reflexivity.
Qed.

Lemma metric_timeout w now lm rest :
  awaiting w -> challengePassed lm w = false ->
  now - lastChallengeTime w > challengeTimeout (config w) ->
  exists w1 progress rawValue,
    callbackLog w1 = callbackLog w /\
    step w (FaceMeshResults now (Some (lm :: rest)))
    = failChallenge CHALLENGE_TIMEOUT (emit (onProgress progress rawValue) w1).
Proof.
  intros [Hs Hp] Hpass Ht; cbn; unfold onFaceMeshResults; rewrite Hs.
  destruct (drawDebugOverlay_same (Some (lm :: rest)) w)
    as (Hc & _ & Hch & Hi & Hl & Hpr & Ho & _ & Hlog).
  set (w0 := drawDebugOverlay _ w) in *.
  unfold processChallenge; rewrite Hpr, Hp.
  assert (Hpass0 : challengePassed lm w0 = false).
  { rewrite <- Hpass; apply challengePassed_same, drawDebugOverlay_same. }
  pose proof (evaluate_same lm w0) as He.
  unfold challengePassed in Hpass0.
  destruct (evaluate lm w0) as [[[w1 passed] progress] rawValue].
  destruct He as (Hc1 & _ & _ & _ & _ & Hl1 & _ & _ & Hlog1).
  subst passed.
  exists w1, (Rmax 0 (Rmin progress 1)), rawValue; split; [congruence|].
  cbn [emit lastChallengeTime config set_callbackLog].
  rewrite Hl1, Hc1, Hl, Hc, gtb_true by assumption; reflexivity.
Qed.

Lemma other_steps_no_timeout w i :
  (forall now faces, i <> FaceMeshResults now faces) ->
  exists l, callbackLog (step w i) = callbackLog w ++ l /\
            forallb (fun c => negb (isTimeout (SDK.emitted c))) l = true.
Proof.
  intros Hi;
    destruct i as [ok|now random video canvas rs| |id now rs| |now faces|now pred].
  - exists (if ok then [onReady] else [onFailure MODEL_LOAD_FAILED]).
    destruct ok; cbn; auto.
  - cbn; unfold start; destruct (isReady w); cbn [negb].
    + eexists; split; [|shelve].
      rewrite (same_log _ _ (detectionLoop_same _ _ _)).
      destruct (detectionLoopId _) as [[|n]|]; reflexivity.
      Unshelve. reflexivity.
    + exists []; now rewrite app_nil_r.
  - exists []; cbn; rewrite app_nil_r; split; [|reflexivity].
    apply same_log, stop_same.
  - exists []; cbn; rewrite app_nil_r.
    destruct (existsb _ _); [|now split].
    split; [|reflexivity].
    now rewrite (same_log _ _ (detectionLoop_same _ _ _)).
  - exists []; cbn; rewrite app_nil_r; now destruct (awaitingSend w).
  - now elim (Hi now faces).
  - cbn; destruct (settleTimers w) as [|n].
    + exists []; now rewrite app_nil_r.
    + unfold moveToNextChallenge; cbn.
      destruct (_ <=? _)%nat.
      * unfold completeLiveness; destruct pred as [raw|].
        -- exists [onChallengeChanged (Some PROCESSING); onSuccess (normalize raw)].
           split; [|reflexivity]; cbn.
           rewrite (same_log _ _ (stop_same _)); cbn.
           now rewrite <- app_assoc.
        -- exists [onChallengeChanged (Some PROCESSING); onFailure RECOGNITION_FAILED].
           split; [|reflexivity].
           rewrite failChallenge_log; cbn.
           rewrite (same_log _ _ (stop_same _)); cbn.
           now rewrite <- app_assoc.
      * eexists; split; reflexivity.
Qed.

End Timeouts.

(** C5. A results callback without a face that arrives more than
    [challengeTimeout] ms after the current challenge started stops the
    session and emits the failure FACE_NOT_FOUND; one with a face, while
    a challenge is awaited, whose metric does not pass and that arrives
    that late stops it and emits CHALLENGE_TIMEOUT (after the progress
    event); and no step other than a results callback emits either
    failure: there is no timer behind the timeouts. *)
Theorem timeouts_at_frame_evaluation :
  (forall w now faces,
     Engine.isStopped w = false -> Session.noFace faces = true ->
     now - Engine.lastChallengeTime w > Engine.challengeTimeout (Engine.config w) ->
     let w' := Engine.step w (Engine.FaceMeshResults now faces) in
     Engine.isStopped w' = true /\
     Session.eventsSince w w' = [SDK.failure Engine.FACE_NOT_FOUND]) /\
  (forall w now landmarks others,
     Session.awaiting w -> Session.challengePassed landmarks w = false ->
     now - Engine.lastChallengeTime w > Engine.challengeTimeout (Engine.config w) ->
     let w' :=
       Engine.step w (Engine.FaceMeshResults now (Some (landmarks :: others))) in
     Engine.isStopped w' = true /\
     exists progress rawValue,
       Session.eventsSince w w'
       = [SDK.progress progress rawValue; SDK.failure Engine.CHALLENGE_TIMEOUT]) /\
  (forall w i,
     (forall now faces, i <> Engine.FaceMeshResults now faces) ->
     forallb (fun e => negb (Session.isTimeout e))
             (Session.eventsSince w (Engine.step w i)) = true).
Proof.
  refine (conj _ (conj _ _)).
  - intros w now faces Hs Hf Ht w'; subst w'.
    rewrite noFace_timeout by assumption.
    split; [apply failChallenge_isStopped|].
    unfold Session.eventsSince.
    rewrite (since_app _ _ [Engine.onFailure Engine.FACE_NOT_FOUND]);
      [reflexivity|].
    rewrite failChallenge_log; cbn.
    now rewrite (same_log _ _ (drawDebugOverlay_same _ _)).
  - intros w now lm rest Ha Hp Ht w'; subst w'.
    destruct (metric_timeout w now lm rest Ha Hp Ht)
      as (w1 & progress & rawValue & Hlog & ->).
    split; [apply failChallenge_isStopped|].
    exists progress, rawValue.
    unfold Session.eventsSince.
    rewrite (since_app _ _ [Engine.onProgress progress rawValue;
                            Engine.onFailure Engine.CHALLENGE_TIMEOUT]);
      [reflexivity|].
    rewrite failChallenge_log; cbn; rewrite Hlog.
    now rewrite <- app_assoc.
  - intros w i Hi.
    destruct (other_steps_no_timeout w i Hi) as (l & Hl & Hno).
    unfold Session.eventsSince; rewrite (since_app _ _ _ Hl).
    clear Hl; induction l as [|c l IH]; [reflexivity|].
    cbn in Hno |- *; apply andb_true_iff in Hno as [-> Hno]; auto.
Qed.

(** ** The state machine, one input at a time *)

Section Rules.

Import Engine Session.

Lemma view_same w w' :
  same_session w w' -> isStopped w' = isStopped w -> view w' = view w.
Proof.
  unfold view; intros (Hc & Hr & Hch & Hi & Hl & Hp & Ho & Ht & Hlog) Hs.
  now rewrite Hc, Hr, Hch, Hi, Hl, Hp, Ho, Ht, Hlog, Hs.
Qed.

Lemma view_of_same w w' :
  same_session w w' ->
  view w'
  = {| vconfig := config w;
       vready := isReady w;
       vstopped := isStopped w';
       vchallenges := challenges w;
       vindex := currentChallengeIndex w;
       vtime := lastChallengeTime w;
       vprocessing := isChallengeProcessing w;
       vlatch := hasDetectedOpenEyes w;
       vtimers := settleTimers w;
       vlog := callbackLog w |}.
Proof.
  unfold view; intros (Hc & Hr & Hch & Hi & Hl & Hp & Ho & Ht & Hlog).
  now rewrite Hc, Hr, Hch, Hi, Hl, Hp, Ho, Ht, Hlog.
Qed.

Lemma rule_load w ok :
  view (step w (Load ok))
  = {| vconfig := config w;
       vready := if ok then true else isReady w;
       vstopped := isStopped w;
       vchallenges := challenges w;
       vindex := currentChallengeIndex w;
       vtime := lastChallengeTime w;
       vprocessing := isChallengeProcessing w;
       vlatch := hasDetectedOpenEyes w;
       vtimers := settleTimers w;
       vlog := callbackLog w
               ++ [if ok then onReady else onFailure MODEL_LOAD_FAILED] |}.
Proof. destruct ok; reflexivity. Qed.

Lemma rule_start w now random video canvas readyState :
  isReady w = true ->
  view (step w (Start now random video canvas readyState))
  = {| vconfig := config w;
       vready := true;
       vstopped := false;
       vchallenges := generateChallenges random;
       vindex := 0;
       vtime := now;
       vprocessing := false;
       vlatch := false;
       vtimers := settleTimers w;
       vlog := callbackLog w
               ++ [onChallengeChanged (nth_error (generateChallenges random) 0)] |}.
Proof.
  intros Hr; cbn; unfold start; rewrite Hr; cbn [negb].
  rewrite (view_same _ _ (detectionLoop_same _ _ _) (detectionLoop_isStopped _ _ _)).
  destruct (detectionLoopId _) as [[|n]|]; cbn; unfold view; cbn; now rewrite Hr.
Qed.

Lemma rule_start_unready w now random video canvas readyState :
  isReady w = false ->
  step w (Start now random video canvas readyState) = w.
Proof. intros Hr; cbn; unfold start; now rewrite Hr. Qed.

Lemma rule_stop w :
  view (step w Stop)
  = {| vconfig := config w;
       vready := isReady w;
       vstopped := true;
       vchallenges := challenges w;
       vindex := currentChallengeIndex w;
       vtime := lastChallengeTime w;
       vprocessing := isChallengeProcessing w;
       vlatch := hasDetectedOpenEyes w;
       vtimers := settleTimers w;
       vlog := callbackLog w |}.
Proof.
  cbn; now rewrite (view_of_same _ _ (stop_same w)), stop_isStopped.
Qed.

Lemma rule_frame w id now readyState :
  view (step w (AnimationFrame id now readyState)) = view w.
Proof.
  cbn; destruct (existsb _ _); [|reflexivity].
  now rewrite (view_same _ _ (detectionLoop_same _ _ _)
                 (detectionLoop_isStopped _ _ _)).
Qed.

Lemma rule_resume w : view (step w SendResolved) = view w.
Proof. cbn; now destruct (awaitingSend w). Qed.

Lemma rule_results_stopped w now faces :
  isStopped w = true -> step w (FaceMeshResults now faces) = w.
Proof. intros Hs; cbn; unfold onFaceMeshResults; now rewrite Hs. Qed.

Lemma failChallenge_view code w :
  view (failChallenge code w)
  = {| vconfig := config w;
       vready := isReady w;
       vstopped := true;
       vchallenges := challenges w;
       vindex := currentChallengeIndex w;
       vtime := lastChallengeTime w;
       vprocessing := isChallengeProcessing w;
       vlatch := hasDetectedOpenEyes w;
       vtimers := settleTimers w;
       vlog := callbackLog w ++ [onFailure code] |}.
Proof.
  pose proof (view_of_same _ _ (stop_same w)) as H.
  rewrite stop_isStopped in H.
  unfold failChallenge, emit, view in *; cbn.
  injection H; intros; congruence.
Qed.

Lemma rule_noFace w now faces :
  isStopped w = false -> noFace faces = true ->
  view (step w (FaceMeshResults now faces))
  = {| vconfig := config w;
       vready := isReady w;
       vstopped := timedOut now w;
       vchallenges := challenges w;
       vindex := currentChallengeIndex w;
       vtime := lastChallengeTime w;
       vprocessing := isChallengeProcessing w;
       vlatch := false;
       vtimers := settleTimers w;
       vlog := callbackLog w
               ++ (if timedOut now w then [onFailure FACE_NOT_FOUND] else []) |}.
Proof.
  intros Hs Hf; cbn; unfold onFaceMeshResults; rewrite Hs.
  destruct faces as [[|? ?]|]; try discriminate Hf;
    cbn [drawDebugOverlay lastChallengeTime config set_hasDetectedOpenEyes];
    change (now - lastChallengeTime w >? challengeTimeout (config w))
      with (timedOut now w);
    destruct (timedOut now w);
    try (rewrite failChallenge_view; reflexivity);
    unfold view; cbn; now rewrite app_nil_r, Hs.
Qed.

Lemma rule_face_settling w now landmarks others :
  isStopped w = false -> isChallengeProcessing w = true ->
  view (step w (FaceMeshResults now (Some (landmarks :: others)))) = view w.
Proof.
  intros Hs Hp; cbn; unfold onFaceMeshResults; rewrite Hs.
  pose proof (drawDebugOverlay_same (Some (landmarks :: others)) w) as Hd.
  unfold processChallenge; rewrite (same_processing _ _ Hd), Hp.
  apply view_same; [assumption|apply drawDebugOverlay_isStopped].
Qed.

Lemma rule_face w now landmarks others :
  isStopped w = false -> isChallengeProcessing w = false ->
  let passed := challengePassed landmarks w in
  let late := negb passed && timedOut now w in
  view (step w (FaceMeshResults now (Some (landmarks :: others))))
  = {| vconfig := config w;
       vready := isReady w;
       vstopped := late;
       vchallenges := challenges w;
       vindex := currentChallengeIndex w;
       vtime := lastChallengeTime w;
       vprocessing := passed;
       vlatch := latchAfter landmarks w;
       vtimers := if passed then S (settleTimers w) else settleTimers w;
       vlog := callbackLog w
               ++ onProgress (progressOf landmarks w) (rawValueOf landmarks w)
                  :: (if late then [onFailure CHALLENGE_TIMEOUT] else []) |}.
Proof.
  intros Hs Hp passed late; subst passed late.
  cbn; unfold onFaceMeshResults; rewrite Hs.
  pose proof (drawDebugOverlay_same (Some (landmarks :: others)) w) as Hd.
  pose proof (drawDebugOverlay_isStopped (Some (landmarks :: others)) w) as Hds.
  set (w0 := drawDebugOverlay _ w) in *.
  unfold processChallenge; rewrite (same_processing _ _ Hd), Hp.
  rewrite <- (challengePassed_same landmarks _ _ Hd).
  destruct (evaluate_congr landmarks _ _ Hd) as (<- & <- & <-).
  unfold timedOut.
  destruct Hd as (Hc & Hr & Hch & Hi & Hl & Hp0 & _ & Ht & Hlog).
  rewrite <- Hc, <- Hr, <- Hch, <- Hi, <- Hl, <- Ht, <- Hlog.
  pose proof (evaluate_same landmarks w0) as He.
  unfold challengePassed, latchAfter, progressOf, rawValueOf.
  destruct (evaluate landmarks w0) as [[[w1 passed] progress] rawValue].
  destruct He as (Hc1 & Hs1 & Hr1 & Hch1 & Hi1 & Hl1 & Hp1 & Ht1 & Hlog1).
  destruct passed; cbn [negb andb].
  - unfold view; cbn.
    now rewrite Hc1, Hs1, Hr1, Hch1, Hi1, Hl1, Ht1, Hlog1, Hds, Hs.
  - cbn [emit lastChallengeTime config set_callbackLog]; rewrite Hl1, Hc1.
    destruct (_ >? _).
    + rewrite failChallenge_view; cbn.
      rewrite Hc1, Hr1, Hch1, Hi1, Hl1, Hp1, Ht1, Hlog1, <- app_assoc.
      now rewrite Hp0, Hp.
    + unfold view; cbn.
      rewrite Hc1, Hs1, Hr1, Hch1, Hi1, Hl1, Hp1, Ht1, Hlog1, Hds, Hs.
      now rewrite Hp0, Hp.
Qed.

Lemma rule_timer_idle w now prediction :
  settleTimers w = O -> step w (SettleTimeout now prediction) = w.
Proof. intros Ht; cbn; now rewrite Ht. Qed.

Lemma rule_timer_next w now prediction n :
  settleTimers w = S n ->
  (S (currentChallengeIndex w) < length (challenges w))%nat ->
  view (step w (SettleTimeout now prediction))
  = {| vconfig := config w;
       vready := isReady w;
       vstopped := isStopped w;
       vchallenges := challenges w;
       vindex := S (currentChallengeIndex w);
       vtime := now;
       vprocessing := false;
       vlatch := false;
       vtimers := n;
       vlog := callbackLog w
               ++ [onChallengeChanged
                     (nth_error (challenges w) (S (currentChallengeIndex w)))] |}.
Proof.
  intros Ht Hi; cbn; rewrite Ht; unfold moveToNextChallenge; cbn.
  now rewrite (proj2 (Nat.leb_gt _ _) Hi).
Qed.

Lemma rule_timer_complete w now prediction n :
  settleTimers w = S n ->
  (length (challenges w) <= S (currentChallengeIndex w))%nat ->
  view (step w (SettleTimeout now prediction))
  = {| vconfig := config w;
       vready := isReady w;
       vstopped := true;
       vchallenges := challenges w;
       vindex := S (currentChallengeIndex w);
       vtime := lastChallengeTime w;
       vprocessing := isChallengeProcessing w;
       vlatch := false;
       vtimers := n;
       vlog := callbackLog w
               ++ [onChallengeChanged (Some PROCESSING);
                   match prediction with
                   | Some predictionTensor => onSuccess (normalize predictionTensor)
                   | None => onFailure RECOGNITION_FAILED
                   end] |}.
Proof.
  intros Ht Hi; cbn; rewrite Ht; unfold moveToNextChallenge; cbn.
  rewrite (proj2 (Nat.leb_le _ _) Hi); unfold completeLiveness.
  set (w1 := set_hasDetectedOpenEyes _ _).
  pose proof (view_of_same _ _ (stop_same w1)) as H.
  rewrite stop_isStopped in H.
  destruct prediction as [raw|].
  - unfold emit, view in *; cbn in *; injection H; intros.
    rewrite <- app_assoc; cbn; congruence.
  - rewrite failChallenge_view; cbn.
    unfold view in H; injection H; intros.
    rewrite <- app_assoc; cbn; congruence.
Qed.

Lemma assess_spec landmarks w :
  assess (view w) landmarks
  = (latchAfter landmarks w, challengePassed landmarks w,
     progressOf landmarks w, rawValueOf landmarks w).
Proof.
  unfold assess, latchAfter, challengePassed, progressOf, rawValueOf, evaluate,
    rawEAR; cbn [view vchallenges vindex vconfig vlatch].
  destruct (nth_error _ _) as [[| | |]|]; try reflexivity.
  - destruct (_ >? OPEN_THRESHOLD); reflexivity.
  - destruct (_ >? _); reflexivity.
  - destruct (_ <? _); reflexivity.
Qed.

(** The engine and the state machine move together. *)
Lemma simulation w i : view (step w i) = vstep (view w) i.
Proof.
  destruct i as [ok|now random video canvas rs| |id now rs| |now faces|now pred].
  - apply rule_load.
  - cbn [vstep view vready]; destruct (isReady w) eqn:Hr.
    + now rewrite rule_start.
    + now rewrite rule_start_unready.
  - apply rule_stop.
  - apply rule_frame.
  - apply rule_resume.
  - cbn [vstep view vstopped]; destruct (isStopped w) eqn:Hs.
    + now rewrite rule_results_stopped.
    + destruct faces as [[|landmarks others]|]; try (now rewrite rule_noFace).
      cbn [view vprocessing]; destruct (isChallengeProcessing w) eqn:Hp.
      * now rewrite rule_face_settling.
      * rewrite rule_face by assumption.
        change (assess _ landmarks) with (assess (view w) landmarks).
        now rewrite assess_spec.
  - cbn [vstep view vtimers]; destruct (settleTimers w) as [|n] eqn:Ht.
    + now rewrite rule_timer_idle.
    + cbn [vchallenges vindex]; destruct (_ <=? _)%nat eqn:Hi.
      * apply Nat.leb_le in Hi; now rewrite (rule_timer_complete _ _ _ n).
      * apply Nat.leb_gt in Hi; now rewrite (rule_timer_next _ _ _ n).
Qed.

Lemma simulation_run w inputs : view (run w inputs) = vrun (view w) inputs.
Proof.
  unfold run, vrun; revert w.
  induction inputs as [|i l IH]; intros w; [reflexivity|].
  cbn [fold_left]; rewrite IH, simulation; reflexivity.
Qed.

End Rules.

(** ** Running the fixtures *)

Section Evaluation.

Import Engine Session.

Lemma keepOrder_sequence :
  generateChallenges keepOrder = [BLINK; TURN_LEFT; TURN_RIGHT].
Proof.
  rewrite generateChallenges_choice; unfold Randomizer.choice_of, keepOrder.
  rewrite gtb_true by lra.
  rewrite (proj2 (floor_index_cell 0.9 3 2 ltac:(lia) ltac:(lra)))
    by (simpl; lra).
  rewrite (proj2 (floor_index_cell 0.9 2 1 ltac:(lia) ltac:(lra)))
    by (simpl; lra).
  reflexivity.
Qed.

Lemma rawEAR_eyesOpen : rawEAR eyesOpen = 0.35.
Proof. apply face_rawValue; lra. Qed.

Lemma rawEAR_eyesClosed : rawEAR eyesClosed = 0.10.
Proof. apply face_rawValue; lra. Qed.

Lemma headTurn_turnedLeft : Utils.calculateHeadTurnV2 turnedLeft = 0.6.
Proof. unfold turnedLeft; rewrite (face_headTurn _ _ _ 1) by lra; lra. Qed.

Lemma headTurn_turnedRight : Utils.calculateHeadTurnV2 turnedRight = -0.6.
Proof. unfold turnedRight; rewrite (face_headTurn _ _ _ 1) by lra; lra. Qed.

Lemma vrun_cons v i l : vrun v (i :: l) = vrun (vstep v i) l.
Proof. reflexivity. Qed.

Lemma vrun_nil v : vrun v [] = v.
Proof. reflexivity. Qed.

Lemma run_app w l1 l2 : run w (l1 ++ l2) = run (run w l1) l2.
Proof. apply fold_left_app. Qed.

(** The fields of a world, read off its view. *)
Lemma timers_view w : settleTimers w = vtimers (view w).
Proof. reflexivity. Qed.

Lemma index_view w : currentChallengeIndex w = vindex (view w).
Proof. reflexivity. Qed.

Lemma challenges_view w : challenges w = vchallenges (view w).
Proof. reflexivity. Qed.

Lemma stopped_view w : isStopped w = vstopped (view w).
Proof. reflexivity. Qed.

Lemma processing_view w : isChallengeProcessing w = vprocessing (view w).
Proof. reflexivity. Qed.

Lemma latch_view w : hasDetectedOpenEyes w = vlatch (view w).
Proof. reflexivity. Qed.

Lemma log_view w : callbackLog w = vlog (view w).
Proof. reflexivity. Qed.

Lemma time_view w : lastChallengeTime w = vtime (view w).
Proof. reflexivity. Qed.

Lemma config_view w : config w = vconfig (view w).
Proof. reflexivity. Qed.

Lemma view_loaded cfg :
  view (loaded cfg)
  = {| vconfig := cfg; vready := true; vstopped := true; vchallenges := [];
       vindex := 0; vtime := 0; vprocessing := false; vlatch := false;
       vtimers := 0; vlog := [onReady] |}.
Proof. reflexivity. Qed.

End Evaluation.

(** One step of the state machine on a concrete view: unfold, replace
    the metrics of the fixtures by their values, decide the
    comparisons. *)
Ltac vnorm :=
  cbv [Session.vstep Session.assess Session.vtimedOut
       Session.vconfig Session.vready Session.vstopped Session.vchallenges
       Session.vindex Session.vtime Session.vprocessing Session.vlatch
       Session.vtimers Session.vlog
       Engine.blinkEARThreshold Engine.headTurnThreshold
       Engine.challengeTimeout Engine.targetFPS Engine.DEFAULT_CONFIG
       Engine.OPEN_THRESHOLD
       app nth_error length Nat.leb negb orb andb].

Ltac decide_comparisons :=
  repeat first [ rewrite gtb_true by lra | rewrite gtb_false by lra
               | rewrite ltb_true by lra | rewrite ltb_false by lra ].

Ltac vgo :=
  rewrite vrun_cons; vnorm;
  rewrite ?keepOrder_sequence, ?rawEAR_eyesOpen, ?rawEAR_eyesClosed,
    ?headTurn_turnedLeft, ?headTurn_turnedRight;
  decide_comparisons; vnorm.

Section Sessions.

Import Engine Session.

Lemma view_challengesPassed :
  view (run (loaded DEFAULT_CONFIG) challengesPassed)
  = {| vconfig := DEFAULT_CONFIG;
       vready := true;
       vstopped := false;
       vchallenges := [BLINK; TURN_LEFT; TURN_RIGHT];
       vindex := 2;
       vtime := 1810;
       vprocessing := true;
       vlatch := false;
       vtimers := 1;
       vlog := [onReady;
                onChallengeChanged (Some BLINK);
                onProgress (Rmax 0 0) (Some 0.35);
                onProgress (Rmax 0 0) (Some 0.10);
                onChallengeChanged (Some TURN_LEFT);
                onProgress (Rmax 0 1) (Some 0.6);
                onChallengeChanged (Some TURN_RIGHT);
                onProgress (Rmax 0 1) (Some (-0.6))] |}.
Proof.
  rewrite simulation_run, view_loaded.
  unfold challengesPassed, blinkFirst, threePasses, twoPasses; cbn [app].
  do 14 vgo.
  rewrite vrun_nil.
  rewrite (Rmin_left 0 1), (Rmin_left 1 1) by lra.
  reflexivity.
Qed.

Lemma view_passingSession prediction :
  view (run (loaded DEFAULT_CONFIG) (passingSession prediction))
  = {| vconfig := DEFAULT_CONFIG;
       vready := true;
       vstopped := true;
       vchallenges := [BLINK; TURN_LEFT; TURN_RIGHT];
       vindex := 3;
       vtime := 1810;
       vprocessing := true;
       vlatch := false;
       vtimers := 0;
       vlog := [onReady;
                onChallengeChanged (Some BLINK);
                onProgress (Rmax 0 0) (Some 0.35);
                onProgress (Rmax 0 0) (Some 0.10);
                onChallengeChanged (Some TURN_LEFT);
                onProgress (Rmax 0 1) (Some 0.6);
                onChallengeChanged (Some TURN_RIGHT);
                onProgress (Rmax 0 1) (Some (-0.6));
                onChallengeChanged (Some PROCESSING);
                onSuccess (normalize prediction)] |}.
Proof.
  unfold passingSession, completion.
  rewrite app_assoc; fold challengesPassed.
  rewrite run_app, simulation_run, view_challengesPassed.
  vgo; reflexivity.
Qed.

End Sessions.

(** ** The descriptor *)

Section Descriptor.

Import Engine Session.

Lemma dot_scaled v n :
  n <> 0 ->
  Vec.dot (map (fun x => x / n) v) (map (fun x => x / n) v)
  = Vec.dot v v / (n * n).
Proof.
  intros Hn; induction v as [|u v IH]; simpl; [field; assumption|].
  rewrite IH; field; assumption.
Qed.

Lemma normalize_length prediction :
  length (normalize prediction) = length prediction.
Proof. unfold normalize; destruct (_ >? _); [apply length_map | reflexivity]. Qed.

Lemma normalize_unit prediction :
  Vec.norm prediction > 1e-6 -> Vec.unit (normalize prediction).
Proof.
  intros Hn; unfold normalize; rewrite gtb_true by assumption.
  assert (H0 : Vec.norm prediction > 0) by lra.
  unfold Vec.unit, Vec.norm at 1; rewrite dot_scaled by lra.
  rewrite <- norm_sqr.
  replace (_ / _) with 1 by (field; lra).
  apply sqrt_1.
Qed.

Lemma norm_zeros n : Vec.norm (repeat 0 n) = 0.
Proof.
  unfold Vec.norm; replace (Vec.dot _ _) with 0; [apply sqrt_0|].
  induction n as [|n IH]; simpl; [reflexivity | rewrite <- IH; ring].
Qed.

Lemma normalize_zeros n : normalize (repeat 0 n) = repeat 0 n.
Proof. unfold normalize; rewrite norm_zeros, gtb_false by lra; reflexivity. Qed.

End Descriptor.

(** C6. When the last settle timer fires and the recognition model
    returns an embedding, the engine emits the challenge PROCESSING and
    then success, whose descriptor is the embedding divided by its
    Euclidean norm when that norm exceeds 1e-6 and the embedding itself
    otherwise: a near-zero norm is no error. *)
Theorem descriptor_normalisation (w : Engine.World) (now : R) (prediction : list R) :
  (0 < Engine.settleTimers w)%nat ->
  (length (Engine.challenges w) <= S (Engine.currentChallengeIndex w))%nat ->
  let w' := Engine.step w (Engine.SettleTimeout now (Some prediction)) in
  let norm := Vec.norm prediction in
  exists descriptor,
    Session.eventsSince w w'
    = [SDK.challenge (Some Engine.PROCESSING) "Processing...";
       SDK.success descriptor] /\
    (norm > 1e-6 -> descriptor = map (fun v => v / norm) prediction) /\
    (~ norm > 1e-6 -> descriptor = prediction).
Proof.
  intros Ht Hi w' norm; subst w' norm.
  destruct (Engine.settleTimers w) as [|n] eqn:Hn; [lia|].
  exists (Engine.normalize prediction); split; [|split].
  - pose proof (rule_timer_complete w now (Some prediction) n Hn Hi) as H.
    apply (f_equal Session.vlog) in H; cbn [Session.vlog Session.view] in H.
    unfold Session.eventsSince; now rewrite (since_app _ _ _ H).
  - intros H; unfold Engine.normalize; now rewrite gtb_true.
  - intros H; unfold Engine.normalize; now rewrite gtb_false.
Qed.

Lemma descriptor_normalisation_witness :
  exists descriptor,
    Session.eventsSince
      (Engine.run (Fixture.loaded Engine.DEFAULT_CONFIG) Fixture.challengesPassed)
      (Engine.step
         (Engine.run (Fixture.loaded Engine.DEFAULT_CONFIG) Fixture.challengesPassed)
         (Engine.SettleTimeout 2210 (Some Fixture.threeFour)))
    = [SDK.challenge (Some Engine.PROCESSING) "Processing...";
       SDK.success descriptor] /\
    (Vec.norm Fixture.threeFour > 1e-6 ->
     descriptor = map (fun v => v / Vec.norm Fixture.threeFour) Fixture.threeFour) /\
    (~ Vec.norm Fixture.threeFour > 1e-6 -> descriptor = Fixture.threeFour).
Proof.
  apply (descriptor_normalisation
           (Engine.run (Fixture.loaded Engine.DEFAULT_CONFIG) Fixture.challengesPassed)
           2210 Fixture.threeFour).
  - rewrite timers_view, view_challengesPassed; simpl; lia.
  - rewrite challenges_view, index_view, view_challengesPassed; simpl; lia.
Defined.

(** ** The frame scheduler *)

Section Scheduler.

Import Engine Session.



(** On a non-negative dividend and a positive divisor the remainder is
    the one of the floored division: it lies in [0, b). *)
Lemma rem_bounds a b : 0 <= a -> 0 < b -> 0 <= Num.rem a b < b.
Proof.
  intros Ha Hb; unfold Num.rem, Num.trunc.
  assert (Hq : 0 <= a / b) by (apply Rle_mult_inv_pos; lra).
  destruct (Rle_dec 0 (a / b)) as [_|N]; [|contradiction].
  pose proof (Zfloor_bound (a / b)) as [Hl Hu].
  apply (Rmult_le_compat_r b) in Hl; [|lra].
  apply (Rmult_lt_compat_r b) in Hu; [|lra].
  replace (a / b * b) with a in Hl, Hu by (field; lra).
  lra.
Qed.

End Scheduler.


Section SchedulerRuns.

Import Engine Session.

Lemma run_cons w i l : run w (i :: l) = run (step w i) l.
Proof. reflexivity. Qed.

Lemma run_nil w : run w [] = w.
Proof. reflexivity. Qed.

Lemma run_one w i : run w [i] = step w i.
Proof. reflexivity. Qed.


End SchedulerRuns.

(** ** Rounding to double precision *)

Section Rounding.

Import Binary64.

Lemma ln2_pos : 0 < ln 2.
Proof. pose proof ln_lt_2; lra. Qed.

Lemma ln_pow2 e : ln (powerRZ 2 e) = IZR e * ln 2.
Proof.
  rewrite powerRZ_Rpower by lra; unfold Rpower; apply ln_exp.
Qed.

Lemma pow2_pos e : 0 < powerRZ 2 e.
Proof. apply powerRZ_lt; lra. Qed.

Lemma ln_le x y : 0 < x -> x <= y -> ln x <= ln y.
Proof.
  intros Hx [H| ->]; [left; now apply ln_increasing|right; reflexivity].
Qed.

(** The exponent is the one of the binade the number lies in. *)
Lemma exponent_unique x e :
  powerRZ 2 e <= Rabs x < powerRZ 2 (e + 1) -> exponent x = e.
Proof.
  intros [Hl Hu]; unfold exponent.
  pose proof ln2_pos as L; pose proof (pow2_pos e) as P.
  apply Zfloor_eq.
  assert (H1 : IZR e * ln 2 <= ln (Rabs x))
    by (rewrite <- ln_pow2; apply ln_le; assumption).
  assert (H2 : ln (Rabs x) < IZR (e + 1) * ln 2)
    by (rewrite <- ln_pow2; apply ln_increasing; lra).
  rewrite plus_IZR in H2.
  split.
  - apply (Rmult_le_reg_r (ln 2)); [assumption|].
    replace (ln (Rabs x) / ln 2 * ln 2) with (ln (Rabs x)) by (field; lra); lra.
  - apply (Rmult_lt_reg_r (ln 2)); [assumption|].
    replace (ln (Rabs x) / ln 2 * ln 2) with (ln (Rabs x)) by (field; lra); lra.
Qed.

Lemma exponent_bounds x :
  x <> 0 -> powerRZ 2 (exponent x) <= Rabs x < powerRZ 2 (exponent x + 1).
Proof.
  intros Hx; unfold exponent.
  pose proof ln2_pos as L.
  assert (A : 0 < Rabs x) by now apply Rabs_pos_lt.
  set (t := ln (Rabs x) / ln 2).
  pose proof (Zfloor_bound t) as [Hl Hu].
  assert (E : Rabs x = exp (t * ln 2)).
  { unfold t; replace (ln (Rabs x) / ln 2 * ln 2) with (ln (Rabs x))
      by (field; lra).
    symmetry; now apply exp_ln. }
  rewrite !powerRZ_Rpower by lra; unfold Rpower; rewrite E, plus_IZR.
  split.
  - destruct Hl as [Hl|Hl]; [left; apply exp_increasing; nra|right; now rewrite Hl].
  - apply exp_increasing; nra.
Qed.

Lemma nearest_close y n : - / 2 < y - IZR n < / 2 -> nearest y = n.
Proof.
  intros [Hl Hu]; unfold nearest.
  pose proof (Zfloor_bound y) as [Fl Fu].
  destruct (Rle_dec (IZR n) y) as [Hn|Hn].
  - assert (E : Zfloor y = n) by (apply Zfloor_eq; lra).
    rewrite E; destruct (Rlt_dec _ _); [reflexivity|lra].
  - assert (E : Zfloor y = (n - 1)%Z)
      by (apply Zfloor_eq; rewrite minus_IZR; lra).
    rewrite E, minus_IZR.
    destruct (Rlt_dec _ _); [lra|].
    destruct (Rlt_dec _ _); [lia|lra].
Qed.

Lemma nearest_IZR n : nearest (IZR n) = n.
Proof. apply nearest_close; lra. Qed.

Lemma pow2_split a b : powerRZ 2 (a + b) = powerRZ 2 a * powerRZ 2 b.
Proof. apply powerRZ_add; lra. Qed.

Lemma pow2_inv a : powerRZ 2 (- a) = / powerRZ 2 a.
Proof.
  apply (Rmult_eq_reg_r (powerRZ 2 a)); [|pose proof (pow2_pos a); lra].
  rewrite <- pow2_split, Z.add_opp_diag_l, Rinv_l; [reflexivity|].
  pose proof (pow2_pos a); lra.
Qed.

Lemma pow2_le a b : (a <= b)%Z -> powerRZ 2 a <= powerRZ 2 b.
Proof.
  intros H; rewrite !powerRZ_Rpower by lra.
  destruct (Z.eq_dec a b) as [->|N]; [lra|].
  left; apply Rpower_lt; [lra|apply IZR_lt; lia].
Qed.

Lemma pow2_lt_inv a b : powerRZ 2 a < powerRZ 2 b -> (a < b)%Z.
Proof.
  intros H; destruct (Z_lt_le_dec a b) as [L|L]; [assumption|].
  apply pow2_le in L; lra.
Qed.

Lemma pow2_IZR k : (0 <= k)%Z -> powerRZ 2 k = IZR (2 ^ k).
Proof.
  intros H; destruct k as [|p|p]; [reflexivity| |lia].
  symmetry; apply (Zpower_pos_powerRZ 2 p).
Qed.

(** A number of a normal binade is rounded at 52 places below its
    exponent. *)
Lemma round_binade x e :
  (-1022 <= e)%Z -> powerRZ 2 e <= Rabs x < powerRZ 2 (e + 1) ->
  round x = IZR (nearest (x * powerRZ 2 (52 - e))) * powerRZ 2 (e - 52).
Proof.
  intros He Hx; unfold round, ulp.
  rewrite (exponent_unique x e Hx), Z.max_l by lia.
  replace (52 - e)%Z with (- (e - 52))%Z by lia.
  now rewrite pow2_inv.
Qed.

(** What [round_binade] comes to for a positive number, once the
    nearest integer is known. *)
Lemma round_eval x e n :
  (-1022 <= e)%Z -> powerRZ 2 e <= x < powerRZ 2 (e + 1) ->
  - / 2 < x * powerRZ 2 (52 - e) - IZR n < / 2 ->
  round x = IZR n * powerRZ 2 (e - 52).
Proof.
  intros He Hx Hn.
  assert (P : 0 < x) by (pose proof (pow2_pos e); lra).
  rewrite (round_binade x e He) by (rewrite Rabs_pos_eq; lra).
  now rewrite (nearest_close _ n Hn).
Qed.

Lemma round_0 : round 0 = 0.
Proof.
  unfold round; replace (0 / ulp 0) with 0 by (unfold Rdiv; ring).
  rewrite nearest_IZR; ring.
Qed.

(** The doubles are left as they are: a double is [m * 2^k] with
    [|m| < 2^53] and [k >= -1074]. *)
Lemma round_double m k :
  (Z.abs m < 2 ^ 53)%Z -> (-1074 <= k)%Z ->
  round (IZR m * powerRZ 2 k) = IZR m * powerRZ 2 k.
Proof.
  intros Hm Hk.
  destruct (Z.eq_dec m 0) as [->|N].
  { rewrite Rmult_0_l; apply round_0. }
  set (x := IZR m * powerRZ 2 k).
  pose proof (pow2_pos k) as Pk.
  assert (Hx : x <> 0).
  { unfold x; apply Rmult_integral_contrapositive_currified; [|lra].
    intros H; apply eq_IZR in H; contradiction. }
  destruct (exponent_bounds x Hx) as [Bl Bu].
  assert (Ha : Rabs x < powerRZ 2 (53 + k)).
  { unfold x; rewrite Rabs_mult, (Rabs_pos_eq (powerRZ 2 k)), pow2_split by lra.
    apply Rmult_lt_compat_r; [assumption|].
    rewrite <- abs_IZR, (pow2_IZR 53) by lia; now apply IZR_lt. }
  assert (He : (exponent x < 53 + k)%Z) by (apply pow2_lt_inv; lra).
  unfold round, ulp.
  set (q := Z.max (exponent x - 52) (-1074)).
  assert (Hq : (q <= k)%Z) by (unfold q; lia).
  assert (E : x / powerRZ 2 q = IZR (m * 2 ^ (k - q))).
  { unfold x; rewrite mult_IZR, <- pow2_IZR by lia.
    replace (k - q)%Z with (k + - q)%Z by lia.
    rewrite pow2_split, pow2_inv; unfold Rdiv; ring. }
  rewrite E, nearest_IZR, mult_IZR, <- pow2_IZR by lia.
  unfold x; rewrite Rmult_assoc, <- pow2_split.
  do 2 f_equal; lia.
Qed.

Lemma round_IZR m : (Z.abs m < 2 ^ 53)%Z -> round (IZR m) = IZR m.
Proof.
  intros H; pose proof (round_double m 0 H ltac:(lia)) as E.
  now rewrite powerRZ_O, Rmult_1_r in E.
Qed.

Lemma floor_quotient a b :
  (0 < b)%Z -> Zfloor (IZR a / IZR b) = (a / b)%Z.
Proof.
  intros Hb; apply Zfloor_eq.
  pose proof (Z.div_mod a b ltac:(lia)) as E.
  pose proof (Z.mod_pos_bound a b Hb) as [M0 M1].
  assert (B : 0 < IZR b) by now apply IZR_lt.
  apply IZR_le in M0; apply IZR_lt in M1.
  assert (Er : IZR a = IZR b * IZR (a / b) + IZR (a mod b))
    by (rewrite <- mult_IZR, <- plus_IZR; now f_equal).
  split.
  - apply (Rmult_le_reg_r (IZR b)); [assumption|].
    replace (IZR a / IZR b * IZR b) with (IZR a) by (field; lra); lra.
  - apply (Rmult_lt_reg_r (IZR b)); [assumption|].
    replace (IZR a / IZR b * IZR b) with (IZR a) by (field; lra); lra.
Qed.

(** The remainder needs no rounding: the remainder of a double that is
    not negative by a positive double is a double. *)
Lemma rem_double ma ka mb kb :
  (0 <= ma < 2 ^ 53)%Z -> (0 < mb < 2 ^ 53)%Z ->
  (-1074 <= ka)%Z -> (-1074 <= kb)%Z ->
  round (rem (IZR ma * powerRZ 2 ka) (IZR mb * powerRZ 2 kb))
  = rem (IZR ma * powerRZ 2 ka) (IZR mb * powerRZ 2 kb).
Proof.
  intros Ha Hb Hka Hkb.
  set (k := Z.min ka kb).
  set (A := (ma * 2 ^ (ka - k))%Z); set (B := (mb * 2 ^ (kb - k))%Z).
  pose proof (pow2_pos k) as Pk.
  assert (Ea : IZR ma * powerRZ 2 ka = IZR A * powerRZ 2 k).
  { unfold A; rewrite mult_IZR, <- pow2_IZR by (unfold k; lia).
    rewrite Rmult_assoc, <- pow2_split; do 2 f_equal; lia. }
  assert (Eb : IZR mb * powerRZ 2 kb = IZR B * powerRZ 2 k).
  { unfold B; rewrite mult_IZR, <- pow2_IZR by (unfold k; lia).
    rewrite Rmult_assoc, <- pow2_split; do 2 f_equal; lia. }
  assert (HA : (0 <= A)%Z) by (unfold A; apply Z.mul_nonneg_nonneg; lia).
  assert (HB : (0 < B)%Z)
    by (unfold B; apply Z.mul_pos_pos; [lia|apply Z.pow_pos_nonneg; unfold k; lia]).
  assert (B0 : 0 < IZR B) by now apply IZR_lt.
  assert (E : rem (IZR ma * powerRZ 2 ka) (IZR mb * powerRZ 2 kb)
              = IZR (A mod B) * powerRZ 2 k).
  { rewrite Ea, Eb; unfold rem, Num.rem, Num.trunc.
    replace (IZR A * powerRZ 2 k / (IZR B * powerRZ 2 k)) with (IZR A / IZR B)
      by (field; lra).
    assert (Q : 0 <= IZR A / IZR B)
      by (apply Rle_mult_inv_pos; [now apply IZR_le|assumption]).
    destruct (Rle_dec 0 (IZR A / IZR B)) as [_|N]; [|contradiction].
    rewrite (floor_quotient A B HB).
    rewrite (Z.mod_eq A B) by lia.
    rewrite minus_IZR, mult_IZR; ring. }
  rewrite E; apply round_double; [|unfold k; lia].
  pose proof (Z.mod_pos_bound A B HB) as [M0 M1].
  pose proof (Z.mod_le A B HA HB) as M2.
  rewrite Z.abs_eq by assumption.
  destruct (Z.le_ge_cases ka kb) as [L|L].
  - assert (A = ma) as Em
      by (unfold A, k; rewrite Z.min_l, Z.sub_diag by assumption; lia).
    lia.
  - assert (B = mb) as Em
      by (unfold B, k; rewrite Z.min_r, Z.sub_diag by assumption; lia).
    lia.
Qed.

End Rounding.

(** ** The frame scheduler in double precision *)

Section Ticks.

Import Engine Binary64.

(** The remainder, once the quotient is known. *)
Lemma rem_eval a b q :
  0 < b -> 0 <= IZR q * b <= a -> a < (IZR q + 1) * b ->
  Num.rem a b = a - b * IZR q.
Proof.
  intros Hb [Hq Hl] Hu; unfold Num.rem, Num.trunc.
  assert (Ha : 0 <= a / b) by (apply Rle_mult_inv_pos; lra).
  destruct (Rle_dec 0 (a / b)) as [_|N]; [|contradiction].
  rewrite (Zfloor_eq q); [reflexivity|].
  split.
  - apply (Rmult_le_reg_r b); [assumption|].
    replace (a / b * b) with a by (field; lra); lra.
  - apply (Rmult_lt_reg_r b); [assumption|].
    replace (a / b * b) with a by (field; lra); lra.
Qed.

(** Where the three operations are exact, the scheduler is the one of
    [Engine]. *)
Lemma detectionLoop_exact now readyState w :
  let elapsed := now - lastFrameTime w in
  let fpsInterval := 1000 / targetFPS (config w) in
  round elapsed = elapsed ->
  round fpsInterval = fpsInterval ->
  round (now - Num.rem elapsed fpsInterval) = now - Num.rem elapsed fpsInterval ->
  FrameScheduler.detectionLoop now readyState w
  = Engine.detectionLoop now readyState w.
Proof.
  cbv zeta; intros He Hi Hr.
  unfold FrameScheduler.detectionLoop, Engine.detectionLoop, sub, div, rem.
  now rewrite He, Hi, Hr.
Qed.

Lemma tick_running now readyState w :
  isStopped w = false -> videoElement w = true -> (2 <= readyState)%nat ->
  FrameScheduler.detectionLoop now readyState w
  = if sub now (lastFrameTime w) >? div 1000 (targetFPS (config w))
    then set_awaitingSend (S (awaitingSend w))
           (set_framesSent (S (framesSent w))
              (set_lastFrameTime
                 (sub now (rem (sub now (lastFrameTime w))
                               (div 1000 (targetFPS (config w))))) w))
    else requestAnimationFrame w.
Proof.
  intros Hs Hv Hr; unfold FrameScheduler.detectionLoop; rewrite Hs, Hv.
  now rewrite (proj2 (Nat.ltb_ge _ _) Hr).
Qed.

Lemma tick_step w id now readyState :
  In id (frameRequests w) ->
  FrameScheduler.step w (AnimationFrame id now readyState)
  = FrameScheduler.detectionLoop now readyState (cancelAnimationFrame id w).
Proof.
  intros Hin; cbn.
  replace (existsb _ _) with true; [reflexivity|].
  symmetry; apply existsb_exists; exists id; split; [assumption|].
  apply Nat.eqb_refl.
Qed.

Lemma ticks_cons w i l :
  FrameScheduler.run w (i :: l) = FrameScheduler.run (FrameScheduler.step w i) l.
Proof. reflexivity. Qed.

Lemma ticks_nil w : FrameScheduler.run w [] = w.
Proof. reflexivity. Qed.

End Ticks.

(** The powers of two, as numerals. *)
Ltac pow2_norm :=
  repeat match goal with
  | |- context [powerRZ 2 ?k] =>
      let k' := eval vm_compute in k in
      match k' with
      | Z0 => replace (powerRZ 2 k) with 1 by reflexivity
      | Zpos ?p =>
          let v := eval vm_compute in (2 ^ k')%Z in
          replace (powerRZ 2 k) with (IZR v)
            by (symmetry; apply (pow2_IZR k'); discriminate)
      | Zneg ?p =>
          let v := eval vm_compute in (2 ^ Zpos p)%Z in
          replace (powerRZ 2 k) with (/ IZR v)
            by (symmetry; etransitivity;
                [ apply (pow2_inv (Zpos p))
                | apply f_equal, (pow2_IZR (Zpos p)); discriminate ])
      end
  end.

(** [round x = n * 2^(e - 52)], for a positive [x] of the binade [e]
    whose nearest multiple is the [n]-th. *)
Ltac round_to e n :=
  rewrite (round_eval _ e n);
  [ | lia | pow2_norm; lra | pow2_norm; lra ];
  pow2_norm.

Section TickRuns.

Import Engine Binary64.

(** The frame interval at 30 and at 40 frames per second. *)
Lemma interval_30 : div 1000 30 = 4691249611844267 / 140737488355328.
Proof. unfold div; round_to 5%Z 4691249611844267%Z; lra. Qed.

Lemma interval_40 : div 1000 40 = 25.
Proof. unfold div; round_to 4%Z 7036874417766400%Z; lra. Qed.

(** At 30 frames per second: [start] when the clock reads 1000. *)
Lemma elapsed_1000 : sub 1000 0 = 1000.
Proof.
  unfold sub; replace (1000 - 0) with 1000 by lra.
  now apply round_IZR.
Qed.

Lemma rem_1000 :
  rem 1000 (4691249611844267 / 140737488355328)
  = 4691249611844257 / 140737488355328.
Proof. unfold rem; rewrite (rem_eval _ _ 29); lra. Qed.

Lemma last_1000 :
  sub 1000 (4691249611844257 / 140737488355328)
  = 8502889921467734 / 8796093022208.
Proof. unfold sub; round_to 9%Z 8502889921467734%Z; lra. Qed.

(** The animation frame when the clock reads 1010. *)
Lemma elapsed_1010 :
  sub 1010 (8502889921467734 / 8796093022208)
  = 381164030962346 / 8796093022208.
Proof. unfold sub; round_to 5%Z 6098624495397536%Z; lra. Qed.

Lemma rem_1010 :
  rem (381164030962346 / 8796093022208)
      (4691249611844267 / 140737488355328)
  = 1407374883553269 / 140737488355328.
Proof. unfold rem; rewrite (rem_eval _ _ 1); lra. Qed.

Lemma last_1010 :
  sub 1010 (1407374883553269 / 140737488355328)
  = 8796093022208001 / 8796093022208.
Proof. unfold sub; round_to 9%Z 8796093022208001%Z; lra. Qed.

(** At 40 frames per second: [start] when the clock reads 1000000,
    and an animation frame 25 ms later. *)
Lemma elapsed_1000000 : sub 1000000 0 = 1000000.
Proof.
  unfold sub; replace (1000000 - 0) with 1000000 by lra.
  now apply round_IZR.
Qed.

Lemma rem_1000000 : rem 1000000 25 = 0.
Proof. unfold rem; rewrite (rem_eval _ _ 40000); lra. Qed.

Lemma elapsed_1000025 : sub 1000025 1000000 = 25.
Proof.
  unfold sub; replace (1000025 - 1000000) with 25 by lra.
  now apply round_IZR.
Qed.

End TickRuns.

Ltac snorm :=
  cbv [FrameScheduler.step FrameScheduler.start FrameScheduler.detectionLoop
       Engine.step Engine.load Engine.stop
       Engine.detectionLoop_resume Engine.emit Engine.requestAnimationFrame
       Engine.new Fixture.loaded
       Engine.config Engine.isReady Engine.videoElement Engine.canvasCtx
       Engine.detectionLoopId Engine.isStopped Engine.challenges
       Engine.currentChallengeIndex Engine.lastChallengeTime
       Engine.isChallengeProcessing Engine.hasDetectedOpenEyes
       Engine.lastFrameTime Engine.frameRequests Engine.nextRequestId
       Engine.awaitingSend Engine.framesSent Engine.settleTimers
       Engine.surfaceDirty Engine.callbackLog
       Engine.set_isReady Engine.set_videoElement Engine.set_canvasCtx
       Engine.set_detectionLoopId Engine.set_isStopped Engine.set_challenges
       Engine.set_currentChallengeIndex Engine.set_lastChallengeTime
       Engine.set_isChallengeProcessing Engine.set_hasDetectedOpenEyes
       Engine.set_lastFrameTime Engine.set_frameRequests
       Engine.set_nextRequestId Engine.set_awaitingSend Engine.set_framesSent
       Engine.set_settleTimers Engine.set_surfaceDirty Engine.set_callbackLog
       Engine.targetFPS Engine.DEFAULT_CONFIG Fixture.fortyFPS
       app nth_error length Nat.leb Nat.ltb negb orb andb existsb Nat.eqb].

Section TickWorlds.

Import Engine Binary64.

Lemma world_startedAt1000 :
  FrameScheduler.run (Fixture.loaded DEFAULT_CONFIG)
    FrameScheduler.startedAt1000
  = {| config := DEFAULT_CONFIG;
       isReady := true;
       videoElement := true;
       canvasCtx := true;
       detectionLoopId := Some 1%nat;
       isStopped := false;
       challenges := [BLINK; TURN_LEFT; TURN_RIGHT];
       currentChallengeIndex := 0;
       lastChallengeTime := 1000;
       isChallengeProcessing := false;
       hasDetectedOpenEyes := false;
       lastFrameTime := 8502889921467734 / 8796093022208;
       frameRequests := [1%nat];
       nextRequestId := 2;
       awaitingSend := 0;
       framesSent := 1;
       settleTimers := 0;
       surfaceDirty := false;
       callbackLog := [onReady; onChallengeChanged (Some BLINK)] |}.
Proof.
  unfold FrameScheduler.startedAt1000; rewrite ticks_cons; snorm.
  rewrite elapsed_1000, interval_30, gtb_true by lra.
  rewrite rem_1000, last_1000.
  rewrite ticks_cons; snorm.
  rewrite ticks_nil, keepOrder_sequence; reflexivity.
Qed.

Lemma world_firstFrameSent64 :
  FrameScheduler.run (Fixture.loaded Fixture.fortyFPS) Fixture.firstFrameSent
  = {| config := Fixture.fortyFPS;
       isReady := true;
       videoElement := true;
       canvasCtx := true;
       detectionLoopId := Some 1%nat;
       isStopped := false;
       challenges := [BLINK; TURN_LEFT; TURN_RIGHT];
       currentChallengeIndex := 0;
       lastChallengeTime := 1000000;
       isChallengeProcessing := false;
       hasDetectedOpenEyes := false;
       lastFrameTime := 1000000;
       frameRequests := [1%nat];
       nextRequestId := 2;
       awaitingSend := 0;
       framesSent := 1;
       settleTimers := 0;
       surfaceDirty := false;
       callbackLog := [onReady; onChallengeChanged (Some BLINK)] |}.
Proof.
  unfold Fixture.firstFrameSent; rewrite ticks_cons; snorm.
  rewrite elapsed_1000000, interval_40, gtb_true by lra.
  rewrite rem_1000000, elapsed_1000000.
  rewrite ticks_cons; snorm.
  rewrite ticks_nil, keepOrder_sequence; reflexivity.
Qed.

End TickWorlds.

(** C4 (as amended). On an animation frame of a running engine whose
    video is ready ([targetFPS] not being 0), a frame is sent to the face
    mesh if and only if the time elapsed since the last one sent is
    strictly greater than [1000 / targetFPS] ms, both as the code
    computes them, in double precision; when it is sent, the last-frame
    time becomes [now - elapsed % fpsInterval], where for a positive
    interval the remainder lies in [[0, fpsInterval)]: a remainder is
    carried over, the time is not reset to [now]. *)
Theorem frame_scheduler (w : Engine.World) (id : nat) (now : R) (readyState : nat) :
  Engine.targetFPS (Engine.config w) <> 0 ->
  In id (Engine.frameRequests w) ->
  Engine.isStopped w = false ->
  Engine.videoElement w = true ->
  (2 <= readyState)%nat ->
  let elapsed := Binary64.sub now (Engine.lastFrameTime w) in
  let fpsInterval := Binary64.div 1000 (Engine.targetFPS (Engine.config w)) in
  let w' := FrameScheduler.step w (Engine.AnimationFrame id now readyState) in
  (elapsed > fpsInterval ->
   Engine.framesSent w' = S (Engine.framesSent w) /\
   Engine.awaitingSend w' = S (Engine.awaitingSend w) /\
   Engine.lastFrameTime w'
   = Binary64.sub now (Binary64.rem elapsed fpsInterval) /\
   (0 < fpsInterval -> 0 <= Binary64.rem elapsed fpsInterval < fpsInterval)) /\
  (~ elapsed > fpsInterval ->
   Engine.framesSent w' = Engine.framesSent w /\
   Engine.awaitingSend w' = Engine.awaitingSend w /\
   Engine.lastFrameTime w' = Engine.lastFrameTime w).
Proof.
  intros _ Hin Hs Hv Hr elapsed fpsInterval w'; subst elapsed fpsInterval w'.
  rewrite tick_step, tick_running by assumption.
  cbn [Engine.cancelAnimationFrame Engine.lastFrameTime Engine.config
       Engine.set_frameRequests Engine.framesSent Engine.awaitingSend].
  split; intros H.
  - rewrite gtb_true by assumption; cbn.
    repeat split; try reflexivity;
      pose proof (rem_bounds
                    (Binary64.sub now (Engine.lastFrameTime w))
                    (Binary64.div 1000 (Engine.targetFPS (Engine.config w)))
                    ltac:(lra) ltac:(assumption));
      unfold Binary64.rem; lra.
  - rewrite gtb_false by assumption; cbn; repeat split; reflexivity.
Qed.

(** At the default of 30 frames per second: [start] when the clock reads
    1000 stores 966.67 (in the code's arithmetic [1000 % (1000 / 30)] is
    33.33, not 0), and the animation frame that runs when the clock
    reads 1010 sends the second frame. *)
Lemma frame_scheduler_witness :
  let w := FrameScheduler.run (Fixture.loaded Engine.DEFAULT_CONFIG)
             FrameScheduler.startedAt1000 in
  let w' := FrameScheduler.step w (Engine.AnimationFrame 1 1010 4) in
  Engine.framesSent w = 1%nat /\
  Engine.lastFrameTime w = 8502889921467734 / 8796093022208 /\
  Binary64.sub 1010 (Engine.lastFrameTime w)
  > Binary64.div 1000 (Engine.targetFPS (Engine.config w)) /\
  Engine.framesSent w' = 2%nat /\
  Engine.lastFrameTime w' = 8796093022208001 / 8796093022208.
Proof.
  cbv zeta.
  assert (E : Binary64.sub 1010
                (Engine.lastFrameTime
                   (FrameScheduler.run (Fixture.loaded Engine.DEFAULT_CONFIG)
                      FrameScheduler.startedAt1000))
              > Binary64.div 1000
                  (Engine.targetFPS
                     (Engine.config
                        (FrameScheduler.run (Fixture.loaded Engine.DEFAULT_CONFIG)
                           FrameScheduler.startedAt1000)))).
  { rewrite world_startedAt1000.
    cbn [Engine.lastFrameTime Engine.config Engine.targetFPS
         Engine.DEFAULT_CONFIG].
    rewrite elapsed_1010, interval_30; lra. }
  destruct (frame_scheduler
              (FrameScheduler.run (Fixture.loaded Engine.DEFAULT_CONFIG)
                 FrameScheduler.startedAt1000)
              1 1010 4) as [Sent _].
  - rewrite world_startedAt1000; simpl; lra.
  - rewrite world_startedAt1000; simpl; auto.
  - rewrite world_startedAt1000; reflexivity.
  - rewrite world_startedAt1000; reflexivity.
  - lia.
  - destruct (Sent E) as (F & _ & L & _).
    rewrite F, L.
    rewrite world_startedAt1000.
    cbn [Engine.lastFrameTime Engine.config Engine.targetFPS
         Engine.DEFAULT_CONFIG Engine.framesSent].
    rewrite elapsed_1010, interval_30, rem_1010, last_1010.
    repeat split; lra.
Defined.

(** C4 as stated fails: with an interval of 25 ms and 25 ms elapsed,
    "at least the interval" holds and no frame is sent. *)
Lemma frame_scheduler_counterexample :
  let w := FrameScheduler.run (Fixture.loaded Fixture.fortyFPS)
             Fixture.firstFrameSent in
  let w' := FrameScheduler.step w (Engine.AnimationFrame 1 1000025 4) in
  Engine.isStopped w = false /\
  Engine.videoElement w = true /\
  In 1%nat (Engine.frameRequests w) /\
  Binary64.sub 1000025 (Engine.lastFrameTime w)
  >= Binary64.div 1000 (Engine.targetFPS (Engine.config w)) /\
  Engine.framesSent w' = Engine.framesSent w /\
  Engine.awaitingSend w' = Engine.awaitingSend w.
Proof.
  cbv zeta; rewrite world_firstFrameSent64.
  split; [reflexivity|split; [reflexivity|split; [simpl; auto|]]].
  cbn [Engine.lastFrameTime Engine.config Engine.targetFPS Fixture.fortyFPS].
  rewrite elapsed_1000025, interval_40.
  split; [lra|].
  rewrite tick_step by (simpl; auto).
  rewrite tick_running by (simpl; auto; lia).
  cbn [Engine.cancelAnimationFrame Engine.lastFrameTime Engine.config
       Engine.set_frameRequests Engine.framesSent Engine.targetFPS
       Fixture.fortyFPS].
  rewrite elapsed_1000025, interval_40, gtb_false by lra.
  split; reflexivity.
Qed.

(** ** The "eyes seen open" flag *)

Section Latch.

Import Engine Session.

Lemma assess_latch v landmarks :
  let '(latch, _, _, _) := assess v landmarks in
  latch = match nth_error (vchallenges v) (vindex v) with
          | Some BLINK => (rawEAR landmarks >? OPEN_THRESHOLD) || vlatch v
          | _ => vlatch v
          end.
Proof. unfold assess; destruct (nth_error _ _) as [[| | |]|]; reflexivity. Qed.

Lemma assess_blink v landmarks :
  nth_error (vchallenges v) (vindex v) = Some BLINK ->
  assess v landmarks
  = ((rawEAR landmarks >? OPEN_THRESHOLD) || vlatch v,
     ((rawEAR landmarks >? OPEN_THRESHOLD) || vlatch v)
     && (rawEAR landmarks <? blinkEARThreshold (vconfig v)),
     Rmax 0 (Rmin 0 1), Some (rawEAR landmarks)).
Proof. intros H; unfold assess; now rewrite H. Qed.

(** An input that resets the flag leaves it unset. *)
Lemma reset_clears w i :
  resetsLatch w i = true -> hasDetectedOpenEyes (step w i) = false.
Proof.
  rewrite latch_view, simulation; unfold resetsLatch.
  destruct i as [ok|now random video canvas rs| |id now rs| |now faces|now pred];
    try discriminate; cbn [vstep view vready vstopped vtimers].
  - now intros ->.
  - destruct (isStopped w); [discriminate|]; cbn.
    destruct faces as [[|? ?]|]; try discriminate; reflexivity.
  - destruct (settleTimers w); [discriminate|intros _].
    now destruct (_ <=? _)%nat.
Qed.

(** Any other input leaves a set flag set. *)
Lemma latch_kept w i :
  resetsLatch w i = false -> hasDetectedOpenEyes w = true ->
  hasDetectedOpenEyes (step w i) = true.
Proof.
  rewrite (latch_view (step w i)), simulation; unfold resetsLatch.
  intros Hr Hl.
  destruct i as [ok|now random video canvas rs| |id now rs| |now faces|now pred];
    cbn [vstep view vready vstopped vtimers vprocessing]; try assumption.
  - now rewrite Hr.
  - destruct (isStopped w); [assumption|].
    destruct faces as [[|landmarks others]|]; try discriminate Hr.
    destruct (isChallengeProcessing w); [assumption|].
    pose proof (assess_latch (view w) landmarks) as Ha.
    destruct (assess _ _) as [[[latch passed] progress] rawValue].
    cbn [vlatch]; rewrite Ha; cbn [view vlatch]; rewrite Hl.
    destruct (nth_error _ _) as [[| | |]|]; try reflexivity.
    apply orb_true_r.
  - destruct (settleTimers w); [assumption|discriminate].
Qed.

(** The flag is set only by a frame that shows open eyes. *)
Lemma latch_set w i :
  hasDetectedOpenEyes w = false -> hasDetectedOpenEyes (step w i) = true ->
  seesOpenEyes w i.
Proof.
  rewrite (latch_view (step w i)), simulation; intros Hl.
  destruct i as [ok|now random video canvas rs| |id now rs| |now faces|now pred];
    cbn [vstep view vready vstopped vtimers vprocessing vlatch];
    try congruence.
  - destruct (isReady w); cbn; congruence.
  - destruct (isStopped w) eqn:Hs; [cbn; congruence|].
    destruct faces as [[|landmarks others]|]; try (cbn; congruence).
    destruct (isChallengeProcessing w) eqn:Hp; [cbn; congruence|].
    pose proof (assess_latch (view w) landmarks) as Ha.
    destruct (assess _ _) as [[[latch passed] progress] rawValue].
    cbn [vlatch]; rewrite Ha; cbn [view vlatch vchallenges vindex]; rewrite Hl.
    unfold seesOpenEyes, awaiting, currentChallenge.
    destruct (nth_error _ _) as [[| | |]|]; try congruence.
    rewrite orb_false_r; intros H; apply gtb_spec in H; auto.
  - destruct (settleTimers w); [cbn; congruence|].
    destruct (_ <=? _)%nat; cbn; congruence.
Qed.

Lemma open_sets w i : seesOpenEyes w i -> hasDetectedOpenEyes (step w i) = true.
Proof.
  rewrite (latch_view (step w i)), simulation.
  destruct i as [ok|now random video canvas rs| |id now rs| |now faces|now pred];
    try contradiction.
  destruct faces as [[|landmarks others]|]; try contradiction.
  intros ((Hs & Hp) & Hc & Ho).
  cbn [vstep view vstopped vprocessing]; rewrite Hs, Hp.
  rewrite assess_blink by exact Hc.
  cbn [vlatch]; now rewrite gtb_true.
Qed.

Lemma undisturbed_snoc w inputs i :
  undisturbed w (inputs ++ [i])
  <-> undisturbed w inputs /\ resetsLatch (run w inputs) i = false.
Proof.
  revert w; induction inputs as [|j l IH]; intros w.
  - cbn; tauto.
  - rewrite <- app_comm_cons, run_cons; cbn [undisturbed].
    rewrite IH; tauto.
Qed.

Lemma undisturbed_keeps w inputs :
  undisturbed w inputs -> hasDetectedOpenEyes w = true ->
  hasDetectedOpenEyes (run w inputs) = true.
Proof.
  revert w; induction inputs as [|i l IH]; intros w; [cbn; tauto|].
  rewrite run_cons; cbn [undisturbed].
  intros [Hr Hu] Hl; apply IH; [assumption | now apply latch_kept].
Qed.

(** An undisturbed stretch stays within one challenge. *)
Lemma undisturbed_same_challenge w inputs :
  undisturbed w inputs ->
  challenges (run w inputs) = challenges w /\
  currentChallengeIndex (run w inputs) = currentChallengeIndex w.
Proof.
  revert w; induction inputs as [|i l IH]; intros w; [cbn; tauto|].
  rewrite run_cons; cbn [undisturbed].
  intros [Hr Hu]; destruct (IH _ Hu) as [-> ->]; clear IH Hu.
  rewrite challenges_view, index_view, (challenges_view w), (index_view w),
    simulation.
  unfold resetsLatch in Hr.
  destruct i as [ok|now random video canvas rs| |id now rs| |now faces|now pred];
    cbn [vstep view vready vstopped vtimers vprocessing]; try tauto.
  - rewrite Hr; tauto.
  - destruct (isStopped w); [tauto|].
    destruct faces as [[|landmarks others]|]; try (cbn; tauto).
    destruct (isChallengeProcessing w); [tauto|].
    destruct (assess _ _) as [[[latch passed] progress] rawValue]; cbn; tauto.
  - destruct (settleTimers w); [tauto|discriminate].
Qed.

(** The flag is set exactly when open eyes were seen and the flag was
    not reset since. *)
Lemma latch_openSeen w0 inputs :
  hasDetectedOpenEyes w0 = false ->
  hasDetectedOpenEyes (run w0 inputs) = true <-> openSeen w0 inputs.
Proof.
  intros H0; split.
  - induction inputs as [|i l IH] using rev_ind.
    + cbn; congruence.
    + rewrite run_app, run_cons, run_nil; intros Hl.
      destruct (hasDetectedOpenEyes (run w0 l)) eqn:Hprev.
      * destruct (IH eq_refl) as (before & frame & after & -> & Hopen & Hu).
        exists before, frame, (after ++ [i]); split; [|split].
        -- now rewrite <- app_assoc.
        -- assumption.
        -- apply undisturbed_snoc; split; [assumption|].
           rewrite run_app, run_cons in Hprev, Hl.
           destruct (resetsLatch _ i) eqn:Hr; [|reflexivity].
           apply reset_clears in Hr; congruence.
      * exists l, i, []; split; [reflexivity|split; [|exact I]].
        now apply latch_set.
  - intros (before & frame & after & -> & Hopen & Hu).
    rewrite run_app, run_cons.
    apply undisturbed_keeps; [assumption | now apply open_sets].
Qed.

(** Whether a frame passes the Blink challenge. *)
Lemma blink_frame_passes w now landmarks others :
  awaiting w -> currentChallenge w = Some BLINK ->
  isChallengeProcessing
    (step w (FaceMeshResults now (Some (landmarks :: others)))) = true
  <-> hasDetectedOpenEyes
        (step w (FaceMeshResults now (Some (landmarks :: others)))) = true /\
      rawEAR landmarks < blinkEARThreshold (config w).
Proof.
  intros [Hs Hp] Hc.
  rewrite processing_view, latch_view, simulation.
  cbn [vstep view vstopped vprocessing]; rewrite Hs, Hp.
  rewrite assess_blink by exact Hc.
  cbn [vprocessing vlatch vconfig].
  rewrite andb_true_iff, ltb_spec; tauto.
Qed.

End Latch.

Section BlinkRuns.

Import Engine Session.

Lemma view_blinkFirst :
  view (run (loaded DEFAULT_CONFIG) blinkFirst)
  = {| vconfig := DEFAULT_CONFIG; vready := true; vstopped := false;
       vchallenges := [BLINK; TURN_LEFT; TURN_RIGHT]; vindex := 0;
       vtime := 1000; vprocessing := false; vlatch := false; vtimers := 0;
       vlog := [onReady; onChallengeChanged (Some BLINK)] |}.
Proof.
  rewrite simulation_run, view_loaded; unfold blinkFirst.
  vgo; reflexivity.
Qed.

Lemma view_openThenClosed :
  view (run (loaded DEFAULT_CONFIG) openThenClosed)
  = {| vconfig := DEFAULT_CONFIG; vready := true; vstopped := false;
       vchallenges := [BLINK; TURN_LEFT; TURN_RIGHT]; vindex := 0;
       vtime := 1000; vprocessing := true; vlatch := true; vtimers := 1;
       vlog := [onReady; onChallengeChanged (Some BLINK);
                onProgress (Rmax 0 (Rmin 0 1)) (Some 0.35);
                onProgress (Rmax 0 (Rmin 0 1)) (Some 0.10)] |}.
Proof.
  unfold openThenClosed; rewrite run_app, simulation_run, view_blinkFirst.
  do 4 vgo; reflexivity.
Qed.

Lemma view_closedTwice :
  view (run (loaded DEFAULT_CONFIG) closedTwice)
  = {| vconfig := DEFAULT_CONFIG; vready := true; vstopped := false;
       vchallenges := [BLINK; TURN_LEFT; TURN_RIGHT]; vindex := 0;
       vtime := 1000; vprocessing := false; vlatch := false; vtimers := 0;
       vlog := [onReady; onChallengeChanged (Some BLINK);
                onProgress (Rmax 0 (Rmin 0 1)) (Some 0.10);
                onProgress (Rmax 0 (Rmin 0 1)) (Some 0.10)] |}.
Proof.
  unfold closedTwice; rewrite run_app, simulation_run, view_blinkFirst.
  do 4 vgo; reflexivity.
Qed.

Lemma view_openThenLost :
  view (run (loaded DEFAULT_CONFIG) openThenLost)
  = {| vconfig := DEFAULT_CONFIG; vready := true; vstopped := false;
       vchallenges := [BLINK; TURN_LEFT; TURN_RIGHT]; vindex := 0;
       vtime := 1000; vprocessing := false; vlatch := false; vtimers := 0;
       vlog := [onReady; onChallengeChanged (Some BLINK);
                onProgress (Rmax 0 (Rmin 0 1)) (Some 0.35)] |}.
Proof.
  unfold openThenLost; rewrite run_app, simulation_run, view_blinkFirst.
  do 6 vgo; reflexivity.
Qed.

Lemma view_lostThenClosed :
  view (step (run (loaded DEFAULT_CONFIG) openThenLost)
          (FaceMeshResults 1210 (Some [eyesClosed])))
  = {| vconfig := DEFAULT_CONFIG; vready := true; vstopped := false;
       vchallenges := [BLINK; TURN_LEFT; TURN_RIGHT]; vindex := 0;
       vtime := 1000; vprocessing := false; vlatch := false; vtimers := 0;
       vlog := [onReady; onChallengeChanged (Some BLINK);
                onProgress (Rmax 0 (Rmin 0 1)) (Some 0.35);
                onProgress (Rmax 0 (Rmin 0 1)) (Some 0.10)] |}.
Proof.
  rewrite simulation, view_openThenLost.
  vnorm; rewrite rawEAR_eyesClosed; decide_comparisons; vnorm; reflexivity.
Qed.

End BlinkRuns.

(** C2 (as amended). While a Blink challenge is awaited, a frame with a
    face passes (the settle window opens) if and only if open eyes (EAR
    above 0.3) were seen on it or on an earlier frame evaluated during
    this challenge, with no reset of the flag in between (no evaluated
    frame without a face in particular), and its EAR is below
    [blinkEARThreshold].  The EAR sequence [0.35, 0.10] passes and the
    sequence [0.10, 0.10] does not. *)
Theorem blink_pass_condition :
  (forall w0 inputs now landmarks others,
     Engine.hasDetectedOpenEyes w0 = false ->
     let w := Engine.run w0 inputs in
     let frame := Engine.FaceMeshResults now (Some (landmarks :: others)) in
     Session.awaiting w ->
     Session.currentChallenge w = Some Engine.BLINK ->
     Engine.isChallengeProcessing (Engine.step w frame) = true
     <-> Session.openSeen w0 (inputs ++ [frame]) /\
         Session.rawEAR landmarks < Engine.blinkEARThreshold (Engine.config w)) /\
  Engine.isChallengeProcessing
    (Engine.run (Fixture.loaded Engine.DEFAULT_CONFIG) Fixture.openThenClosed) = true /\
  Engine.isChallengeProcessing
    (Engine.run (Fixture.loaded Engine.DEFAULT_CONFIG) Fixture.closedTwice) = false.
Proof.
  refine (conj _ (conj _ _)).
  - intros w0 inputs now landmarks others H0 w frame Ha Hc; subst w frame.
    rewrite blink_frame_passes by assumption.
    rewrite <- (latch_openSeen w0 _ H0), run_app, run_cons, run_nil.
    reflexivity.
  - now rewrite processing_view, view_openThenClosed.
  - now rewrite processing_view, view_closedTwice.
Qed.

(** C2 as stated fails: the face is lost between the frame with open
    eyes and the frame with closed eyes.  Both frames are evaluated in
    the same Blink challenge, the first has EAR 0.35 > 0.3, the last has
    EAR 0.10 < 0.25, and the last does not pass. *)
Lemma blink_pass_counterexample :
  Session.seesOpenEyes
    (Engine.run (Fixture.loaded Engine.DEFAULT_CONFIG) Fixture.blinkFirst)
    (Engine.FaceMeshResults 1010 (Some [Fixture.eyesOpen])) /\
  Session.awaiting
    (Engine.run (Fixture.loaded Engine.DEFAULT_CONFIG) Fixture.openThenLost) /\
  Session.currentChallenge
    (Engine.run (Fixture.loaded Engine.DEFAULT_CONFIG) Fixture.openThenLost)
  = Some Engine.BLINK /\
  Engine.currentChallengeIndex
    (Engine.run (Fixture.loaded Engine.DEFAULT_CONFIG) Fixture.openThenLost)
  = Engine.currentChallengeIndex
      (Engine.run (Fixture.loaded Engine.DEFAULT_CONFIG) Fixture.blinkFirst) /\
  Session.rawEAR Fixture.eyesClosed
  < Engine.blinkEARThreshold
      (Engine.config
         (Engine.run (Fixture.loaded Engine.DEFAULT_CONFIG) Fixture.openThenLost)) /\
  Engine.isChallengeProcessing
    (Engine.step
       (Engine.run (Fixture.loaded Engine.DEFAULT_CONFIG) Fixture.openThenLost)
       (Engine.FaceMeshResults 1210 (Some [Fixture.eyesClosed]))) = false.
Proof.
  unfold Session.seesOpenEyes, Session.awaiting, Session.currentChallenge.
  rewrite !stopped_view, !processing_view, !challenges_view, !index_view,
    !config_view.
  rewrite view_blinkFirst, view_openThenLost, view_lostThenClosed.
  rewrite rawEAR_eyesOpen, rawEAR_eyesClosed.
  cbn; unfold Engine.OPEN_THRESHOLD.
  repeat split; lra.
Qed.

Section LatchResets.

Import Engine Session.

Lemma results_same_challenge w now faces :
  challenges (step w (FaceMeshResults now faces)) = challenges w /\
  currentChallengeIndex (step w (FaceMeshResults now faces))
  = currentChallengeIndex w.
Proof.
  rewrite challenges_view, index_view, simulation.
  cbn [vstep view vstopped vprocessing].
  destruct (isStopped w); [tauto|].
  destruct faces as [[|landmarks others]|]; try (cbn; tauto).
  destruct (isChallengeProcessing w); [tauto|].
  destruct (assess _ _) as [[[latch passed] progress] rawValue]; cbn; tauto.
Qed.

(** From the frame that showed open eyes to the end of an undisturbed
    stretch, the challenge is the same. *)
Lemma openSeen_same_challenge w0 inputs :
  openSeen w0 inputs ->
  exists before frame after,
    inputs = before ++ frame :: after /\
    seesOpenEyes (run w0 before) frame /\
    undisturbed (step (run w0 before) frame) after /\
    currentChallengeIndex (run w0 inputs) = currentChallengeIndex (run w0 before).
Proof.
  intros (before & frame & after & -> & Hopen & Hu).
  exists before, frame, after; repeat split; try assumption.
  rewrite run_app, run_cons.
  destruct (undisturbed_same_challenge _ _ Hu) as [_ ->].
  destruct frame as [ok|now random video canvas rs| |id now rs| |now faces|now pred];
    try contradiction.
  apply results_same_challenge.
Qed.

End LatchResets.

(** C10. An evaluated frame without a face unsets the "eyes seen open"
    flag, and so do the advance to the next challenge and every [start]
    that does not throw.  Hence a frame passes a Blink challenge only if
    its EAR is below the closed threshold and open eyes (EAR above 0.3)
    were seen on it or on an earlier frame of the same challenge, with no
    evaluated frame without a face, no advance and no start between that
    frame and this one. *)
Theorem latch_resets :
  (forall w now faces,
     Engine.isStopped w = false -> Session.noFace faces = true ->
     Engine.hasDetectedOpenEyes
       (Engine.step w (Engine.FaceMeshResults now faces)) = false) /\
  (forall w now prediction,
     (0 < Engine.settleTimers w)%nat ->
     Engine.hasDetectedOpenEyes
       (Engine.step w (Engine.SettleTimeout now prediction)) = false) /\
  (forall w now random video canvas readyState,
     Engine.isReady w = true ->
     Engine.hasDetectedOpenEyes
       (Engine.step w (Engine.Start now random video canvas readyState)) = false) /\
  (forall w0 inputs now landmarks others,
     Engine.hasDetectedOpenEyes w0 = false ->
     let w := Engine.run w0 inputs in
     let frame := Engine.FaceMeshResults now (Some (landmarks :: others)) in
     Session.awaiting w ->
     Session.currentChallenge w = Some Engine.BLINK ->
     Engine.isChallengeProcessing (Engine.step w frame) = true ->
     Session.rawEAR landmarks < Engine.blinkEARThreshold (Engine.config w) /\
     exists before open after,
       inputs ++ [frame] = before ++ open :: after /\
       Session.seesOpenEyes (Engine.run w0 before) open /\
       Session.undisturbed (Engine.step (Engine.run w0 before) open) after /\
       Engine.currentChallengeIndex (Engine.run w0 before)
       = Engine.currentChallengeIndex w).
Proof.
  refine (conj _ (conj _ (conj _ _))).
  - intros w now faces Hs Hf; apply reset_clears; cbn.
    now rewrite Hs, Hf.
  - intros w now prediction Ht; apply reset_clears; cbn.
    destruct (Engine.settleTimers w); [lia | reflexivity].
  - intros w now random video canvas readyState Hr.
    now apply reset_clears.
  - intros w0 inputs now landmarks others H0 w frame Ha Hc Hp; subst w frame.
    apply blink_frame_passes in Hp; try assumption.
    destruct Hp as [Hl Hear]; split; [assumption|].
    replace (Engine.step _ _)
      with (Engine.run w0 (inputs
              ++ [Engine.FaceMeshResults now (Some (landmarks :: others))]))
      in Hl by (now rewrite run_app, run_cons, run_nil).
    apply (latch_openSeen w0 _ H0) in Hl.
    destruct (openSeen_same_challenge _ _ Hl)
      as (before & open & after & E & Hopen & Hu & Hi).
    exists before, open, after; repeat split; try assumption.
    rewrite <- Hi, run_app, run_cons, run_nil.
    apply results_same_challenge.
Qed.

(** ** A session from [start] to success *)

Section WholeSession.

Import Engine Session.

Lemma assess_passed_current v landmarks :
  let '(_, passed, _, _) := assess v landmarks in
  passed = true -> (vindex v < length (vchallenges v))%nat.
Proof.
  unfold assess; destruct (nth_error _ _) as [c|] eqn:E.
  - assert (Hlt : (vindex v < length (vchallenges v))%nat)
      by (apply nth_error_Some; congruence).
    destruct c; auto.
  - discriminate.
Qed.

(** Callbacks that are neither [onChallengeChanged] nor [onSuccess] keep
    a session on track. *)
Lemma onTrack_quiet cs log0 P v v' extra :
  onTrack cs log0 P v ->
  vchallenges v' = vchallenges v -> vindex v' = vindex v ->
  vtimers v' = (if vprocessing v' && (vindex v' <? 3)%nat then 1 else 0)%nat ->
  vlog v' = vlog v ++ extra ->
  filter isChallengeChanged extra = [] -> filter isSuccess extra = [] ->
  onTrack cs log0 P v'.
Proof.
  intros (Hcs & Hi & _ & l & Hl & Hcc & Hsucc) Hc' Hi' Ht' Hl' Hx Hy.
  unfold onTrack; rewrite Hc', Hi'; rewrite Hi' in Ht'.
  repeat split; try assumption.
  exists (l ++ extra); rewrite Hl', Hl, app_assoc, !filter_app, Hx, Hy, !app_nil_r.
  auto.
Qed.

Lemma onTrack_step cs log0 (P : list R -> Prop) v i :
  length cs = 3%nat -> onTrack cs log0 P v ->
  hostOnly i -> extracts i ->
  (forall now prediction, i = SettleTimeout now (Some prediction) -> P prediction) ->
  onTrack cs log0 P (vstep v i).
Proof.
  intros Hlen Hv Hh Hx HP.
  destruct i as [ok|now random video canvas rs| |id now rs| |now faces|now pred];
    try contradiction; try exact Hv; cbn [vstep].
  - (* a results callback *)
    destruct (vstopped v); [exact Hv|].
    pose proof Hv as (Hcs & Hi & Ht & _).
    destruct faces as [[|landmarks others]|].
    + apply (onTrack_quiet _ _ _ v _
               (if vtimedOut now v then [onFailure FACE_NOT_FOUND] else []));
        try reflexivity; try assumption; now destruct (vtimedOut now v).
    + destruct (vprocessing v) eqn:Hp; [exact Hv|].
      pose proof (assess_passed_current v landmarks) as Hin.
      destruct (assess v landmarks) as [[[latch passed] progress] rawValue].
      apply (onTrack_quiet _ _ _ v _
               (onProgress progress rawValue
                :: (if negb passed && vtimedOut now v
                    then [onFailure CHALLENGE_TIMEOUT] else [])));
        try reflexivity; try assumption;
        try (now destruct (negb passed && vtimedOut now v)).
      cbn [vtimers vprocessing vindex]; rewrite Ht; cbn [andb].
      destruct passed; [|reflexivity].
      rewrite Hcs, Hlen in Hin.
      now rewrite (proj2 (Nat.ltb_lt _ _) (Hin eq_refl)).
    + apply (onTrack_quiet _ _ _ v _
               (if vtimedOut now v then [onFailure FACE_NOT_FOUND] else []));
        try reflexivity; try assumption; now destruct (vtimedOut now v).
  - (* a settle timer *)
    destruct (vtimers v) as [|n] eqn:Hn; [exact Hv|].
    destruct Hv as (Hcs & Hi & Ht & l & Hl & Hcc & Hsucc).
    rewrite Hn in Ht.
    destruct (vprocessing v) eqn:Hp; [|discriminate Ht].
    destruct (vindex v <? 3)%nat eqn:Hlt; [|discriminate Ht].
    apply Nat.ltb_lt in Hlt.
    cbn [andb] in Ht; injection Ht as ->.
    destruct Hsucc as [[_ Hsucc]|[Habs _]]; [|lia].
    destruct cs as [|c0 [|c1 [|c2 [|? ?]]]]; try discriminate Hlen.
    rewrite Hcs; cbn [length].
    destruct (vindex v) as [|[|[|k]]] eqn:Hidx; try lia; cbn [Nat.leb].
    + unfold onTrack; cbn; repeat split; try lia; try assumption.
      exists (l ++ [onChallengeChanged (Some c1)]).
      rewrite Hl, app_assoc, !filter_app, Hcc, Hsucc; cbn; auto with arith.
    + unfold onTrack; cbn; repeat split; try lia; try assumption.
      exists (l ++ [onChallengeChanged (Some c2)]).
      rewrite Hl, app_assoc, !filter_app, Hcc, Hsucc; cbn; auto with arith.
    + destruct pred as [prediction|]; [|contradiction].
      unfold onTrack; cbn; rewrite ?Hp; repeat split; try lia; try assumption.
      exists (l ++ [onChallengeChanged (Some PROCESSING);
                    onSuccess (normalize prediction)]).
      rewrite Hl, app_assoc, !filter_app, Hcc, Hsucc; cbn.
      repeat split; right; split; [reflexivity|].
      exists prediction; split; [now apply (HP now)|reflexivity].
Qed.

Lemma onTrack_run cs log0 (P : list R -> Prop) w inputs :
  length cs = 3%nat -> onTrack cs log0 P (view w) ->
  Forall hostOnly inputs -> Forall extracts inputs ->
  (forall now prediction,
     In (SettleTimeout now (Some prediction)) inputs -> P prediction) ->
  onTrack cs log0 P (view (run w inputs)).
Proof.
  intros Hlen; revert w; induction inputs as [|i l IH]; intros w Hv Hh Hx HP.
  - exact Hv.
  - rewrite run_cons; inversion Hh; inversion Hx; subst.
    apply IH; try assumption.
    + rewrite simulation; apply onTrack_step; try assumption.
      intros now prediction ->; apply (HP now); now left.
    + intros now prediction Hin; apply (HP now); now right.
Qed.

(** Every pass sets a settle timer, and every settle timer that fires
    advances the index. *)
Lemma passCount_balance w inputs :
  Forall hostOnly inputs ->
  (passCount w inputs + currentChallengeIndex w + settleTimers w
   = currentChallengeIndex (run w inputs) + settleTimers (run w inputs))%nat.
Proof.
  revert w; induction inputs as [|i l IH]; intros w Hh;
    [rewrite run_nil; cbn [passCount]; lia|].
  inversion Hh as [|? ? Hi Hl]; subst.
  rewrite run_cons, <- (IH _ Hl); cbn [passCount]; clear IH Hh Hl.
  rewrite (index_view (step w i)), (timers_view (step w i)), simulation.
  destruct i as [ok|now random video canvas rs| |id now rs| |now faces|now pred];
    try contradiction; cbn [vstep passesOn]; try (cbn; lia).
  - cbn [view vstopped vprocessing].
    destruct faces as [[|landmarks others]|];
      destruct (isStopped w) eqn:Hs; try (cbn; lia).
    destruct (isChallengeProcessing w) eqn:Hp; [cbn; lia|].
    rewrite assess_spec; cbn.
    destruct (challengePassed landmarks w); cbn; lia.
  - cbn [view vtimers].
    destruct (settleTimers w) eqn:Ht; [cbn; lia|].
    destruct (_ <=? _)%nat; cbn; lia.
Qed.

Lemma filter_emitted (f : SDK.Event -> bool) l :
  filter f (map SDK.emitted l)
  = map SDK.emitted (filter (fun c => f (SDK.emitted c)) l).
Proof.
  induction l as [|c l IH]; [reflexivity|]; cbn.
  destruct (f (SDK.emitted c)); cbn; now rewrite IH.
Qed.

Lemma filter_ext_callbacks (f g : Callback -> bool) l :
  (forall c, f c = g c) -> filter f l = filter g l.
Proof. intros H; induction l as [|c l IH]; cbn; [|rewrite H, IH]; reflexivity. Qed.

End WholeSession.

Section SessionStart.

Import Engine Session.

Lemma generateChallenges_three random :
  (forall k, 0 <= random k < 1) ->
  exists c0 c1 c2, generateChallenges random = [c0; c1; c2].
Proof.
  intros Hr.
  pose proof (generate_with_permutation _ (choice_in_range random Hr)) as Hp.
  rewrite <- generateChallenges_choice in Hp.
  apply Permutation_length in Hp.
  destruct (generateChallenges random) as [|c0 [|c1 [|c2 [|? ?]]]];
    try discriminate Hp.
  now exists c0, c1, c2.
Qed.

Lemma keepOrder_range k : 0 <= keepOrder k < 1.
Proof. destruct k; unfold keepOrder; lra. Qed.

Lemma is_success_emitted c : SDK.is_success (SDK.emitted c) = isSuccess c.
Proof. now destruct c. Qed.

Lemma is_challenge_emitted c :
  SDK.is_challenge (SDK.emitted c) = isChallengeChanged c.
Proof. now destruct c. Qed.

Lemma completion_hostOnly prediction :
  Forall hostOnly (completion prediction).
Proof.
  unfold completion, threePasses, twoPasses; cbn [app]; repeat constructor.
Qed.

End SessionStart.

(** C1 (as amended). Take a loaded engine with no settle timer
    pending and start a session; let the host alone act from then on,
    and let the recognition model not throw.  If the active challenge
    passes on three frames in all and the last settle timer has fired,
    then exactly one success event is emitted; its descriptor is the
    normalised prediction of one of the settle timers, as long as the
    prediction, and of unit norm when the norm of the prediction exceeds
    1e-6; and exactly four challenge events are emitted: one for each
    generated challenge, in the generated order, then one of type
    PROCESSING. *)
Theorem successful_session
        (w0 : Engine.World) (now : R) (random : nat -> R)
        (video canvas : bool) (readyState : nat) (inputs : list Engine.Input) :
  Engine.isReady w0 = true ->
  Engine.settleTimers w0 = 0%nat ->
  (forall k, 0 <= random k < 1) ->
  Forall Session.hostOnly inputs ->
  Forall Session.extracts inputs ->
  let w1 := Engine.step w0 (Engine.Start now random video canvas readyState) in
  let w := Engine.run w1 inputs in
  Session.passCount w1 inputs = 3%nat ->
  Engine.settleTimers w = 0%nat ->
  exists c0 c1 c2 fired prediction,
    Engine.generateChallenges random = [c0; c1; c2] /\
    In (Engine.SettleTimeout fired (Some prediction)) inputs /\
    filter SDK.is_success (Session.eventsSince w0 w)
    = [SDK.success (Engine.normalize prediction)] /\
    filter SDK.is_challenge (Session.eventsSince w0 w)
    = [SDK.challenge (Some c0) (SDK.instructions (Some c0));
       SDK.challenge (Some c1) (SDK.instructions (Some c1));
       SDK.challenge (Some c2) (SDK.instructions (Some c2));
       SDK.challenge (Some Engine.PROCESSING) "Processing..."] /\
    length (Engine.normalize prediction) = length prediction /\
    (Vec.norm prediction > 1e-6 -> Vec.unit (Engine.normalize prediction)).
Proof.
  intros Hready Ht0 Hrandom Hhost Hextr w1 w Hpass Htw; subst w w1.
  destruct (generateChallenges_three random Hrandom) as (c0 & c1 & c2 & Hcs).
  set (w1 := Engine.step w0 _) in *.
  set (P := fun prediction : list R =>
              exists fired, In (Engine.SettleTimeout fired (Some prediction)) inputs).
  assert (Hv1 : Session.onTrack [c0; c1; c2] (Engine.callbackLog w0) P
                  (Session.view w1)).
  { unfold w1; rewrite rule_start by assumption; rewrite Hcs.
    unfold Session.onTrack; cbn; rewrite Ht0; repeat split; try lia.
    exists [Engine.onChallengeChanged (Some c0)]; cbn; auto with arith. }
  assert (Hi1 : Engine.currentChallengeIndex w1 = 0%nat).
  { rewrite index_view; unfold w1; now rewrite rule_start. }
  assert (Ht1 : Engine.settleTimers w1 = 0%nat).
  { rewrite timers_view; unfold w1; now rewrite rule_start. }
  pose proof (passCount_balance w1 inputs Hhost) as Hbal.
  rewrite Hpass, Hi1, Ht1, Htw in Hbal.
  destruct (onTrack_run [c0; c1; c2] (Engine.callbackLog w0) P w1 inputs
              eq_refl Hv1 Hhost Hextr)
    as (_ & _ & _ & l & Hl & Hcc & Hsucc).
  { intros fired prediction Hin; now exists fired. }
  change (Session.vindex (Session.view (Engine.run w1 inputs)))
    with (Engine.currentChallengeIndex (Engine.run w1 inputs)) in Hcc, Hsucc.
  destruct Hsucc as [[Hlt _]|[_ (prediction & (fired & Hin) & Hsucc)]]; [lia|].
  exists c0, c1, c2, fired, prediction.
  unfold Session.eventsSince; rewrite (since_app w0 _ l Hl), !filter_emitted.
  rewrite (filter_ext_callbacks _ _ l is_success_emitted), Hsucc.
  rewrite (filter_ext_callbacks _ _ l is_challenge_emitted), Hcc.
  replace (Engine.currentChallengeIndex _) with 3%nat by lia.
  refine (conj Hcs (conj Hin (conj eq_refl (conj eq_refl (conj _ _))))).
  - apply normalize_length.
  - apply normalize_unit.
Qed.

Lemma successful_session_witness :
  exists c0 c1 c2 fired prediction,
    Engine.generateChallenges Fixture.keepOrder = [c0; c1; c2] /\
    In (Engine.SettleTimeout fired (Some prediction))
       (Fixture.completion Fixture.threeFour) /\
    filter SDK.is_success
      (Session.eventsSince (Fixture.loaded Engine.DEFAULT_CONFIG)
         (Engine.run
            (Engine.step (Fixture.loaded Engine.DEFAULT_CONFIG)
               (Engine.Start 1000 Fixture.keepOrder true true 4))
            (Fixture.completion Fixture.threeFour)))
    = [SDK.success (Engine.normalize prediction)] /\
    filter SDK.is_challenge
      (Session.eventsSince (Fixture.loaded Engine.DEFAULT_CONFIG)
         (Engine.run
            (Engine.step (Fixture.loaded Engine.DEFAULT_CONFIG)
               (Engine.Start 1000 Fixture.keepOrder true true 4))
            (Fixture.completion Fixture.threeFour)))
    = [SDK.challenge (Some c0) (SDK.instructions (Some c0));
       SDK.challenge (Some c1) (SDK.instructions (Some c1));
       SDK.challenge (Some c2) (SDK.instructions (Some c2));
       SDK.challenge (Some Engine.PROCESSING) "Processing..."] /\
    length (Engine.normalize prediction) = length prediction /\
    (Vec.norm prediction > 1e-6 -> Vec.unit (Engine.normalize prediction)).
Proof.
  apply (successful_session (Fixture.loaded Engine.DEFAULT_CONFIG) 1000
           Fixture.keepOrder true true 4 (Fixture.completion Fixture.threeFour)).
  - reflexivity.
  - reflexivity.
  - exact keepOrder_range.
  - exact (completion_hostOnly Fixture.threeFour).
  - unfold Fixture.completion, Fixture.threePasses, Fixture.twoPasses.
    cbn [app]; repeat constructor.
  - pose proof (passCount_balance
                  (Engine.step (Fixture.loaded Engine.DEFAULT_CONFIG)
                     (Engine.Start 1000 Fixture.keepOrder true true 4))
                  (Fixture.completion Fixture.threeFour)
                  (completion_hostOnly Fixture.threeFour)) as H.
    rewrite <- run_cons in H.
    change (Engine.Start 1000 Fixture.keepOrder true true 4
            :: Fixture.completion Fixture.threeFour)
      with (Fixture.passingSession Fixture.threeFour) in H.
    rewrite !index_view, !timers_view, view_passingSession in H.
    rewrite <- !run_one in H.
    change [Engine.Start 1000 Fixture.keepOrder true true 4]
      with Fixture.blinkFirst in H.
    rewrite view_blinkFirst in H.
    cbn [Session.vindex Session.vtimers] in H.
    rewrite <- run_one.
    change [Engine.Start 1000 Fixture.keepOrder true true 4]
      with Fixture.blinkFirst.
    lia.
  - rewrite <- run_cons.
    change (Engine.Start 1000 Fixture.keepOrder true true 4
            :: Fixture.completion Fixture.threeFour)
      with (Fixture.passingSession Fixture.threeFour).
    now rewrite timers_view, view_passingSession.
Defined.

(** C1 as stated fails: in this session the three challenges pass in
    turn and the recognition model returns 128 zeros; one success event
    is emitted, but four challenge events are (the fourth of type
    PROCESSING), and the descriptor is the prediction itself, whose norm
    is 0. *)
Lemma successful_session_counterexample :
  Session.eventsSince (Fixture.loaded Engine.DEFAULT_CONFIG)
    (Engine.run (Fixture.loaded Engine.DEFAULT_CONFIG)
       (Fixture.passingSession Fixture.zeros))
  = [SDK.challenge (Some Engine.BLINK) "Please blink both eyes.";
     SDK.progress (Rmax 0 0) (Some 0.35);
     SDK.progress (Rmax 0 0) (Some 0.10);
     SDK.challenge (Some Engine.TURN_LEFT) "Slowly turn your head to your left.";
     SDK.progress (Rmax 0 1) (Some 0.6);
     SDK.challenge (Some Engine.TURN_RIGHT) "Slowly turn your head to your right.";
     SDK.progress (Rmax 0 1) (Some (-0.6));
     SDK.challenge (Some Engine.PROCESSING) "Processing...";
     SDK.success Fixture.zeros] /\
  length
    (filter SDK.is_challenge
       (Session.eventsSince (Fixture.loaded Engine.DEFAULT_CONFIG)
          (Engine.run (Fixture.loaded Engine.DEFAULT_CONFIG)
             (Fixture.passingSession Fixture.zeros)))) = 4%nat /\
  length Fixture.zeros = 128%nat /\
  ~ Vec.unit Fixture.zeros.
Proof.
  assert (E : Session.eventsSince (Fixture.loaded Engine.DEFAULT_CONFIG)
                (Engine.run (Fixture.loaded Engine.DEFAULT_CONFIG)
                   (Fixture.passingSession Fixture.zeros))
              = [SDK.challenge (Some Engine.BLINK) "Please blink both eyes.";
                 SDK.progress (Rmax 0 0) (Some 0.35);
                 SDK.progress (Rmax 0 0) (Some 0.10);
                 SDK.challenge (Some Engine.TURN_LEFT)
                   "Slowly turn your head to your left.";
                 SDK.progress (Rmax 0 1) (Some 0.6);
                 SDK.challenge (Some Engine.TURN_RIGHT)
                   "Slowly turn your head to your right.";
                 SDK.progress (Rmax 0 1) (Some (-0.6));
                 SDK.challenge (Some Engine.PROCESSING) "Processing...";
                 SDK.success Fixture.zeros]).
  { unfold Session.eventsSince.
    rewrite (since_app _ _
               [Engine.onChallengeChanged (Some Engine.BLINK);
                Engine.onProgress (Rmax 0 0) (Some 0.35);
                Engine.onProgress (Rmax 0 0) (Some 0.10);
                Engine.onChallengeChanged (Some Engine.TURN_LEFT);
                Engine.onProgress (Rmax 0 1) (Some 0.6);
                Engine.onChallengeChanged (Some Engine.TURN_RIGHT);
                Engine.onProgress (Rmax 0 1) (Some (-0.6));
                Engine.onChallengeChanged (Some Engine.PROCESSING);
                Engine.onSuccess Fixture.zeros]); [reflexivity|].
    rewrite (log_view (Engine.run _ _)), view_passingSession.
    unfold Fixture.zeros; rewrite normalize_zeros; reflexivity. }
  rewrite E; repeat split.
  unfold Vec.unit, Fixture.zeros; rewrite norm_zeros; lra.
Qed.

(** ** Stopping *)

Section Stopping.

Import Engine Session.

Lemma view_faceLostWhileSettling :
  view (run (loaded DEFAULT_CONFIG) faceLostWhileSettling)
  = {| vconfig := DEFAULT_CONFIG; vready := true; vstopped := true;
       vchallenges := [BLINK; TURN_LEFT; TURN_RIGHT]; vindex := 3;
       vtime := 1810; vprocessing := true; vlatch := false; vtimers := 0;
       vlog := [onReady;
                onChallengeChanged (Some BLINK);
                onProgress (Rmax 0 (Rmin 0 1)) (Some 0.35);
                onProgress (Rmax 0 (Rmin 0 1)) (Some 0.10);
                onChallengeChanged (Some TURN_LEFT);
                onProgress (Rmax 0 (Rmin 1 1)) (Some 0.6);
                onChallengeChanged (Some TURN_RIGHT);
                onProgress (Rmax 0 (Rmin 1 1)) (Some (-0.6));
                onFailure FACE_NOT_FOUND;
                onChallengeChanged (Some PROCESSING);
                onSuccess (normalize threeFour)] |}.
Proof.
  rewrite simulation_run, view_loaded.
  unfold faceLostWhileSettling, blinkFirst, twoPasses; cbn [app].
  do 18 vgo.
  reflexivity.
Qed.

Lemma view_stoppedWhileSettling :
  view (run (loaded DEFAULT_CONFIG) stoppedWhileSettling)
  = {| vconfig := DEFAULT_CONFIG; vready := true; vstopped := true;
       vchallenges := [BLINK; TURN_LEFT; TURN_RIGHT]; vindex := 0;
       vtime := 1000; vprocessing := true; vlatch := true; vtimers := 1;
       vlog := [onReady; onChallengeChanged (Some BLINK);
                onProgress (Rmax 0 (Rmin 0 1)) (Some 0.35);
                onProgress (Rmax 0 (Rmin 0 1)) (Some 0.10)] |}.
Proof.
  unfold stoppedWhileSettling.
  rewrite run_app, simulation_run, view_openThenClosed.
  do 2 vgo; reflexivity.
Qed.

Lemma view_timerAfterStop :
  view (step (run (loaded DEFAULT_CONFIG) stoppedWhileSettling)
          (SettleTimeout 1410 (Some zeros)))
  = {| vconfig := DEFAULT_CONFIG; vready := true; vstopped := true;
       vchallenges := [BLINK; TURN_LEFT; TURN_RIGHT]; vindex := 1;
       vtime := 1410; vprocessing := false; vlatch := false; vtimers := 0;
       vlog := [onReady; onChallengeChanged (Some BLINK);
                onProgress (Rmax 0 (Rmin 0 1)) (Some 0.35);
                onProgress (Rmax 0 (Rmin 0 1)) (Some 0.10);
                onChallengeChanged (Some TURN_LEFT)] |}.
Proof. rewrite simulation, view_stoppedWhileSettling; reflexivity. Qed.

End Stopping.

(** C9 fails on the code.  A settle timer that is pending when the
    session stops still fires and calls [#moveToNextChallenge], which
    does not look at [#isStopped]: (1) when the face is lost during the
    settle window of the last challenge, after the timeout, the failure
    FACE_NOT_FOUND is followed by the challenge PROCESSING and by
    success, two terminal events in one session; (2) when the caller
    stops the engine during a settle window, a challenge event is
    emitted after [stop()]. *)
Theorem events_after_stop :
  Session.eventsSince (Fixture.loaded Engine.DEFAULT_CONFIG)
    (Engine.run (Fixture.loaded Engine.DEFAULT_CONFIG) Fixture.faceLostWhileSettling)
  = [SDK.challenge (Some Engine.BLINK) "Please blink both eyes.";
     SDK.progress (Rmax 0 (Rmin 0 1)) (Some 0.35);
     SDK.progress (Rmax 0 (Rmin 0 1)) (Some 0.10);
     SDK.challenge (Some Engine.TURN_LEFT) "Slowly turn your head to your left.";
     SDK.progress (Rmax 0 (Rmin 1 1)) (Some 0.6);
     SDK.challenge (Some Engine.TURN_RIGHT) "Slowly turn your head to your right.";
     SDK.progress (Rmax 0 (Rmin 1 1)) (Some (-0.6));
     SDK.failure Engine.FACE_NOT_FOUND;
     SDK.challenge (Some Engine.PROCESSING) "Processing...";
     SDK.success (Engine.normalize Fixture.threeFour)] /\
  Engine.isStopped
    (Engine.run (Fixture.loaded Engine.DEFAULT_CONFIG) Fixture.stoppedWhileSettling)
  = true /\
  Session.eventsSince
    (Engine.run (Fixture.loaded Engine.DEFAULT_CONFIG) Fixture.stoppedWhileSettling)
    (Engine.step
       (Engine.run (Fixture.loaded Engine.DEFAULT_CONFIG) Fixture.stoppedWhileSettling)
       (Engine.SettleTimeout 1410 (Some Fixture.zeros)))
  = [SDK.challenge (Some Engine.TURN_LEFT) "Slowly turn your head to your left."].
Proof.
  refine (conj _ (conj _ _)).
  - unfold Session.eventsSince.
    rewrite (since_app _ _
               [Engine.onChallengeChanged (Some Engine.BLINK);
                Engine.onProgress (Rmax 0 (Rmin 0 1)) (Some 0.35);
                Engine.onProgress (Rmax 0 (Rmin 0 1)) (Some 0.10);
                Engine.onChallengeChanged (Some Engine.TURN_LEFT);
                Engine.onProgress (Rmax 0 (Rmin 1 1)) (Some 0.6);
                Engine.onChallengeChanged (Some Engine.TURN_RIGHT);
                Engine.onProgress (Rmax 0 (Rmin 1 1)) (Some (-0.6));
                Engine.onFailure Engine.FACE_NOT_FOUND;
                Engine.onChallengeChanged (Some Engine.PROCESSING);
                Engine.onSuccess (Engine.normalize Fixture.threeFour)]);
      [reflexivity|].
    now rewrite (log_view (Engine.run _ _)), view_faceLostWhileSettling.
  - now rewrite stopped_view, view_stoppedWhileSettling.
  - unfold Session.eventsSince.
    rewrite (since_app _ _ [Engine.onChallengeChanged (Some Engine.TURN_LEFT)]);
      [reflexivity|].
    now rewrite (log_view (Engine.step _ _)), (log_view (Engine.run _ _)),
      view_timerAfterStop, view_stoppedWhileSettling.
Qed.

(** X1. [stop()] is idempotent: a second call changes nothing.  After a call
    the engine is stopped, the animation frame it had requested is
    cancelled and forgotten, and the render surface, if there is one, is
    clear. *)
Theorem stop_idempotent (w : Engine.World) :
  Engine.stop (Engine.stop w) = Engine.stop w /\
  Engine.isStopped (Engine.stop w) = true /\
  (forall id, Engine.detectionLoopId w = Some (S id) ->
              Engine.detectionLoopId (Engine.stop w) = None /\
              ~ In (S id) (Engine.frameRequests (Engine.stop w))) /\
  (Engine.canvasCtx w = true -> Engine.surfaceDirty (Engine.stop w) = false).
Proof.
  refine (conj _ (conj (stop_isStopped w) (conj _ _))).
  - destruct w as [cfg ready video canvas [[|id]|] stopped cs idx t proc latch
                   lft reqs next awaiting sent timers dirty log];
      destruct canvas; reflexivity.
  - intros id Hid; unfold Engine.stop; cbn; rewrite Hid.
    destruct (Engine.canvasCtx w) eqn:Hc; cbn; rewrite ?Hc; cbn;
      (split; [reflexivity|apply remove_In]).
  - intros Hc; unfold Engine.stop; cbn.
    destruct (Engine.detectionLoopId w) as [[|id]|]; cbn; rewrite Hc;
      reflexivity.
Qed.

(** X2. Once the engine is stopped, a results callback that is still in
    flight is ignored: the world stays as it is, and so nothing is
    emitted. *)
Theorem late_results_ignored (w : Engine.World) (now : R)
        (faces : option (list Utils.Landmarks)) :
  Engine.step (Engine.stop w) (Engine.FaceMeshResults now faces) = Engine.stop w /\
  Session.eventsSince (Engine.stop w)
    (Engine.step (Engine.stop w) (Engine.FaceMeshResults now faces)) = [].
Proof.
  assert (E : Engine.step (Engine.stop w) (Engine.FaceMeshResults now faces)
              = Engine.stop w)
    by (apply rule_results_stopped, stop_isStopped).
  split; [exact E|].
  unfold Session.eventsSince; rewrite since_refl; [reflexivity|now rewrite E].
Qed.

(** ** The geometry of [utils.js] *)

Section Distances.

Import Utils.

Lemma sum_squares_nonneg a b c : 0 <= a ^ 2 + b ^ 2 + c ^ 2.
Proof.
  pose proof (pow2_ge_0 a); pose proof (pow2_ge_0 b); pose proof (pow2_ge_0 c).
  lra.
Qed.

Lemma sqrt_sum_squares_zero a b c :
  sqrt (a ^ 2 + b ^ 2 + c ^ 2) = 0 -> a = 0 /\ b = 0 /\ c = 0.
Proof.
  intros H; apply sqrt_eq_0 in H; [|apply sum_squares_nonneg].
  pose proof (pow2_ge_0 a); pose proof (pow2_ge_0 b); pose proof (pow2_ge_0 c).
  repeat split; nra.
Qed.

Lemma point_eq (p1 p2 : Point) :
  x p1 = x p2 -> y p1 = y p2 -> z p1 = z p2 -> p1 = p2.
Proof. destruct p1, p2; simpl; intros -> -> ->; reflexivity. Qed.

Lemma euclideanDistance_nonneg p1 p2 : 0 <= euclideanDistance p1 p2.
Proof. apply sqrt_pos. Qed.

Lemma euclideanDistance_sym p1 p2 :
  euclideanDistance p1 p2 = euclideanDistance p2 p1.
Proof. unfold euclideanDistance; f_equal; ring. Qed.

Lemma euclideanDistance_zero p1 p2 : euclideanDistance p1 p2 = 0 <-> p1 = p2.
Proof.
  split.
  - intros H; apply sqrt_sum_squares_zero in H as (Hx & Hy & Hz).
    apply point_eq; lra.
  - intros ->; unfold euclideanDistance.
    replace (_ + _) with 0 by ring; apply sqrt_0.
Qed.

Lemma euclideanDistance_sqr p1 p2 :
  euclideanDistance p1 p2 ^ 2
  = (x p1 - x p2) ^ 2 + (y p1 - y p2) ^ 2 + (z p1 - z p2) ^ 2.
Proof. unfold euclideanDistance; apply pow2_sqrt, sum_squares_nonneg. Qed.

(** The inequality of Cauchy and Schwarz in three dimensions, on the
    lengths. *)
Lemma cauchy3 a1 a2 a3 b1 b2 b3 :
  a1 * b1 + a2 * b2 + a3 * b3
  <= sqrt (a1 ^ 2 + a2 ^ 2 + a3 ^ 2) * sqrt (b1 ^ 2 + b2 ^ 2 + b3 ^ 2).
Proof.
  pose proof (sum_squares_nonneg a1 a2 a3) as Ha.
  pose proof (sum_squares_nonneg b1 b2 b3) as Hb.
  rewrite <- sqrt_mult by assumption.
  destruct (Rle_dec (a1 * b1 + a2 * b2 + a3 * b3) 0) as [N|P].
  - pose proof (sqrt_pos ((a1 ^ 2 + a2 ^ 2 + a3 ^ 2) * (b1 ^ 2 + b2 ^ 2 + b3 ^ 2))).
    lra.
  - apply Rsqr_incr_0_var; [|apply sqrt_pos].
    rewrite Rsqr_sqrt by (apply Rmult_le_pos; assumption).
    unfold Rsqr.
    pose proof (pow2_ge_0 (a1 * b2 - a2 * b1)).
    pose proof (pow2_ge_0 (a1 * b3 - a3 * b1)).
    pose proof (pow2_ge_0 (a2 * b3 - a3 * b2)).
    nra.
Qed.

Lemma euclideanDistance_triangle p1 p2 p3 :
  euclideanDistance p1 p3 <= euclideanDistance p1 p2 + euclideanDistance p2 p3.
Proof.
  pose proof (euclideanDistance_nonneg p1 p2) as H12.
  pose proof (euclideanDistance_nonneg p2 p3) as H23.
  apply Rsqr_incr_0_var; [|lra].
  unfold Rsqr.
  pose proof (euclideanDistance_sqr p1 p3) as S13.
  pose proof (euclideanDistance_sqr p1 p2) as S12.
  pose proof (euclideanDistance_sqr p2 p3) as S23.
  pose proof (cauchy3 (x p1 - x p2) (y p1 - y p2) (z p1 - z p2)
                      (x p2 - x p3) (y p2 - y p3) (z p2 - z p3)) as C.
  fold (euclideanDistance p1 p2) (euclideanDistance p2 p3) in C.
  nra.
Qed.

End Distances.

(** X3. The distance between two landmarks is a metric: it is never
    negative, it does not depend on the order of the two points, it is 0
    exactly when they are the same point, and it obeys the triangle
    inequality. *)
Theorem euclideanDistance_metric (p1 p2 p3 : Utils.Point) :
  0 <= Utils.euclideanDistance p1 p2 /\
  Utils.euclideanDistance p1 p2 = Utils.euclideanDistance p2 p1 /\
  (Utils.euclideanDistance p1 p2 = 0 <-> p1 = p2) /\
  Utils.euclideanDistance p1 p3
  <= Utils.euclideanDistance p1 p2 + Utils.euclideanDistance p2 p3.
Proof.
  refine (conj _ (conj _ (conj _ _))).
  - apply euclideanDistance_nonneg.
  - apply euclideanDistance_sym.
  - apply euclideanDistance_zero.
  - apply euclideanDistance_triangle.
Qed.

Section EyeAspectRatio.

Import Utils Geometry.

Lemma eqb_true a b : a = b -> (a =? b) = true.
Proof. unfold Num.eqb; destruct (Req_dec_T a b); tauto. Qed.

Lemma eqb_false a b : a <> b -> (a =? b) = false.
Proof. unfold Num.eqb; destruct (Req_dec_T a b); tauto. Qed.

Lemma calculateEAR_closed landmarks side :
  landmarks (nth 0 (EYE_INDICES side) O) = landmarks (nth 3 (EYE_INDICES side) O) ->
  calculateEAR landmarks side = 0.
Proof.
  intros H; unfold calculateEAR; cbv zeta.
  now rewrite eqb_true by (apply euclideanDistance_zero; exact H).
Qed.

Lemma calculateEAR_ratio landmarks side :
  landmarks (nth 0 (EYE_INDICES side) O) <> landmarks (nth 3 (EYE_INDICES side) O) ->
  calculateEAR landmarks side
  = (euclideanDistance (landmarks (nth 1 (EYE_INDICES side) O))
                       (landmarks (nth 5 (EYE_INDICES side) O))
     + euclideanDistance (landmarks (nth 2 (EYE_INDICES side) O))
                         (landmarks (nth 4 (EYE_INDICES side) O)))
    / (2 * euclideanDistance (landmarks (nth 0 (EYE_INDICES side) O))
                             (landmarks (nth 3 (EYE_INDICES side) O))).
Proof.
  intros H; unfold calculateEAR; cbv zeta.
  now rewrite eqb_false by (intros E; apply H, euclideanDistance_zero, E).
Qed.

Lemma calculateEAR_nonneg landmarks side : 0 <= calculateEAR landmarks side.
Proof.
  unfold calculateEAR; cbv zeta.
  destruct (_ =? _) eqn:E; [lra|].
  set (h := euclideanDistance _ _) in *.
  assert (Hh : h <> 0)
    by (intros Hh; rewrite (eqb_true _ _ Hh) in E; discriminate).
  pose proof (euclideanDistance_nonneg
                (landmarks (nth 0 (EYE_INDICES side) O))
                (landmarks (nth 3 (EYE_INDICES side) O))) as H0.
  fold h in H0.
  apply Rle_mult_inv_pos; [|lra].
  apply Rplus_le_le_0_compat; apply euclideanDistance_nonneg.
Qed.

Lemma euclideanDistance_translate d landmarks i j :
  euclideanDistance (translate d landmarks i) (translate d landmarks j)
  = euclideanDistance (landmarks i) (landmarks j).
Proof. unfold euclideanDistance, translate; simpl; f_equal; ring. Qed.

Lemma euclideanDistance_scale k landmarks i j :
  euclideanDistance (scale k landmarks i) (scale k landmarks j)
  = Rabs k * euclideanDistance (landmarks i) (landmarks j).
Proof.
  unfold euclideanDistance, scale; simpl.
  rewrite <- sqrt_Rsqr_abs, <- sqrt_mult;
    [|apply Rle_0_sqr|apply sum_squares_nonneg].
  f_equal; unfold Rsqr; ring.
Qed.

Lemma calculateEAR_translate d landmarks side :
  calculateEAR (translate d landmarks) side = calculateEAR landmarks side.
Proof.
  unfold calculateEAR; cbv zeta.
  now rewrite !euclideanDistance_translate.
Qed.

Lemma calculateEAR_scale k landmarks side :
  k <> 0 -> calculateEAR (scale k landmarks) side = calculateEAR landmarks side.
Proof.
  intros Hk; unfold calculateEAR; cbv zeta.
  rewrite !euclideanDistance_scale.
  set (h := euclideanDistance (landmarks (nth 0 _ _)) _).
  assert (Ha : Rabs k <> 0) by (apply Rabs_no_R0; assumption).
  destruct (Req_dec_T h 0) as [E|N].
  - rewrite E, Rmult_0_r, !eqb_true by reflexivity; reflexivity.
  - rewrite !eqb_false; [field; split; assumption | assumption |].
    intros H; apply Rmult_integral in H as [H|H]; contradiction.
Qed.

Lemma calculateEAR_reads landmarks other side :
  (forall i, In i (EYE_INDICES side) -> other i = landmarks i) ->
  calculateEAR other side = calculateEAR landmarks side.
Proof.
  intros H; unfold calculateEAR; cbv zeta.
  rewrite !H; [reflexivity|..]; destruct side; simpl; tauto.
Qed.

End EyeAspectRatio.

(** X4. The eye aspect ratio is never negative.  When the two corners of the
    eye are the same point it is 0 (nothing is divided); otherwise it is
    the sum of the two lid distances over twice the corner distance, and
    so it is 0 exactly when both lid pairs are closed onto each
    other. *)
Theorem calculateEAR_range (landmarks : Utils.Landmarks) (side : Utils.Side) :
  let point k := landmarks (nth k (Utils.EYE_INDICES side) O) in
  0 <= Utils.calculateEAR landmarks side /\
  (point 0%nat = point 3%nat -> Utils.calculateEAR landmarks side = 0) /\
  (point 0%nat <> point 3%nat ->
   Utils.calculateEAR landmarks side
   = (Utils.euclideanDistance (point 1%nat) (point 5%nat)
      + Utils.euclideanDistance (point 2%nat) (point 4%nat))
     / (2 * Utils.euclideanDistance (point 0%nat) (point 3%nat)) /\
   (Utils.calculateEAR landmarks side = 0 <->
    point 1%nat = point 5%nat /\ point 2%nat = point 4%nat)).
Proof.
  intros point; subst point; cbv beta.
  refine (conj (calculateEAR_nonneg _ _) (conj (calculateEAR_closed _ _) _)).
  intros Hc; split; [apply calculateEAR_ratio, Hc|].
  rewrite (calculateEAR_ratio _ _ Hc).
  set (h := Utils.euclideanDistance (landmarks (nth 0 _ _)) _).
  set (v1 := Utils.euclideanDistance (landmarks (nth 1 _ _)) _).
  set (v2 := Utils.euclideanDistance (landmarks (nth 2 _ _)) _).
  assert (Hh : 0 < h).
  { pose proof (euclideanDistance_nonneg
                  (landmarks (nth 0 (Utils.EYE_INDICES side) O))
                  (landmarks (nth 3 (Utils.EYE_INDICES side) O))) as H0.
    fold h in H0.
    assert (h <> 0) by (intros E; apply Hc, euclideanDistance_zero, E).
    lra. }
  assert (H1 : 0 <= v1) by apply euclideanDistance_nonneg.
  assert (H2 : 0 <= v2) by apply euclideanDistance_nonneg.
  split.
  - intros E.
    assert (S : v1 + v2 = 0).
    { apply (Rmult_eq_compat_r (2 * h)) in E.
      replace ((v1 + v2) / (2 * h) * (2 * h)) with (v1 + v2) in E
        by (field; lra).
      lra. }
    split; apply euclideanDistance_zero; [fold v1 | fold v2]; lra.
  - intros [E1 E2].
    apply euclideanDistance_zero in E1, E2.
    fold v1 in E1; fold v2 in E2; rewrite E1, E2.
    field; lra.
Qed.

(** X5. The eye aspect ratio reads the six landmarks of the eye and no
    others, and it is the same wherever the face is and however large it
    appears: moving every landmark by the same vector, or multiplying
    every coordinate by the same number other than 0, leaves it as it
    is. *)
Theorem calculateEAR_invariant (landmarks : Utils.Landmarks) (side : Utils.Side) :
  (forall d,
     Utils.calculateEAR (Geometry.translate d landmarks) side
     = Utils.calculateEAR landmarks side) /\
  (forall k, k <> 0 ->
     Utils.calculateEAR (Geometry.scale k landmarks) side
     = Utils.calculateEAR landmarks side) /\
  (forall other,
     (forall i, In i (Utils.EYE_INDICES side) -> other i = landmarks i) ->
     Utils.calculateEAR other side = Utils.calculateEAR landmarks side).
Proof.
  refine (conj _ (conj _ _)).
  - intros d; apply calculateEAR_translate.
  - intros k Hk; apply calculateEAR_scale, Hk.
  - intros other H; apply calculateEAR_reads, H.
Qed.

Section HeadTurn.

Import Utils Geometry.

(** The depth difference of two points is at most their distance. *)
Lemma depth_le_distance p1 p2 : Rabs (z p1 - z p2) <= euclideanDistance p1 p2.
Proof.
  unfold euclideanDistance.
  rewrite <- sqrt_Rsqr_abs.
  apply sqrt_le_1_alt; unfold Rsqr.
  pose proof (pow2_ge_0 (x p1 - x p2)); pose proof (pow2_ge_0 (y p1 - y p2)).
  nra.
Qed.

Lemma calculateHeadTurnV2_cheeks landmarks :
  calculateHeadTurnV2 landmarks
  = if euclideanDistance (landmarks leftCheek) (landmarks rightCheek) <? 0.1
    then 0
    else (z (landmarks rightCheek) - z (landmarks leftCheek))
         / euclideanDistance (landmarks leftCheek) (landmarks rightCheek).
Proof.
  unfold calculateHeadTurnV2; cbv zeta.
  destruct (_ <? _); [reflexivity|].
  f_equal; ring.
Qed.

Lemma calculateHeadTurnV2_bounded landmarks :
  -1 <= calculateHeadTurnV2 landmarks <= 1.
Proof.
  rewrite calculateHeadTurnV2_cheeks.
  destruct (_ <? _) eqn:E; [lra|].
  set (w := euclideanDistance _ _) in *.
  assert (Hw : 0.1 <= w).
  { destruct (Rlt_dec w 0.1) as [L|N]; [|lra].
    rewrite (ltb_true _ _ L) in E; discriminate. }
  pose proof (depth_le_distance (landmarks rightCheek) (landmarks leftCheek)) as H.
  rewrite (euclideanDistance_sym (landmarks rightCheek)) in H; fold w in H.
  pose proof (Rle_abs (z (landmarks rightCheek) - z (landmarks leftCheek))) as Hp.
  pose proof (Rle_abs (- (z (landmarks rightCheek) - z (landmarks leftCheek)))) as Hn.
  rewrite Rabs_Ropp in Hn.
  split.
  - apply (Rmult_le_reg_r w); [lra|].
    replace (_ / w * w) with (z (landmarks rightCheek) - z (landmarks leftCheek))
      by (field; lra).
    lra.
  - apply (Rmult_le_reg_r w); [lra|].
    replace (_ / w * w) with (z (landmarks rightCheek) - z (landmarks leftCheek))
      by (field; lra).
    lra.
Qed.

Lemma calculateHeadTurnV2_chin q landmarks :
  calculateHeadTurnV2 (Fixture.put chin q landmarks)
  = calculateHeadTurnV2 landmarks.
Proof. rewrite !calculateHeadTurnV2_cheeks; reflexivity. Qed.

Lemma calculateHeadTurnV2_exchange landmarks :
  calculateHeadTurnV2 (exchangeCheeks landmarks) = - calculateHeadTurnV2 landmarks.
Proof.
  rewrite !calculateHeadTurnV2_cheeks.
  unfold exchangeCheeks, Fixture.put; simpl.
  rewrite (euclideanDistance_sym (landmarks rightCheek)).
  destruct (_ <? _); [ring|].
  unfold Rdiv; ring.
Qed.

Lemma calculateHeadTurnV2_translate d landmarks :
  calculateHeadTurnV2 (translate d landmarks) = calculateHeadTurnV2 landmarks.
Proof.
  rewrite !calculateHeadTurnV2_cheeks, euclideanDistance_translate.
  destruct (_ <? _); [reflexivity|].
  f_equal; unfold translate; simpl; ring.
Qed.

End HeadTurn.

(** X6. The head turn ratio always lies between -1 and 1.  It does not
    depend on the chin landmark (the two depths are taken relative to the
    chin, and the chin cancels in their difference) nor on where the face
    is, and exchanging the two cheek landmarks changes its sign. *)
Theorem calculateHeadTurnV2_range (landmarks : Utils.Landmarks) :
  -1 <= Utils.calculateHeadTurnV2 landmarks <= 1 /\
  (forall q,
     Utils.calculateHeadTurnV2 (Fixture.put Utils.chin q landmarks)
     = Utils.calculateHeadTurnV2 landmarks) /\
  (forall d,
     Utils.calculateHeadTurnV2 (Geometry.translate d landmarks)
     = Utils.calculateHeadTurnV2 landmarks) /\
  Utils.calculateHeadTurnV2 (Geometry.exchangeCheeks landmarks)
  = - Utils.calculateHeadTurnV2 landmarks.
Proof.
  refine (conj (calculateHeadTurnV2_bounded _) (conj _ (conj _ _))).
  - intros q; apply calculateHeadTurnV2_chin.
  - intros d; apply calculateHeadTurnV2_translate.
  - apply calculateHeadTurnV2_exchange.
Qed.

(** X7. With a head turn threshold of 1 or more no frame passes a turn
    challenge, whatever the face does: the ratio never exceeds 1. *)
Theorem turn_threshold_out_of_reach (w : Engine.World) (landmarks : Utils.Landmarks) :
  Engine.headTurnThreshold (Engine.config w) >= 1 ->
  Session.currentChallenge w = Some Engine.TURN_LEFT \/
  Session.currentChallenge w = Some Engine.TURN_RIGHT ->
  Session.challengePassed landmarks w = false.
Proof.
  intros Ht Hc.
  pose proof (calculateHeadTurnV2_bounded landmarks) as [Hl Hu].
  unfold Session.challengePassed, Engine.evaluate.
  unfold Session.currentChallenge in Hc.
  destruct Hc as [-> | ->].
  - rewrite gtb_false by lra; reflexivity.
  - rewrite ltb_false by lra; reflexivity.
Qed.

(** ** Similarity scores *)

Section Similarity.

Import Utils.

Lemma cosine_dot a b :
  length a = length b -> calculateCosineSimilarity (Some a) (Some b) = Vec.dot a b.
Proof.
  intros Hl; unfold calculateCosineSimilarity.
  rewrite (proj2 (Nat.eqb_eq _ _) Hl); now apply dotProduct_loop_dot.
Qed.

Lemma dot_comm a b : Vec.dot a b = Vec.dot b a.
Proof.
  revert b; induction a as [|u a IH]; intros [|v b]; simpl; try reflexivity.
  rewrite IH; ring.
Qed.

Lemma cosine_comm vecA vecB :
  calculateCosineSimilarity vecA vecB = calculateCosineSimilarity vecB vecA.
Proof.
  destruct vecA as [a|], vecB as [b|]; try reflexivity.
  unfold calculateCosineSimilarity.
  rewrite (Nat.eqb_sym (length b)).
  destruct (Nat.eqb (length a) (length b)) eqn:E; [|reflexivity].
  apply Nat.eqb_eq in E.
  rewrite !dotProduct_loop_dot by congruence.
  apply dot_comm.
Qed.

(** The quadratic form of two vectors is positive semi-definite. *)
Lemma dot_form a b s t :
  0 <= s * s * Vec.dot a a + 2 * (s * t) * Vec.dot a b + t * t * Vec.dot b b.
Proof.
  revert b; induction a as [|u a IH]; intros [|v b]; simpl.
  - lra.
  - pose proof (dot_self_nonneg b); pose proof (Rle_0_sqr t) as Ht;
      pose proof (Rle_0_sqr v) as Hv; unfold Rsqr in *; nra.
  - pose proof (dot_self_nonneg a); pose proof (Rle_0_sqr s) as Hs;
      pose proof (Rle_0_sqr u) as Hu; unfold Rsqr in *; nra.
  - pose proof (IH b) as H.
    pose proof (Rle_0_sqr (s * u + t * v)) as Hq; unfold Rsqr in Hq.
    nra.
Qed.

(** The inequality of Cauchy and Schwarz. *)
Lemma cauchy_schwarz a b :
  Vec.dot a b * Vec.dot a b <= Vec.dot a a * Vec.dot b b.
Proof.
  pose proof (dot_self_nonneg a) as Ha.
  pose proof (dot_self_nonneg b) as Hb.
  set (A := Vec.dot a a) in *; set (B := Vec.dot b b) in *;
    set (D := Vec.dot a b).
  destruct (Req_dec_T B 0) as [B0|Bn].
  - assert (D0 : D = 0).
    { destruct (Req_dec_T D 0) as [E|N]; [exact E|exfalso].
      pose proof (dot_form a b 1 (- (A + 1) / (2 * D))) as H.
      fold A B D in H; rewrite B0 in H.
      replace (1 * 1 * A + 2 * (1 * (- (A + 1) / (2 * D))) * D
               + - (A + 1) / (2 * D) * (- (A + 1) / (2 * D)) * 0)
        with (-1) in H by (field; assumption).
      lra. }
    rewrite D0, B0; lra.
  - pose proof (dot_form a b B (- D)) as H; fold A B D in H.
    assert (HB : 0 < B) by lra.
    replace (B * B * A + 2 * (B * - D) * D + - D * - D * B)
      with (B * (A * B - D * D)) in H by ring.
    assert (0 <= A * B - D * D); [|lra].
    apply (Rmult_le_reg_l B); [assumption|lra].
Qed.

Lemma dot_le_norms a b : Rabs (Vec.dot a b) <= Vec.norm a * Vec.norm b.
Proof.
  unfold Vec.norm.
  rewrite <- sqrt_mult by apply dot_self_nonneg.
  rewrite <- sqrt_Rsqr_abs.
  apply sqrt_le_1_alt; unfold Rsqr.
  apply cauchy_schwarz.
Qed.

Lemma norm_nonneg v : 0 <= Vec.norm v.
Proof. apply sqrt_pos. Qed.

Lemma cosine_le_norms a b :
  Rabs (calculateCosineSimilarity (Some a) (Some b)) <= Vec.norm a * Vec.norm b.
Proof.
  unfold calculateCosineSimilarity.
  destruct (Nat.eqb (length a) (length b)) eqn:E.
  - apply Nat.eqb_eq in E.
    rewrite dotProduct_loop_dot by assumption.
    apply dot_le_norms.
  - rewrite Rabs_R0.
    apply Rmult_le_pos; apply norm_nonneg.
Qed.

End Similarity.

(** X8. The similarity score does not depend on the order of its two
    arguments.  Its absolute value is at most the product of the two
    Euclidean norms, so on unit vectors it lies between -1 and 1; on
    vectors that are not normalised nothing bounds it. *)
Theorem calculateCosineSimilarity_bounds :
  (forall vecA vecB,
     Utils.calculateCosineSimilarity vecA vecB
     = Utils.calculateCosineSimilarity vecB vecA) /\
  (forall a b,
     Rabs (Utils.calculateCosineSimilarity (Some a) (Some b))
     <= Vec.norm a * Vec.norm b) /\
  (forall a b, Vec.unit a -> Vec.unit b ->
     -1 <= Utils.calculateCosineSimilarity (Some a) (Some b) <= 1) /\
  (forall k, Utils.calculateCosineSimilarity (Some [k]) (Some [k]) = k * k).
Proof.
  refine (conj cosine_comm (conj cosine_le_norms (conj _ _))).
  - intros a b Ha Hb.
    pose proof (cosine_le_norms a b) as H.
    rewrite Ha, Hb in H.
    set (s := Utils.calculateCosineSimilarity _ _) in *.
    pose proof (Rle_abs s); pose proof (Rle_abs (- s)) as Hn.
    rewrite Rabs_Ropp in Hn; lra.
  - intros k; rewrite cosine_dot by reflexivity; simpl; ring.
Qed.

Section Descriptors.

Import Engine.

Lemma map_div_one v : map (fun x => x / 1) v = v.
Proof.
  induction v as [|u v IH]; simpl; [reflexivity|].
  rewrite IH; f_equal; field.
Qed.

Lemma normalize_small prediction :
  ~ Vec.norm prediction > 1e-6 -> normalize prediction = prediction.
Proof. intros H; unfold normalize; now rewrite gtb_false. Qed.

Lemma normalize_again prediction :
  normalize (normalize prediction) = normalize prediction.
Proof.
  destruct (Rgt_dec (Vec.norm prediction) 1e-6) as [G|N].
  - pose proof (normalize_unit prediction G) as Hu.
    unfold normalize at 1.
    rewrite Hu, gtb_true by lra.
    apply map_div_one.
  - now rewrite !normalize_small by (rewrite ?normalize_small; assumption).
Qed.

Lemma normalize_norm prediction :
  Vec.norm (normalize prediction) = 1 \/ Vec.norm (normalize prediction) <= 1e-6.
Proof.
  destruct (Rgt_dec (Vec.norm prediction) 1e-6) as [G|N].
  - left; apply normalize_unit, G.
  - right; rewrite normalize_small by assumption; lra.
Qed.

End Descriptors.

(** X9. Normalising a descriptor twice is the same as normalising it once,
    and a normalised descriptor has the length of the embedding and a
    norm that is either 1 or at most 1e-6: nothing in between is ever
    emitted. *)
Theorem normalize_idempotent (prediction : list R) :
  Engine.normalize (Engine.normalize prediction) = Engine.normalize prediction /\
  length (Engine.normalize prediction) = length prediction /\
  (Vec.norm (Engine.normalize prediction) = 1 \/
   Vec.norm (Engine.normalize prediction) <= 1e-6).
Proof.
  refine (conj (normalize_again _) (conj (normalize_length _) (normalize_norm _))).
Qed.

(** X10. The similarity of an emitted descriptor with itself is 1 when the
    embedding had a norm above 1e-6, and at most 1e-12 otherwise: the
    descriptor of a near-zero embedding does not even match itself at
    the 0.8 threshold. *)
Theorem descriptor_self_similarity (prediction : list R) :
  let descriptor := Some (Engine.normalize prediction) in
  (Vec.norm prediction > 1e-6 ->
   Utils.calculateCosineSimilarity descriptor descriptor = 1) /\
  (~ Vec.norm prediction > 1e-6 ->
   0 <= Utils.calculateCosineSimilarity descriptor descriptor <= 1e-12).
Proof.
  intros descriptor; subst descriptor; split; intros H.
  - rewrite cosine_dot by reflexivity.
    apply unit_dot, normalize_unit, H.
  - rewrite cosine_dot, normalize_small by (reflexivity || assumption).
    rewrite <- norm_sqr.
    pose proof (norm_nonneg prediction).
    split; [apply pow2_ge_0|nra].
Qed.

(** ** Before the models are loaded *)

Section Unloaded.

Import Engine Runs.

Lemma unloaded_step cfg log i :
  i <> Load true ->
  step (set_callbackLog log (new cfg)) i
  = set_callbackLog
      (log ++ if isLoad i then [onFailure MODEL_LOAD_FAILED] else [])
      (new cfg).
Proof.
  intros Hi;
    destruct i as [[|]|now random video canvas rs| |id now rs| |now faces|now pred];
    cbn; rewrite ?app_nil_r; try reflexivity.
  now elim Hi.
Qed.

Lemma unloaded_run cfg inputs : forall log,
  Forall (fun i => i <> Load true) inputs ->
  run (set_callbackLog log (new cfg)) inputs
  = set_callbackLog
      (log ++ repeat (onFailure MODEL_LOAD_FAILED) (length (filter isLoad inputs)))
      (new cfg).
Proof.
  induction inputs as [|i l IH]; intros log H.
  - cbn; now rewrite app_nil_r.
  - inversion H as [|? ? Hi Hl]; subst.
    rewrite run_cons, unloaded_step by assumption.
    rewrite IH by assumption.
    destruct (isLoad i) eqn:E; cbn [filter]; rewrite E; cbn [length repeat].
    + now rewrite <- app_assoc.
    + now rewrite app_nil_r.
Qed.

End Unloaded.

(** X11. Until [load] has succeeded the engine is inert: whatever is called
    and whatever the host delivers, every field keeps the value the
    constructor gave it, nothing is called but [onFailure] with
    MODEL_LOAD_FAILED, once for each load that failed, and [start]
    throws. *)
Theorem unloaded_engine_is_inert (cfg : Engine.Config) (inputs : list Engine.Input) :
  Forall (fun i => i <> Engine.Load true) inputs ->
  let w := Engine.run (Engine.new cfg) inputs in
  w = Engine.set_callbackLog
        (repeat (Engine.onFailure Engine.MODEL_LOAD_FAILED)
                (length (filter Runs.isLoad inputs)))
        (Engine.new cfg) /\
  forall now random video canvas readyState,
    Engine.start now random video canvas readyState w
    = Engine.Thrown "Engine not loaded. Call load() first.".
Proof.
  intros H w; subst w.
  pose proof (unloaded_run cfg inputs [] H) as E.
  change (Engine.set_callbackLog [] (Engine.new cfg)) with (Engine.new cfg) in E.
  rewrite E; split; reflexivity.
Qed.

(** ** The rate of the frames *)

Section Budget.

Import Engine Runs.

(** What the scheduler keeps: the configuration, the time of the last
    frame and the number of frames sent. *)
Lemma stop_schedule w :
  config (stop w) = config w /\ lastFrameTime (stop w) = lastFrameTime w /\
  framesSent (stop w) = framesSent w.
Proof. unfold stop; break_match; cbn; tauto. Qed.

Lemma onFaceMeshResults_schedule now faces w :
  let w' := onFaceMeshResults now faces w in
  config w' = config w /\ lastFrameTime w' = lastFrameTime w /\
  framesSent w' = framesSent w.
Proof.
  cbv zeta; unfold onFaceMeshResults, processChallenge, evaluate, failChallenge,
    drawDebugOverlay, stop.
  break_match; cbn; tauto.
Qed.

Lemma moveToNextChallenge_schedule now prediction w :
  let w' := moveToNextChallenge now prediction w in
  config w' = config w /\ lastFrameTime w' = lastFrameTime w /\
  framesSent w' = framesSent w.
Proof.
  cbv zeta; unfold moveToNextChallenge, completeLiveness, failChallenge, stop.
  break_match; cbn; tauto.
Qed.






End Budget.


(** ** After the session has stopped *)

Section Stopped.

Import Engine Session Runs.

Lemma stopped_step_frames w i :
  isStopped w = true -> notStart i -> framesSent (step w i) = framesSent w.
Proof.
  intros Hs Hn;
    destruct i as [ok|now random video canvas rs| |id now rs| |now faces|now pred];
    cbn [step].
  - unfold load; destruct ok; reflexivity.
  - elim Hn.
  - apply stop_schedule.
  - destruct (existsb _ _); [|reflexivity].
    unfold detectionLoop; cbn; rewrite Hs; reflexivity.
  - destruct (awaitingSend w); reflexivity.
  - apply onFaceMeshResults_schedule.
  - destruct (settleTimers w); [reflexivity|].
    apply (moveToNextChallenge_schedule now pred (set_settleTimers n w)).
Qed.

Lemma stopped_vstep v i :
  vstopped v = true -> notStart i ->
  vstopped (vstep v i) = true /\
  (notLoad i ->
   exists l, vlog (vstep v i) = vlog v ++ l /\
             (length l + 2 * vtimers (vstep v i) <= 2 * vtimers v)%nat).
Proof.
  intros Hs Hn;
    destruct i as [ok|now random video canvas rs| |id now rs| |now faces|now pred];
    cbn [vstep].
  - split; [assumption|intros []].
  - elim Hn.
  - split; [reflexivity|intros _; exists []; cbn; rewrite app_nil_r; split; [reflexivity|lia]].
  - split; [assumption|intros _; exists []; rewrite app_nil_r; split; [reflexivity|cbn; lia]].
  - split; [assumption|intros _; exists []; rewrite app_nil_r; split; [reflexivity|cbn; lia]].
  - rewrite Hs.
    split; [assumption|intros _; exists []; rewrite app_nil_r; split; [reflexivity|cbn; lia]].
  - destruct (vtimers v) as [|n] eqn:Ht.
    + split; [assumption|intros _; exists []; rewrite app_nil_r, Ht; split; [reflexivity|cbn; lia]].
    + destruct (_ <=? _)%nat; cbn.
      * split; [reflexivity|intros _; eexists; split; [reflexivity|cbn; lia]].
      * split; [assumption|intros _; eexists; split; [reflexivity|cbn; lia]].
Qed.

End Stopped.

(** ** After the session has stopped, with the [await] of
    [#completeLiveness] *)

Section Awaited.

Import Engine Session.

Lemma completion_cons w i l :
  Completion.run w (i :: l) = Completion.run (Completion.step w i) l.
Proof. reflexivity. Qed.

Lemma without_length {A : Type} (l : list A) : forall k a,
  nth_error l k = Some a -> S (length (Completion.without k l)) = length l.
Proof.
  induction l as [|b rest IH]; intros [|k] a H; try discriminate H.
  - reflexivity.
  - cbn; f_equal; now apply (IH k a).
Qed.

Lemma nth_error_last {A : Type} (l : list A) a :
  nth_error (l ++ [a]) (length l) = Some a.
Proof. induction l as [|b rest IH]; [reflexivity|exact IH]. Qed.

Lemma without_last {A : Type} (l : list A) a :
  Completion.without (length l) (l ++ [a]) = l.
Proof. induction l as [|b rest IH]; [reflexivity|cbn; now rewrite IH]. Qed.

(** The settle timer that completes the session, up to the [await]. *)
Lemma completion_begins w now predictionTensor n :
  settleTimers (Completion.engine w) = S n ->
  (length (challenges (Completion.engine w))
   <= S (currentChallengeIndex (Completion.engine w)))%nat ->
  let w' :=
    Completion.step w
      (Completion.Host (SettleTimeout now (Some predictionTensor))) in
  isStopped (Completion.engine w') = true /\
  settleTimers (Completion.engine w') = n /\
  callbackLog (Completion.engine w')
  = callbackLog (Completion.engine w) ++ [onChallengeChanged (Some PROCESSING)] /\
  Completion.awaitingData w'
  = Completion.awaitingData w ++ [normalize predictionTensor].
Proof.
  intros Ht Hi; cbv zeta; cbn [Completion.step]; rewrite Ht.
  unfold Completion.moveToNextChallenge.
  cbn [Completion.engine Completion.awaitingData challenges
       currentChallengeIndex set_hasDetectedOpenEyes
       set_currentChallengeIndex set_settleTimers].
  rewrite (proj2 (Nat.leb_le _ _) Hi).
  unfold Completion.completeLiveness, stop.
  cbn [Completion.engine Completion.awaitingData].
  break_match; cbn; auto.
Qed.

(** The data of an awaited tensor arrives. *)
Lemma completion_resumes w k descriptorArray :
  nth_error (Completion.awaitingData w) k = Some descriptorArray ->
  let w' := Completion.step w (Completion.DataResolved k true) in
  callbackLog (Completion.engine w')
  = callbackLog (Completion.engine w) ++ [onSuccess descriptorArray] /\
  isStopped (Completion.engine w') = isStopped (Completion.engine w) /\
  Completion.awaitingData w'
  = Completion.without k (Completion.awaitingData w).
Proof.
  intros H; cbv zeta; cbn [Completion.step]; rewrite H; cbn; auto.
Qed.

(** When the [await] resumes before anything else runs, the two halves
    are [Engine.step] on the settle timer. *)
Lemma await_collapsed w now prediction :
  Completion.engine
    (Completion.run w
       [ Completion.Host (SettleTimeout now prediction);
         Completion.DataResolved (length (Completion.awaitingData w)) true ])
  = Engine.step (Completion.engine w) (SettleTimeout now prediction).
Proof.
  assert (None_ : forall (l : list (list R)), nth_error l (length l) = None)
    by (intros l; apply nth_error_None; lia).
  cbn [Completion.run fold_left Completion.step Engine.step].
  destruct (settleTimers (Completion.engine w)) as [|n];
    [now rewrite None_|].
  unfold Completion.moveToNextChallenge, moveToNextChallenge.
  cbn [Completion.engine Completion.awaitingData].
  destruct (_ <=? _)%nat.
  - unfold Completion.completeLiveness, completeLiveness.
    cbn [Completion.engine Completion.awaitingData].
    destruct prediction as [predictionTensor|];
      cbn [Completion.engine Completion.awaitingData].
    + now rewrite nth_error_last.
    + now rewrite None_.
  - cbn [Completion.engine Completion.awaitingData]; now rewrite None_.
Qed.

Lemma stopped_awaited_step w i :
  isStopped (Completion.engine w) = true -> Completion.notStart i ->
  let w' := Completion.step w i in
  isStopped (Completion.engine w') = true /\
  framesSent (Completion.engine w') = framesSent (Completion.engine w) /\
  (Completion.notLoad i ->
   exists l,
     callbackLog (Completion.engine w')
     = callbackLog (Completion.engine w) ++ l /\
     (length l + 2 * settleTimers (Completion.engine w')
      + length (Completion.awaitingData w')
      <= 2 * settleTimers (Completion.engine w)
         + length (Completion.awaitingData w))%nat).
Proof.
  intros Hs Hn; cbv zeta.
  assert (Host : forall j,
            Runs.notStart j ->
            isStopped (Engine.step (Completion.engine w) j) = true /\
            framesSent (Engine.step (Completion.engine w) j)
            = framesSent (Completion.engine w) /\
            (Runs.notLoad j ->
             exists l,
               callbackLog (Engine.step (Completion.engine w) j)
               = callbackLog (Completion.engine w) ++ l /\
               (length l + 2 * settleTimers (Engine.step (Completion.engine w) j)
                + length (Completion.awaitingData w)
                <= 2 * settleTimers (Completion.engine w)
                   + length (Completion.awaitingData w))%nat)).
  { intros j Hj.
    pose proof (stopped_vstep (view (Completion.engine w)) j Hs Hj) as [V1 V2].
    rewrite <- simulation in V1, V2.
    cbn [view vstopped vlog vtimers] in V1, V2.
    split; [exact V1|split; [now apply stopped_step_frames|]].
    intros Hl; destruct (V2 Hl) as (l & E & B).
    exists l; split; [exact E|lia]. }
  destruct i as [[ok|now random video canvas rs| |id now rs| |now faces|now pred]
                |k ok];
    try (apply (Host _ Hn)).
  - (* the settle timer *)
    cbn [Completion.step].
    destruct (settleTimers (Completion.engine w)) as [|n] eqn:Ht.
    { split; [assumption|split; [reflexivity|]].
      intros _; exists []; rewrite app_nil_r, Ht; split; [reflexivity|cbn; lia]. }
    unfold Completion.moveToNextChallenge.
    cbn [Completion.engine Completion.awaitingData].
    destruct (_ <=? _)%nat.
    + unfold Completion.completeLiveness, failChallenge, stop.
      cbn [Completion.engine Completion.awaitingData].
      destruct pred as [predictionTensor|];
        cbn [Completion.engine Completion.awaitingData].
      * split; [break_match; reflexivity|].
        split; [break_match; reflexivity|].
        intros _; exists [onChallengeChanged (Some PROCESSING)].
        split; [break_match; reflexivity|].
        rewrite length_app; break_match; cbn; lia.
      * split; [break_match; reflexivity|].
        split; [break_match; reflexivity|].
        intros _; exists [onChallengeChanged (Some PROCESSING);
                          onFailure RECOGNITION_FAILED].
        split; [break_match; cbn; now rewrite <- app_assoc|].
        break_match; cbn; lia.
    + cbn; rewrite Hs.
      split; [reflexivity|split; [reflexivity|]].
      intros _; eexists; split; [reflexivity|cbn; lia].
  - (* the data of a tensor *)
    cbn [Completion.step].
    destruct (nth_error (Completion.awaitingData w) k) as [d|] eqn:E.
    + pose proof (without_length _ _ _ E) as L.
      unfold Completion.completeLiveness_resume, failChallenge, stop.
      cbn [Completion.engine Completion.awaitingData].
      destruct ok.
      * cbn; rewrite Hs.
        split; [reflexivity|split; [reflexivity|]].
        intros _; eexists; split; [reflexivity|cbn; lia].
      * split; [break_match; reflexivity|].
        split; [break_match; reflexivity|].
        intros _; exists [onFailure RECOGNITION_FAILED].
        split; [break_match; reflexivity|].
        break_match; cbn; lia.
    + split; [assumption|split; [reflexivity|]].
      intros _; exists []; rewrite app_nil_r; split; [reflexivity|cbn; lia].
Qed.

Lemma stopped_awaited_run inputs : forall w,
  isStopped (Completion.engine w) = true ->
  Forall Completion.notStart inputs ->
  let w' := Completion.run w inputs in
  isStopped (Completion.engine w') = true /\
  framesSent (Completion.engine w') = framesSent (Completion.engine w) /\
  (Forall Completion.notLoad inputs ->
   exists l,
     callbackLog (Completion.engine w')
     = callbackLog (Completion.engine w) ++ l /\
     (length l + 2 * settleTimers (Completion.engine w')
      + length (Completion.awaitingData w')
      <= 2 * settleTimers (Completion.engine w)
         + length (Completion.awaitingData w))%nat).
Proof.
  induction inputs as [|i rest IH]; intros w Hs Hn; cbv zeta.
  - split; [assumption|split; [reflexivity|]].
    intros _; exists []; rewrite app_nil_r; split; [reflexivity|cbn; lia].
  - inversion Hn as [|? ? Hi Hrest]; subst.
    rewrite completion_cons.
    destruct (stopped_awaited_step w i Hs Hi) as (S1 & F1 & L1).
    destruct (IH (Completion.step w i) S1 Hrest) as (S2 & F2 & L2).
    split; [assumption|split; [congruence|]].
    intros Hl; inversion Hl as [|? ? Hl1 Hl2]; subst.
    destruct (L1 Hl1) as (l1 & E1 & B1).
    destruct (L2 Hl2) as (l2 & E2 & B2).
    exists (l1 ++ l2); split.
    + rewrite E2, E1; symmetry; apply app_assoc.
    + rewrite length_app; lia.
Qed.

End Awaited.

(** X13. Once the engine is stopped it stays stopped until [start] is
    called, and no frame is sent to the face mesh.  What can still call
    back, [load] apart, are the settle timers that were pending when it
    stopped, each at most twice, and the descriptor extractions that
    were awaited, each once: with no timer pending and no extraction
    awaited, nothing is called at all. *)
Theorem stopped_engine_is_quiet (w : Completion.World)
        (inputs : list Completion.Input) :
  Engine.isStopped (Completion.engine w) = true ->
  Forall Completion.notStart inputs ->
  let w' := Completion.run w inputs in
  Engine.isStopped (Completion.engine w') = true /\
  Engine.framesSent (Completion.engine w')
  = Engine.framesSent (Completion.engine w) /\
  (Forall Completion.notLoad inputs ->
   (exists l,
      Engine.callbackLog (Completion.engine w')
      = Engine.callbackLog (Completion.engine w) ++ l /\
      (length l
       <= 2 * Engine.settleTimers (Completion.engine w)
          + length (Completion.awaitingData w))%nat) /\
   (Engine.settleTimers (Completion.engine w) = O ->
    Completion.awaitingData w = [] ->
    Engine.callbackLog (Completion.engine w')
    = Engine.callbackLog (Completion.engine w))).
Proof.
  intros Hs Hn w'; subst w'.
  destruct (stopped_awaited_run inputs w Hs Hn) as (H1 & H2 & H3).
  refine (conj H1 (conj H2 _)).
  intros Hl; destruct (H3 Hl) as (l & E & B).
  split.
  - exists l; split; [assumption|lia].
  - intros Ht Ha; rewrite Ht, Ha in B.
    destruct l; [now rewrite app_nil_r in E|cbn in B; lia].
Qed.

(** ** One detection loop *)

Section SingleLoop.

Import Engine Runs.

Lemma singleLoop_same w w' : sameLoop w w' -> singleLoop w -> singleLoop w'.
Proof.
  unfold sameLoop, singleLoop, activations.
  intros (-> & -> & -> & ->); tauto.
Qed.

Ltac by_same w :=
  apply (singleLoop_same w); [unfold sameLoop; cbn; tauto|assumption].

Lemma idle_singleLoop w : idle w -> singleLoop w.
Proof.
  unfold idle, singleLoop, activations; intros (-> & -> & H).
  split; [cbn; lia|split; [intros id []|assumption]].
Qed.

(** A request that is pending is the only one, and no send is awaited. *)
Lemma singleLoop_pending w id :
  singleLoop w -> In id (frameRequests w) ->
  frameRequests w = [id] /\ detectionLoopId w = Some id /\ id <> O /\
  awaitingSend w = O.
Proof.
  unfold singleLoop, activations; intros (Ha & Hi & Hn) Hin.
  destruct (Hi id Hin) as [Hd H0].
  destruct (frameRequests w) as [|a [|b l]]; cbn in *; try lia; try contradiction.
  destruct Hin as [->|[]]; repeat split; try assumption; lia.
Qed.

Lemma singleLoop_cancel w id :
  singleLoop w -> detectionLoopId w = Some id ->
  frameRequests (cancelAnimationFrame id w) = [].
Proof.
  intros H Hd; cbn.
  destruct (frameRequests w) as [|a l] eqn:E; [reflexivity|].
  destruct (singleLoop_pending w a H) as (E' & Hd' & _); [rewrite E; now left|].
  rewrite E in E'; injection E' as ->.
  assert (a = id) by congruence; subst a.
  cbn; destruct (Nat.eq_dec id id); [reflexivity|contradiction].
Qed.

Lemma stop_singleLoop w : singleLoop w -> singleLoop (stop w).
Proof.
  intros H; unfold stop; cbn.
  destruct (detectionLoopId w) as [[|n]|] eqn:Hd.
  - destruct (canvasCtx _); by_same w.
  - pose proof (singleLoop_cancel w (S n) H Hd) as Hc; cbn in Hc.
    destruct H as (Ha & _ & Hn); unfold activations in Ha.
    destruct (canvasCtx _); cbn;
      unfold singleLoop, activations; cbn; rewrite Hc; cbn;
      (split; [lia|split; [intros ? []|assumption]]).
  - destruct (canvasCtx _); by_same w.
Qed.

Lemma requestAnimationFrame_idle w :
  idle w -> singleLoop (requestAnimationFrame w).
Proof.
  unfold idle, singleLoop, activations, requestAnimationFrame.
  intros (Hr & Ha & Hn); cbn; rewrite Hr, Ha; cbn.
  split; [lia|split; [|lia]].
  intros id [<-|[]]; split; [reflexivity|assumption].
Qed.

Lemma detectionLoop_idle now readyState w :
  idle w -> singleLoop (detectionLoop now readyState w).
Proof.
  intros H; unfold detectionLoop.
  destruct (_ || _).
  - destruct (negb _); [apply requestAnimationFrame_idle|apply idle_singleLoop];
      assumption.
  - destruct (_ >? _); [|apply requestAnimationFrame_idle, H].
    destruct H as (Hr & Ha & Hn).
    unfold singleLoop, activations; cbn; rewrite Hr, Ha; cbn.
    split; [lia|split; [intros ? []|assumption]].
Qed.

Lemma failChallenge_loop code w : sameLoop (stop w) (failChallenge code w).
Proof. unfold failChallenge, emit, sameLoop; cbn; tauto. Qed.

Lemma drawDebugOverlay_loop faces w : sameLoop w (drawDebugOverlay faces w).
Proof. unfold drawDebugOverlay, sameLoop; break_match; cbn; tauto. Qed.

Lemma evaluate_loop landmarks w :
  let '(w', _, _, _) := evaluate landmarks w in sameLoop w w'.
Proof. unfold evaluate, sameLoop; break_match; cbn; tauto. Qed.

Lemma processChallenge_singleLoop now landmarks w :
  singleLoop w -> singleLoop (processChallenge now landmarks w).
Proof.
  intros H; unfold processChallenge.
  destruct (isChallengeProcessing w); [assumption|].
  pose proof (evaluate_loop landmarks w) as He.
  destruct (evaluate landmarks w) as [[[w1 passed] progress] rawValue].
  destruct passed.
  - apply (singleLoop_same w1); [unfold sameLoop; cbn; tauto|].
    apply (singleLoop_same w); assumption.
  - destruct (_ >? _).
    + apply (singleLoop_same _ _ (failChallenge_loop _ _)), stop_singleLoop.
      apply (singleLoop_same w1); [unfold sameLoop; cbn; tauto|].
      apply (singleLoop_same w); assumption.
    + apply (singleLoop_same w1); [unfold sameLoop; cbn; tauto|].
      apply (singleLoop_same w); assumption.
Qed.

Lemma onFaceMeshResults_singleLoop now faces w :
  singleLoop w -> singleLoop (onFaceMeshResults now faces w).
Proof.
  intros H; unfold onFaceMeshResults.
  destruct (isStopped w); [assumption|].
  pose proof (singleLoop_same _ _ (drawDebugOverlay_loop faces w) H) as Hd.
  assert (Hno : singleLoop
                  (if now - lastChallengeTime
                             (set_hasDetectedOpenEyes false
                                (drawDebugOverlay faces w))
                      >? challengeTimeout
                           (config (set_hasDetectedOpenEyes false
                                      (drawDebugOverlay faces w)))
                   then failChallenge FACE_NOT_FOUND
                          (set_hasDetectedOpenEyes false
                             (drawDebugOverlay faces w))
                   else set_hasDetectedOpenEyes false (drawDebugOverlay faces w))).
  { assert (Hs : singleLoop (set_hasDetectedOpenEyes false
                               (drawDebugOverlay faces w)))
      by (apply (singleLoop_same (drawDebugOverlay faces w));
          [unfold sameLoop; cbn; tauto|assumption]).
    destruct (_ >? _); [|assumption].
    apply (singleLoop_same _ _ (failChallenge_loop _ _)), stop_singleLoop, Hs. }
  destruct faces as [[|landmarks others]|]; try exact Hno.
  apply processChallenge_singleLoop, Hd.
Qed.

Lemma moveToNextChallenge_singleLoop now prediction w :
  singleLoop w -> singleLoop (moveToNextChallenge now prediction w).
Proof.
  intros H; unfold moveToNextChallenge.
  set (w1 := set_hasDetectedOpenEyes false _).
  assert (H1 : singleLoop w1)
    by (apply (singleLoop_same w); [unfold sameLoop; cbn; tauto|assumption]).
  destruct (_ <=? _)%nat.
  - unfold completeLiveness.
    assert (H2 : singleLoop (emit (onChallengeChanged (Some PROCESSING)) (stop w1)))
      by (apply (singleLoop_same (stop w1));
          [unfold sameLoop; cbn; tauto|apply stop_singleLoop, H1]).
    destruct prediction as [predictionTensor|].
    + by_same (emit (onChallengeChanged (Some PROCESSING)) (stop w1)).
    + apply (singleLoop_same _ _ (failChallenge_loop _ _)), stop_singleLoop, H2.
  - apply (singleLoop_same w1); [unfold sameLoop; cbn; tauto|assumption].
Qed.

Lemma cancel_idle w :
  singleLoop w -> awaitingSend w = O ->
  idle match detectionLoopId w with
       | Some (S _ as id) => cancelAnimationFrame id w
       | _ => w
       end.
Proof.
  intros H Ha.
  assert (Hn : nextRequestId w <> O) by apply H.
  assert (He : (forall id', detectionLoopId w <> Some (S id')) ->
               frameRequests w = []).
  { intros Hd.
    destruct (frameRequests w) as [|a l] eqn:E; [reflexivity|].
    destruct (singleLoop_pending w a H) as (_ & Hd' & H0 & _);
      [rewrite E; now left|].
    destruct a as [|a]; [contradiction|].
    now elim (Hd a). }
  destruct (detectionLoopId w) as [[|n]|] eqn:Hd.
  - unfold idle; split; [apply He; discriminate|split; assumption].
  - pose proof (singleLoop_cancel w (S n) H Hd) as Hc.
    unfold idle; split; [exact Hc|split; assumption].
  - unfold idle; split; [apply He; discriminate|split; assumption].
Qed.

Lemma start_singleLoop now random video canvas readyState w w' :
  singleLoop w -> awaitingSend w = O ->
  start now random video canvas readyState w = Returned w' -> singleLoop w'.
Proof.
  intros H Ha; unfold start.
  destruct (negb (isReady w)); [discriminate|].
  intros E; injection E as <-.
  apply detectionLoop_idle.
  match goal with
  | |- context [cancelAnimationFrame _ ?w1] =>
      apply (cancel_idle w1); [by_same w|exact Ha]
  end.
Qed.

Lemma step_singleLoop w i :
  singleLoop w -> startsFresh w i -> singleLoop (step w i).
Proof.
  intros H Hf;
    destruct i as [ok|now random video canvas rs| |id now rs| |now faces|now pred];
    cbn [step].
  - apply (singleLoop_same w); [|assumption].
    unfold load, sameLoop; destruct ok; cbn; tauto.
  - destruct (start _ _ _ _ _ w) as [w'|] eqn:E; [|assumption].
    exact (start_singleLoop _ _ _ _ _ _ _ H Hf E).
  - apply stop_singleLoop, H.
  - destruct (existsb _ _) eqn:E; [|assumption].
    apply existsb_exists in E as (id' & Hin & Heq).
    apply Nat.eqb_eq in Heq; subst id'.
    destruct (singleLoop_pending w id H Hin) as (Hr & Hd & H0 & Ha).
    apply detectionLoop_idle; unfold idle; repeat split.
    + apply (singleLoop_cancel w id H Hd).
    + exact Ha.
    + apply H.
  - destruct (awaitingSend w) as [|n] eqn:Ha; [assumption|].
    apply requestAnimationFrame_idle.
    destruct H as (Hact & _ & Hn); unfold activations in Hact.
    rewrite Ha in Hact.
    unfold idle; cbn; repeat split; try assumption; try lia.
    destruct (frameRequests w); [reflexivity|cbn in Hact; lia].
  - apply onFaceMeshResults_singleLoop, H.
  - destruct (settleTimers w) as [|n]; [assumption|].
    apply moveToNextChallenge_singleLoop.
    apply (singleLoop_same w); [unfold sameLoop; cbn; tauto|assumption].
Qed.

Lemma run_singleLoop inputs : forall w,
  singleLoop w -> noRestartInFlight w inputs -> singleLoop (run w inputs).
Proof.
  induction inputs as [|i rest IH]; intros w H Hn; [assumption|].
  destruct Hn as [Hf Hrest].
  rewrite run_cons; apply IH; [apply step_singleLoop|]; assumption.
Qed.

End SingleLoop.

(** X14. As long as [start] is not called while a frame is still being sent
    to the face mesh, at most one activation of the detection loop is
    alive at any time, after whatever the callers and the host do: one
    animation frame is requested or one send is awaited, never both, and
    a requested frame is the one [stop] and [start] cancel.  ([targetFPS]
    is not 0, so that the frame interval is the one of the source.) *)
Theorem single_detection_loop (cfg : Engine.Config) (inputs : list Engine.Input) :
  Engine.targetFPS cfg <> 0 ->
  Runs.noRestartInFlight (Engine.new cfg) inputs ->
  Runs.singleLoop (Engine.run (Engine.new cfg) inputs) /\
  (Runs.activations (Engine.run (Engine.new cfg) inputs) <= 1)%nat.
Proof.
  intros _ H.
  assert (S : Runs.singleLoop (Engine.run (Engine.new cfg) inputs)).
  { apply run_singleLoop; [|assumption].
    apply idle_singleLoop; unfold Runs.idle; cbn; repeat split; discriminate. }
  split; [exact S|apply S].
Qed.

(** X15. A call of [start] while a send is awaited does not end the
    activation that awaits it and begins another: two activations of the
    detection loop are alive from then on. *)
Theorem restart_in_flight (w : Engine.World) (now : R) (random : nat -> R)
        (video canvas : bool) (readyState : nat) :
  Engine.targetFPS (Engine.config w) <> 0 ->
  Engine.isReady w = true ->
  Runs.singleLoop w ->
  Engine.awaitingSend w = 1%nat ->
  Runs.activations
    (Engine.step w (Engine.Start now random video canvas readyState)) = 2%nat.
Proof.
  intros _ Hr H Ha.
  assert (Hq : Engine.frameRequests w = []).
  { destruct H as (Hact & _); unfold Runs.activations in Hact.
    rewrite Ha in Hact.
    destruct (Engine.frameRequests w); [reflexivity|cbn in Hact; lia]. }
  cbn [Engine.step]; unfold Engine.start; rewrite Hr; cbn [negb].
  unfold Runs.activations, Engine.detectionLoop; cbn.
  destruct (Engine.detectionLoopId w) as [[|n]|]; cbn; rewrite ?Hq, ?Ha; cbn;
    destruct (_ || _); cbn; rewrite ?Hq, ?Ha; try reflexivity;
    destruct (_ >? _); cbn; rewrite ?Hq, ?Ha; reflexivity.
Qed.

(** ** The progress reports *)

Section Progress.

Import Engine Session Runs.

Lemma clamp_range a : 0 <= Rmax 0 (Rmin a 1) <= 1.
Proof.
  unfold Rmax, Rmin; destruct (Rle_dec a 1); destruct (Rle_dec 0 _); lra.
Qed.

Lemma clamp_fixed a : 0 <= a <= 1 -> Rmax 0 (Rmin a 1) = a.
Proof.
  intros H; unfold Rmax, Rmin; destruct (Rle_dec a 1); destruct (Rle_dec 0 _); lra.
Qed.

Lemma clamp_inRange a rawValue : progressInRange (onProgress (Rmax 0 (Rmin a 1)) rawValue).
Proof.
  split; [apply clamp_range|].
  apply clamp_fixed, clamp_range.
Qed.

Lemma assess_inRange v landmarks :
  let '(_, _, progress, rawValue) := assess v landmarks in
  progressInRange (onProgress progress rawValue).
Proof.
  unfold assess; destruct (nth_error _ _) as [[| | |]|]; apply clamp_inRange.
Qed.

Lemma vstep_progress v i :
  exists l, vlog (vstep v i) = vlog v ++ l /\ Forall progressInRange l.
Proof.
  destruct i as [ok|now random video canvas rs| |id now rs| |now faces|now pred];
    cbn [vstep].
  - eexists; split; [reflexivity|]; destruct ok; repeat constructor.
  - destruct (vready v);
      [eexists; split; [reflexivity|repeat constructor]
      |exists []; now rewrite app_nil_r].
  - exists []; cbn; now rewrite app_nil_r.
  - exists []; now rewrite app_nil_r.
  - exists []; now rewrite app_nil_r.
  - destruct (vstopped v); [exists []; now rewrite app_nil_r|].
    assert (Hno : exists l,
              vlog v ++ (if vtimedOut now v then [onFailure FACE_NOT_FOUND] else [])
              = vlog v ++ l /\ Forall progressInRange l)
      by (eexists; split; [reflexivity|];
          destruct (vtimedOut now v); repeat constructor).
    destruct faces as [[|landmarks others]|]; try exact Hno.
    destruct (vprocessing v); [exists []; now rewrite app_nil_r|].
    pose proof (assess_inRange v landmarks) as Ha.
    destruct (assess v landmarks) as [[[latch passed] progress] rawValue].
    cbn [vlog]; eexists; split; [reflexivity|].
    constructor; [exact Ha|].
    destruct (_ && _); repeat constructor.
  - destruct (vtimers v); [exists []; now rewrite app_nil_r|].
    destruct (_ <=? _)%nat; cbn [vlog]; eexists; split; try reflexivity;
      destruct pred; repeat constructor.
Qed.

Lemma run_progress inputs : forall w,
  exists l, callbackLog (run w inputs) = callbackLog w ++ l /\
            Forall progressInRange l.
Proof.
  induction inputs as [|i rest IH]; intros w.
  - exists []; rewrite run_nil, app_nil_r; split; [reflexivity|constructor].
  - rewrite run_cons.
    destruct (vstep_progress (view w) i) as (l1 & E1 & F1).
    rewrite <- simulation in E1; cbn [view vlog] in E1.
    destruct (IH (step w i)) as (l2 & E2 & F2).
    exists (l1 ++ l2); split.
    + rewrite E2, E1; symmetry; apply app_assoc.
    + apply Forall_app; split; assumption.
Qed.

(** The progress of a turn, as one formula. *)
Lemma turn_progress_formula r t :
  0 < t ->
  Rmax 0 (Rmin (if r >? t then 1 else Rmax 0 (r / t)) 1) = Rmax 0 (Rmin (r / t) 1).
Proof.
  intros Ht; destruct (r >? t) eqn:E.
  - apply gtb_spec in E.
    assert (1 < r / t).
    { apply (Rmult_lt_reg_r t); [assumption|].
      replace (r / t * t) with r by (field; lra); lra. }
    unfold Rmax, Rmin; repeat destruct (Rle_dec _ _); lra.
  - unfold Rmax, Rmin; repeat destruct (Rle_dec _ _); lra.
Qed.

End Progress.

(** X16. Whatever happens to an engine whose head turn threshold is not 0,
    every progress it reports from then on lies between 0 and 1, so
    that the clamp of the progress bar leaves it as it is. *)
Theorem progress_in_unit_interval (w : Engine.World) (inputs : list Engine.Input) :
  Engine.headTurnThreshold (Engine.config w) <> 0 ->
  exists l,
    Engine.callbackLog (Engine.run w inputs) = Engine.callbackLog w ++ l /\
    Forall Runs.progressInRange l /\
    forall progress rawValue,
      In (SDK.progress progress rawValue) (map SDK.emitted l) ->
      0 <= ProgressBar.width progress <= 100.
Proof.
  intros _; destruct (run_progress inputs w) as (l & E & F).
  exists l; split; [exact E|split; [exact F|]].
  intros progress rawValue Hin.
  apply in_map_iff in Hin as (c & Hc & Hin).
  rewrite Forall_forall in F; specialize (F c Hin).
  destruct c; try discriminate Hc.
  injection Hc as -> ->.
  destruct F as [_ F].
  unfold ProgressBar.width; rewrite F.
  pose proof (clamp_range progress) as R.
  unfold ProgressBar.clampedProgress in F; rewrite F in R; lra.
Qed.

(** X17. What a frame reports while a challenge is awaited.  A blink reports
    the progress 0 whatever the eyes do.  With a positive threshold
    [t], a turn to the left whose ratio is [r] reports [r / t] clamped
    to the unit interval, and passes when [r > t]; a turn to the right
    reports [- r / t] clamped, and passes when [r < - t].  So a turn
    that passes reports the progress 1, but the progress 1 is also
    reported at [r = t], where the turn does not pass. *)
Theorem progress_of_a_frame (w : Engine.World) (landmarks : Utils.Landmarks) :
  let t := Engine.headTurnThreshold (Engine.config w) in
  let r := Utils.calculateHeadTurnV2 landmarks in
  (Session.currentChallenge w = Some Engine.BLINK ->
   Session.progressOf landmarks w = 0) /\
  (0 < t -> Session.currentChallenge w = Some Engine.TURN_LEFT ->
   Session.progressOf landmarks w = Rmax 0 (Rmin (r / t) 1) /\
   (Session.challengePassed landmarks w = true <-> r > t) /\
   (r = t -> Session.progressOf landmarks w = 1 /\
             Session.challengePassed landmarks w = false)) /\
  (0 < t -> Session.currentChallenge w = Some Engine.TURN_RIGHT ->
   Session.progressOf landmarks w = Rmax 0 (Rmin (- r / t) 1) /\
   (Session.challengePassed landmarks w = true <-> r < - t) /\
   (r = - t -> Session.progressOf landmarks w = 1 /\
               Session.challengePassed landmarks w = false)).
Proof.
  intros t r; subst t r.
  unfold Session.currentChallenge, Session.progressOf, Session.challengePassed,
    Engine.evaluate.
  set (t := Engine.headTurnThreshold _); set (r := Utils.calculateHeadTurnV2 _).
  refine (conj _ (conj _ _)).
  - intros ->.
    unfold Rmax, Rmin; repeat destruct (Rle_dec _ _); lra.
  - intros Ht ->.
    assert (F : (let '(_, _, progress, _) :=
                   if r >? t
                   then (w, true, 1, Some r)
                   else (w, false, Rmax 0 (r / t), Some r)
                 in Rmax 0 (Rmin progress 1))
                = Rmax 0 (Rmin (r / t) 1)).
    { rewrite <- (turn_progress_formula r t Ht); now destruct (r >? t). }
    assert (P : (let '(_, passed, _, _) :=
                   if r >? t
                   then (w, true, 1, Some r)
                   else (w, false, Rmax 0 (r / t), Some r)
                 in passed) = (r >? t))
      by now destruct (r >? t).
    rewrite F, P; split; [reflexivity|split; [apply gtb_spec|]].
    intros ->; split; [|apply gtb_false; lra].
    replace (t / t) with 1 by (field; lra).
    unfold Rmax, Rmin; repeat destruct (Rle_dec _ _); lra.
  - intros Ht ->.
    assert (E : r / - t = - r / t) by (field; lra).
    assert (B : (r <? - t) = (- r >? t)).
    { destruct (Rlt_dec r (- t)).
      - rewrite ltb_true, gtb_true by lra; reflexivity.
      - rewrite ltb_false, gtb_false by lra; reflexivity. }
    assert (F : (let '(_, _, progress, _) :=
                   if r <? - t
                   then (w, true, 1, Some r)
                   else (w, false, Rmax 0 (r / - t), Some r)
                 in Rmax 0 (Rmin progress 1))
                = Rmax 0 (Rmin (- r / t) 1)).
    { rewrite <- (turn_progress_formula (- r) t Ht), B, E.
      now destruct (- r >? t). }
    assert (P : (let '(_, passed, _, _) :=
                   if r <? - t
                   then (w, true, 1, Some r)
                   else (w, false, Rmax 0 (r / - t), Some r)
                 in passed) = (r <? - t))
      by now destruct (r <? - t).
    rewrite F, P; split; [reflexivity|split; [apply ltb_spec|]].
    intros ->; split; [|apply ltb_false; lra].
    replace (- - t / t) with 1 by (field; lra).
    unfold Rmax, Rmin; repeat destruct (Rle_dec _ _); lra.
Qed.

(** ** Failures *)

Section Failures.

Import Engine Session Runs.

Lemma project_view (w : World) (v : View) :
  view w = v ->
  isStopped w = vstopped v /\ isChallengeProcessing w = vprocessing v /\
  settleTimers w = vtimers v /\ callbackLog w = vlog v /\
  currentChallengeIndex w = vindex v.
Proof. intros <-; cbn; tauto. Qed.

End Failures.

Ltac vproj H :=
  cbn [Session.view Session.vstopped Session.vprocessing Session.vtimers
       Session.vlog Session.vindex] in H.

(** X18. When the last settle timer fires and the recognition model throws,
    the engine stops and emits the challenge PROCESSING and then the
    failure RECOGNITION_FAILED, and no success. *)
Theorem recognition_failure (w : Engine.World) (now : R) :
  (0 < Engine.settleTimers w)%nat ->
  (length (Engine.challenges w) <= S (Engine.currentChallengeIndex w))%nat ->
  let w' := Engine.step w (Engine.SettleTimeout now None) in
  Session.eventsSince w w'
  = [SDK.challenge (Some Engine.PROCESSING) "Processing...";
     SDK.failure Engine.RECOGNITION_FAILED] /\
  Engine.isStopped w' = true /\
  Engine.settleTimers w' = pred (Engine.settleTimers w).
Proof.
  intros Ht Hi w'; subst w'.
  destruct (Engine.settleTimers w) as [|n] eqn:Hn; [lia|].
  pose proof (rule_timer_complete w now None n Hn Hi) as H.
  apply project_view in H as (Hs & _ & Htm & Hlog & _);
        vproj Hs; vproj Htm; vproj Hlog.
  refine (conj _ (conj Hs Htm)).
  unfold Session.eventsSince; now rewrite (since_app _ _ _ Hlog).
Qed.

(** X19. A results callback fails a running session only after the deadline
    of the challenge, and only on a frame that does not pass.  A frame
    that arrives no later than [challengeTimeout] ms after the challenge
    started calls no [onFailure] and leaves the session running; a frame
    on which the awaited challenge passes opens the settle window
    however late it arrives; and while the session settles a frame with
    a face calls nothing and changes nothing of the session. *)
Theorem failure_only_after_deadline (w : Engine.World) (now : R) :
  Engine.isStopped w = false ->
  (forall faces,
     now - Engine.lastChallengeTime w <= Engine.challengeTimeout (Engine.config w) ->
     let w' := Engine.step w (Engine.FaceMeshResults now faces) in
     Engine.isStopped w' = false /\
     filter Runs.isFailure (Session.since w w') = []) /\
  (forall landmarks others,
     Engine.isChallengeProcessing w = false ->
     Session.challengePassed landmarks w = true ->
     let w' :=
       Engine.step w (Engine.FaceMeshResults now (Some (landmarks :: others))) in
     Engine.isStopped w' = false /\
     Engine.isChallengeProcessing w' = true /\
     Engine.settleTimers w' = S (Engine.settleTimers w) /\
     filter Runs.isFailure (Session.since w w') = []) /\
  (forall landmarks others,
     Engine.isChallengeProcessing w = true ->
     let w' :=
       Engine.step w (Engine.FaceMeshResults now (Some (landmarks :: others))) in
     Session.view w' = Session.view w /\ Session.since w w' = []).
Proof.
  intros Hs; refine (conj _ (conj _ _)).
  - intros faces Ht w'; subst w'.
    assert (Hl : Session.timedOut now w = false)
      by (unfold Session.timedOut; apply gtb_false; lra).
    destruct (Session.noFace faces) eqn:Hf.
    + pose proof (rule_noFace w now faces Hs Hf) as H.
      rewrite Hl in H.
      apply project_view in H as (Hs' & _ & _ & Hlog & _);
        vproj Hs'; vproj Hlog.
      split; [exact Hs'|].
      rewrite app_nil_r in Hlog; now rewrite (since_refl _ _ Hlog).
    + destruct faces as [[|landmarks others]|]; try discriminate Hf.
      destruct (Engine.isChallengeProcessing w) eqn:Hp.
      * pose proof (rule_face_settling w now landmarks others Hs Hp) as H.
        apply project_view in H as (Hs' & _ & _ & Hlog & _);
        vproj Hs'; vproj Hlog.
        split; [congruence|now rewrite (since_refl _ _ Hlog)].
      * pose proof (rule_face w now landmarks others Hs Hp) as H.
        cbv zeta in H; rewrite Hl, andb_false_r in H.
        apply project_view in H as (Hs' & _ & _ & Hlog & _);
        vproj Hs'; vproj Hlog.
        split; [exact Hs'|].
        now rewrite (since_app _ _ _ Hlog).
  - intros landmarks others Hp Hpass w'; subst w'.
    pose proof (rule_face w now landmarks others Hs Hp) as H.
    cbv zeta in H; rewrite Hpass in H; cbn [negb andb] in H.
    apply project_view in H as (Hs' & Hp' & Htm & Hlog & _);
      vproj Hs'; vproj Hp'; vproj Htm; vproj Hlog.
    refine (conj Hs' (conj Hp' (conj Htm _))).
    now rewrite (since_app _ _ _ Hlog).
  - intros landmarks others Hp w'; subst w'.
    pose proof (rule_face_settling w now landmarks others Hs Hp) as H.
    split; [exact H|].
    apply since_refl.
    apply project_view in H as (_ & _ & _ & Hlog & _); exact Hlog.
Qed.

(** ** No success without the passes *)

Section Paid.

Import Engine Session Runs.

Lemma successAtEnd_quiet log0 v v' extra :
  successAtEnd log0 v ->
  vlog v' = vlog v ++ extra -> filter isSuccess extra = [] ->
  vchallenges v' = vchallenges v -> (vindex v <= vindex v')%nat ->
  successAtEnd log0 v'.
Proof.
  intros (l & Hl & H) Hlog Hx Hc Hi.
  exists (l ++ extra); split; [rewrite Hlog, Hl; symmetry; apply app_assoc|].
  rewrite filter_app, Hx, app_nil_r, Hc; intros Hs; specialize (H Hs); lia.
Qed.

Lemma successAtEnd_step log0 v i :
  hostOnly i -> successAtEnd log0 v -> successAtEnd log0 (vstep v i).
Proof.
  intros Hh Hv.
  destruct i as [ok|now random video canvas rs| |id now rs| |now faces|now pred];
    try contradiction; try exact Hv; cbn [vstep].
  - destruct (vstopped v); [exact Hv|].
    assert (Hno : successAtEnd log0
              {| vconfig := vconfig v; vready := vready v;
                 vstopped := vtimedOut now v; vchallenges := vchallenges v;
                 vindex := vindex v; vtime := vtime v;
                 vprocessing := vprocessing v; vlatch := false;
                 vtimers := vtimers v;
                 vlog := vlog v ++ (if vtimedOut now v
                                    then [onFailure FACE_NOT_FOUND] else []) |}).
    { eapply (successAtEnd_quiet _ v); try exact Hv; try reflexivity.
      now destruct (vtimedOut now v). }
    destruct faces as [[|landmarks others]|]; try exact Hno.
    destruct (vprocessing v); [exact Hv|].
    destruct (assess v landmarks) as [[[latch passed] progress] rawValue].
    eapply (successAtEnd_quiet _ v); try exact Hv; try reflexivity.
    cbn; now destruct (_ && _).
  - destruct (vtimers v) as [|n]; [exact Hv|].
    destruct (_ <=? _)%nat eqn:E.
    + apply Nat.leb_le in E.
      destruct Hv as (l & Hl & _).
      eexists; split; [cbn [vlog]; rewrite Hl; symmetry; apply app_assoc|].
      intros _; exact E.
    + eapply (successAtEnd_quiet _ v); try exact Hv; try reflexivity.
      cbn; lia.
Qed.

Lemma successAtEnd_run log0 inputs : forall w,
  Forall hostOnly inputs -> successAtEnd log0 (view w) ->
  successAtEnd log0 (view (run w inputs)).
Proof.
  induction inputs as [|i rest IH]; intros w Hh Hv; [exact Hv|].
  inversion Hh as [|? ? Hi Hrest]; subst.
  rewrite run_cons; apply IH; [assumption|].
  rewrite simulation; apply successAtEnd_step; assumption.
Qed.

Lemma hostOnly_challenges inputs : forall w,
  Forall hostOnly inputs -> challenges (run w inputs) = challenges w.
Proof.
  induction inputs as [|i rest IH]; intros w Hh; [reflexivity|].
  inversion Hh as [|? ? Hi Hrest]; subst.
  rewrite run_cons, (IH _ Hrest), (challenges_view (step w i)), simulation.
  destruct i as [ok|? ? ? ? ?| |id t rs| |t faces|t pred];
    try contradiction; try reflexivity; cbn [vstep].
  - destruct (vstopped _); [reflexivity|].
    destruct faces as [[|landmarks others]|]; try reflexivity.
    destruct (vprocessing _); [reflexivity|].
    now destruct (assess _ _) as [[[? ?] ?] ?].
  - destruct (vtimers _); [reflexivity|].
    now destruct (_ <=? _)%nat.
Qed.

End Paid.

(** X20. In a session that starts with no settle timer pending, and in which
    the host alone acts from then on, every advance is paid for by a
    frame on which the active challenge passed: the index and the
    pending timers add up to the number of such frames.  So [onSuccess]
    is called only after three frames have passed. *)
Theorem success_needs_three_passes
        (w0 : Engine.World) (now : R) (random : nat -> R)
        (video canvas : bool) (readyState : nat) (inputs : list Engine.Input) :
  Engine.isReady w0 = true ->
  Engine.settleTimers w0 = 0%nat ->
  (forall k, 0 <= random k < 1) ->
  Forall Session.hostOnly inputs ->
  let w1 := Engine.step w0 (Engine.Start now random video canvas readyState) in
  let w := Engine.run w1 inputs in
  (Engine.currentChallengeIndex w + Engine.settleTimers w
   = Session.passCount w1 inputs)%nat /\
  (filter SDK.is_success (Session.eventsSince w1 w) <> [] ->
   (3 <= Session.passCount w1 inputs)%nat).
Proof.
  intros Hready Ht0 Hrandom Hhost w1 w; subst w w1.
  set (w1 := Engine.step w0 _).
  pose proof (rule_start w0 now random video canvas readyState Hready) as Hv1.
  fold w1 in Hv1.
  assert (Hi1 : Engine.currentChallengeIndex w1 = 0%nat)
    by (rewrite index_view, Hv1; reflexivity).
  assert (Ht1 : Engine.settleTimers w1 = 0%nat)
    by (rewrite timers_view, Hv1; exact Ht0).
  assert (Hc1 : Engine.challenges w1 = Engine.generateChallenges random)
    by (rewrite challenges_view, Hv1; reflexivity).
  pose proof (passCount_balance w1 inputs Hhost) as Hbal.
  rewrite Hi1, Ht1 in Hbal.
  split; [lia|].
  assert (H1 : Runs.successAtEnd (Engine.callbackLog w1) (Session.view w1))
    by (exists []; split; [now rewrite app_nil_r|intros H; now elim H]).
  destruct (successAtEnd_run _ inputs w1 Hhost H1) as (l & Hl & Hs).
  cbn [Session.view Session.vlog Session.vchallenges Session.vindex] in Hl, Hs.
  unfold Session.eventsSince; rewrite (since_app _ _ _ Hl), filter_emitted.
  rewrite (filter_ext_callbacks _ _ l is_success_emitted).
  intros Hne.
  assert (Hl' : filter Session.isSuccess l <> [])
    by (intros E; rewrite E in Hne; now elim Hne).
  specialize (Hs Hl').
  pose proof (hostOnly_challenges inputs w1 Hhost) as Hc.
  rewrite Hc, Hc1 in Hs.
  destruct (generateChallenges_three random Hrandom) as (c0 & c1 & c2 & E).
  rewrite E in Hs; cbn [length] in Hs; lia.
Qed.

(** X21. [start] does not clear a settle timer that is pending.  When one
    fires in the session that follows, the index advances to the second
    challenge, which is announced, although no frame has been
    evaluated. *)
Theorem stale_timer_skips_a_challenge
        (w : Engine.World) (now : R) (random : nat -> R)
        (video canvas : bool) (readyState : nat)
        (later : R) (prediction : option (list R)) :
  Engine.isReady w = true ->
  (0 < Engine.settleTimers w)%nat ->
  (forall k, 0 <= random k < 1) ->
  let w1 := Engine.step w (Engine.Start now random video canvas readyState) in
  let w2 := Engine.step w1 (Engine.SettleTimeout later prediction) in
  Engine.currentChallengeIndex w1 = 0%nat /\
  Engine.currentChallengeIndex w2 = 1%nat /\
  Session.passCount w1 [Engine.SettleTimeout later prediction] = 0%nat /\
  exists c0 c1 c2,
    Engine.generateChallenges random = [c0; c1; c2] /\
    Session.eventsSince w w1 = [SDK.challenge (Some c0) (SDK.instructions (Some c0))] /\
    Session.eventsSince w1 w2 = [SDK.challenge (Some c1) (SDK.instructions (Some c1))].
Proof.
  intros Hready Ht Hrandom w1 w2; subst w2 w1.
  set (w1 := Engine.step w _).
  pose proof (rule_start w now random video canvas readyState Hready) as Hv1.
  fold w1 in Hv1.
  destruct (generateChallenges_three random Hrandom) as (c0 & c1 & c2 & E).
  rewrite E in Hv1.
  assert (Hi1 : Engine.currentChallengeIndex w1 = 0%nat)
    by (rewrite index_view, Hv1; reflexivity).
  assert (Hc1 : Engine.challenges w1 = [c0; c1; c2])
    by (rewrite challenges_view, Hv1; reflexivity).
  destruct (Engine.settleTimers w) as [|n] eqn:Hn; [lia|].
  assert (Ht1 : Engine.settleTimers w1 = S n)
    by (rewrite timers_view, Hv1; reflexivity).
  assert (Hl1 : Engine.callbackLog w1
                = Engine.callbackLog w ++ [Engine.onChallengeChanged (Some c0)])
    by (rewrite (log_view w1), Hv1; reflexivity).
  pose proof (rule_timer_next w1 later prediction n Ht1) as Hv2.
  rewrite Hi1, Hc1 in Hv2; specialize (Hv2 ltac:(cbn; lia)).
  refine (conj Hi1 (conj _ (conj eq_refl _))).
  - rewrite index_view, Hv2; reflexivity.
  - exists c0, c1, c2; split; [exact E|split].
    + unfold Session.eventsSince; now rewrite (since_app _ _ _ Hl1).
    + unfold Session.eventsSince.
      rewrite (since_app w1 _ [Engine.onChallengeChanged (Some c1)]);
        [reflexivity|].
      rewrite (log_view (Engine.step w1 _)), Hv2; reflexivity.
Qed.

(** ** The listeners of the SDK *)

Section Registry.

Import Listeners.

Lemma get_own listeners event :
  (exists callbacks, get listeners event = Own callbacks)
  <-> In event (map fst listeners).
Proof.
  unfold get; split.
  - intros (callbacks & H).
    destruct (find _ listeners) as [entry|] eqn:E.
    + apply find_some in E as [Hin Heq].
      apply String.eqb_eq in Heq; subst event.
      apply in_map, Hin.
    + destruct (existsb _ _); discriminate.
  - intros Hin; apply in_map_iff in Hin as (entry & <- & Hin).
    destruct (find _ listeners) as [found|] eqn:E; [now exists (snd found)|].
    apply (find_none _ _ E) in Hin.
    now rewrite String.eqb_refl in Hin.
Qed.

Lemma get_missing listeners event :
  ~ In event (map fst listeners) ->
  get listeners event
  = if existsb (String.eqb event) objectPrototype then Inherited else Undefined.
Proof.
  intros Hn; unfold get.
  destruct (find _ listeners) as [entry|] eqn:E; [|reflexivity].
  elim Hn; apply get_own; exists (snd entry); unfold get; now rewrite E.
Qed.

Lemma inherited_spec event :
  existsb (String.eqb event) objectPrototype = true <-> In event objectPrototype.
Proof.
  rewrite existsb_exists; split.
  - intros (name & Hin & Heq); apply String.eqb_eq in Heq; now subst.
  - intros Hin; exists event; split; [assumption|apply String.eqb_refl].
Qed.

Lemma get_set_same listeners event callbacks callbacks' :
  get listeners event = Own callbacks ->
  get (set listeners event callbacks') event = Own callbacks'.
Proof.
  unfold get, set.
  induction listeners as [|[key arr] rest IH]; cbn [find map fst snd].
  - intros H; destruct (existsb (String.eqb event) objectPrototype);
      discriminate H.
  - destruct (String.eqb key event) eqn:E; cbn [find fst snd]; rewrite E;
      [reflexivity|exact IH].
Qed.

Lemma get_set_other listeners event other callbacks :
  other <> event ->
  get (set listeners event callbacks) other = get listeners other.
Proof.
  intros Hne; unfold get, set.
  induction listeners as [|[key arr] rest IH]; cbn [find map fst snd];
    [reflexivity|].
  destruct (String.eqb key event) eqn:E; cbn [find fst snd].
  - apply String.eqb_eq in E; subst key.
    replace (String.eqb event other) with false
      by (symmetry; apply String.eqb_neq; congruence).
    exact IH.
  - destruct (String.eqb key other); [reflexivity|exact IH].
Qed.

Lemma set_keys listeners event callbacks :
  map fst (set listeners event callbacks) = map fst listeners.
Proof.
  unfold set; induction listeners as [|[key arr] rest IH]; cbn; [reflexivity|].
  rewrite IH; now destruct (String.eqb key event).
Qed.

Lemma set_same listeners event callbacks :
  NoDup (map fst listeners) ->
  get listeners event = Own callbacks ->
  set listeners event callbacks = listeners.
Proof.
  unfold get, set.
  induction listeners as [|[key arr] rest IH]; cbn [find map fst snd];
    intros Hd H; [reflexivity|].
  inversion Hd as [|? ? Hnin Hd']; subst.
  destruct (String.eqb key event) eqn:E; cbn [fst snd] in H.
  - injection H as ->.
    apply String.eqb_eq in E; subst key; f_equal.
    clear IH Hd Hd'.
    induction rest as [|[key' arr'] rest IH]; cbn; [reflexivity|].
    destruct (String.eqb key' event) eqn:E'.
    + apply String.eqb_eq in E'; subst key'; elim Hnin; now left.
    + f_equal; apply IH; intros Hin; apply Hnin; now right.
  - f_equal; now apply IH.
Qed.

Lemma set_set listeners event callbacks callbacks' :
  set (set listeners event callbacks) event callbacks'
  = set listeners event callbacks'.
Proof.
  unfold set; rewrite map_map; apply map_ext; intros [key arr]; cbn.
  destruct (String.eqb key event) eqn:E; cbn; now rewrite E.
Qed.

Lemma called_deliver throws callbacks :
  called (deliver throws callbacks) = callbacks.
Proof.
  unfold called, deliver.
  induction callbacks as [|cb rest IH]; cbn; [reflexivity|].
  destruct (throws cb); cbn; now rewrite IH.
Qed.

Lemma deliver_app throws a b :
  deliver throws (a ++ b) = deliver throws a ++ deliver throws b.
Proof. apply flat_map_app. Qed.

Lemma filter_absent callback callbacks :
  ~ In callback callbacks ->
  filter (fun cb => negb (Nat.eqb cb callback)) callbacks = callbacks.
Proof.
  intros Hn; induction callbacks as [|cb rest IH]; cbn; [reflexivity|].
  destruct (Nat.eqb cb callback) eqn:E; cbn.
  - apply Nat.eqb_eq in E; subst cb; elim Hn; now left.
  - f_equal; apply IH; intros Hin; apply Hn; now right.
Qed.

End Registry.

(** X22. After [on(event, callback)] for one of the events of the SDK, an
    emission of the event calls the listeners it called before, in the
    same order, and then [callback]: once more for every time it is
    registered.  A listener that throws is reported to the console and
    keeps none of the others from being called.  The listeners of the
    other events are as they were. *)
Theorem on_registers (listeners : Listeners.Registry) (event : string)
        (callback : Listeners.Listener) (callbacks : list Listeners.Listener)
        (throws : Listeners.Listener -> bool) :
  Listeners.get listeners event = Listeners.Own callbacks ->
  exists listeners',
    Listeners.on event callback listeners = Listeners.Returned listeners' /\
    Listeners.get listeners' event = Listeners.Own (callbacks ++ [callback]) /\
    (exists effects,
       Listeners._emit throws event listeners' = Listeners.Returned effects /\
       Listeners._emit throws event listeners
       = Listeners.Returned (Listeners.deliver throws callbacks) /\
       effects = Listeners.deliver throws callbacks
                 ++ Listeners.deliver throws [callback] /\
       Listeners.called effects = callbacks ++ [callback]) /\
    (forall other, other <> event ->
       Listeners.get listeners' other = Listeners.get listeners other) /\
    map fst listeners' = map fst listeners.
Proof.
  intros H; unfold Listeners.on, Listeners._emit; rewrite H.
  eexists; split; [reflexivity|].
  rewrite (get_set_same _ _ _ _ H).
  refine (conj eq_refl (conj _ (conj _ (set_keys _ _ _)))).
  - eexists; split; [reflexivity|split; [reflexivity|split]].
    + apply deliver_app.
    + apply called_deliver.
  - intros other Hne; now apply get_set_other.
Qed.

(** X23. After [off(event, callback)] an emission of the event does not call
    [callback] any more, however often it was registered, and calls the
    other listeners as before, in the same order; the listeners of the
    other events are as they were.  Removing a callback that is not
    registered changes nothing, and removing a callback that has just
    been registered for the first time restores the registry. *)
Theorem off_unregisters (listeners : Listeners.Registry) (event : string)
        (callback : Listeners.Listener) (callbacks : list Listeners.Listener)
        (throws : Listeners.Listener -> bool) :
  Listeners.get listeners event = Listeners.Own callbacks ->
  exists listeners',
    Listeners.off event callback listeners = Listeners.Returned listeners' /\
    (exists effects,
       Listeners._emit throws event listeners' = Listeners.Returned effects /\
       ~ In callback (Listeners.called effects) /\
       Listeners.called effects
       = filter (fun cb => negb (Nat.eqb cb callback)) callbacks) /\
    (forall other, other <> event ->
       Listeners.get listeners' other = Listeners.get listeners other) /\
    (NoDup (map fst listeners) -> ~ In callback callbacks ->
     listeners' = listeners /\
     forall registered,
       Listeners.on event callback listeners = Listeners.Returned registered ->
       Listeners.off event callback registered = Listeners.Returned listeners).
Proof.
  intros H; unfold Listeners.off at 1; rewrite H.
  eexists; split; [reflexivity|].
  refine (conj _ (conj _ _)).
  - unfold Listeners._emit; rewrite (get_set_same _ _ _ _ H).
    eexists; split; [reflexivity|]; rewrite called_deliver; split; [|reflexivity].
    intros Hin; apply filter_In in Hin as [_ Hin].
    now rewrite Nat.eqb_refl in Hin.
  - intros other Hne; now apply get_set_other.
  - intros Hd Hn; split.
    + rewrite filter_absent by assumption; now apply set_same.
    + unfold Listeners.on; rewrite H; intros registered E; injection E as <-.
      unfold Listeners.off; rewrite (get_set_same _ _ _ _ H), set_set.
      rewrite filter_app, filter_absent by assumption; cbn.
      rewrite Nat.eqb_refl; cbn; rewrite app_nil_r.
      f_equal; now apply set_same.
Qed.

(** X24. The registry keeps the six event names of the constructor whatever
    is registered and removed.  An event name that is none of the six is
    ignored by [on], [off] and [_emit], unless it names a member of
    [Object.prototype] ([toString], [constructor] and the like): then the
    method throws a [TypeError]. *)
Theorem event_names (listeners : Listeners.Registry) (event : string)
        (callback : Listeners.Listener) (throws : Listeners.Listener -> bool) :
  map fst listeners = Listeners.events ->
  (forall listeners',
     Listeners.on event callback listeners = Listeners.Returned listeners' \/
     Listeners.off event callback listeners = Listeners.Returned listeners' ->
     map fst listeners' = Listeners.events) /\
  (In event Listeners.events ->
   exists callbacks, Listeners.get listeners event = Listeners.Own callbacks) /\
  (~ In event Listeners.events -> In event Listeners.objectPrototype ->
   Listeners.on event callback listeners = Listeners.TypeError /\
   Listeners.off event callback listeners = Listeners.TypeError /\
   Listeners._emit throws event listeners = Listeners.TypeError) /\
  (~ In event Listeners.events -> ~ In event Listeners.objectPrototype ->
   Listeners.on event callback listeners = Listeners.Returned listeners /\
   Listeners.off event callback listeners = Listeners.Returned listeners /\
   Listeners._emit throws event listeners = Listeners.Returned []).
Proof.
  intros Hk; refine (conj _ (conj _ (conj _ _))).
  - intros listeners'; unfold Listeners.on, Listeners.off.
    destruct (Listeners.get listeners event);
      intros [E|E]; try discriminate E; injection E as <-;
      rewrite ?set_keys; exact Hk.
  - intros Hin; apply get_own; now rewrite Hk.
  - intros Hn Hi; rewrite <- Hk in Hn.
    unfold Listeners.on, Listeners.off, Listeners._emit.
    rewrite (get_missing _ _ Hn), (proj2 (inherited_spec event) Hi); auto.
  - intros Hn Hi; rewrite <- Hk in Hn.
    unfold Listeners.on, Listeners.off, Listeners._emit.
    rewrite (get_missing _ _ Hn).
    destruct (existsb _ _) eqn:E; [|auto].
    apply inherited_spec in E; contradiction.
Qed.

(** ** Matching against the enrolled identities *)

Section Matching.

Import Checker.

(** The body of the [forEach]. *)
Let better (descriptor : Utils.Vector) (bestMatch : Match) (user : Identity)
  : Match :=
  let score :=
    Utils.calculateCosineSimilarity descriptor (Checker.descriptor user) in
  if score >? Checker.score bestMatch
  then {| score := score; matched := name user |}
  else bestMatch.

Lemma bestMatch_from descriptor enrolledUsers : forall start,
  let sim user :=
    Utils.calculateCosineSimilarity descriptor (Checker.descriptor user) in
  let best := fold_left (better descriptor) enrolledUsers start in
  score start <= score best /\
  (forall user, In user enrolledUsers -> sim user <= score best) /\
  (best = start \/
   exists before user after,
     enrolledUsers = before ++ user :: after /\
     score best = sim user /\ matched best = name user /\
     score start < sim user /\
     forall earlier, In earlier before -> sim earlier < sim user).
Proof.
  induction enrolledUsers as [|u rest IH]; intros start sim best.
  - subst best; cbn; split; [lra|split; [intros ? []|now left]].
  - subst best; cbn [fold_left].
    specialize (IH (better descriptor start u)); cbv zeta in IH.
    fold sim in IH.
    set (best := fold_left _ rest _) in *.
    destruct IH as (Hle & Hall & Hcase).
    unfold better in Hle, Hcase; fold (sim u) in Hle, Hcase.
    destruct (sim u >? score start) eqn:E; cbn [score matched] in Hle, Hcase.
    + apply gtb_spec in E.
      split; [lra|split].
      * intros user [<-|Hin]; [assumption|now apply Hall].
      * right; destruct Hcase as [->|(before & user & after & -> & Hs & Hm & Hlt & Hb)].
        -- exists [], u, rest; cbn; repeat split; try assumption; intros ? [].
        -- exists (u :: before), user, after; cbn.
           repeat split; try assumption; try lra.
           intros earlier [<-|Hin]; [assumption|now apply Hb].
    + assert (Hn : sim u <= score start).
      { destruct (Rgt_dec (sim u) (score start)) as [G|N]; [|lra].
        rewrite (gtb_true _ _ G) in E; discriminate. }
      split; [assumption|split].
      * intros user [<-|Hin]; [lra|now apply Hall].
      * destruct Hcase as [->|(before & user & after & -> & Hs & Hm & Hlt & Hb)];
          [now left|right].
        exists (u :: before), user, after; cbn.
        repeat split; try assumption.
        intros earlier [<-|Hin]; [lra|now apply Hb].
Qed.

Lemma bestMatch_fold descriptor enrolledUsers :
  bestMatch descriptor enrolledUsers
  = fold_left (better descriptor) enrolledUsers
              {| score := -1; matched := "Unknown" |}.
Proof. reflexivity. Qed.

Lemma bestMatch_spec (descriptor : list R)
        (enrolledUsers : list Checker.Identity) :
  let best := Checker.bestMatch (Some descriptor) enrolledUsers in
  -1 <= Checker.score best /\
  (forall user, In user enrolledUsers ->
     Checker.similarity descriptor user <= Checker.score best) /\
  (Checker.score best = -1 /\ Checker.matched best = "Unknown"%string \/
   exists before user after,
     enrolledUsers = before ++ user :: after /\
     Checker.score best = Checker.similarity descriptor user /\
     Checker.matched best = Checker.name user /\
     -1 < Checker.similarity descriptor user /\
     forall earlier, In earlier before ->
       Checker.similarity descriptor earlier
       < Checker.similarity descriptor user).
Proof.
  intros best; subst best; rewrite bestMatch_fold.
  destruct (bestMatch_from (Some descriptor) enrolledUsers
              {| Checker.score := -1; Checker.matched := "Unknown" |})
    as (Hle & Hall & Hcase).
  refine (conj Hle (conj Hall _)).
  destruct Hcase as [->|H]; [left; split; reflexivity|right; exact H].
Qed.

Lemma verify_spec (descriptor : list R)
        (enrolledUsers : list Checker.Identity) :
  (Checker.verify descriptor enrolledUsers = None <-> enrolledUsers = []) /\
  (enrolledUsers <> [] ->
   exists s instruction,
     Checker.verify descriptor enrolledUsers = Some (s, instruction) /\
     (forall user, In user enrolledUsers ->
        Checker.similarity descriptor user <= s) /\
     ((exists user, In user enrolledUsers /\
                    Checker.similarity descriptor user > 0.8) ->
      exists user,
        In user enrolledUsers /\ s = Checker.similarity descriptor user /\
        s > 0.8 /\
        instruction
        = ("Identity Verified! Welcome, " ++ Checker.name user ++ ".")%string) /\
     ((forall user, In user enrolledUsers ->
         Checker.similarity descriptor user <= 0.8) ->
      instruction = "Identity Mismatch!"%string)).
Proof.
  split.
  - destruct enrolledUsers; cbn; split; congruence.
  - intros Hne.
    destruct (bestMatch_spec descriptor enrolledUsers) as (Hle & Hall & Hcase).
    destruct enrolledUsers as [|u0 rest]; [now elim Hne|].
    unfold Checker.verify.
    set (best := Checker.bestMatch _ _) in *.
    eexists; eexists; split; [reflexivity|split; [exact Hall|split]].
    + intros (user & Hin & Hgt).
      pose proof (Hall user Hin) as Hu.
      rewrite gtb_true by lra.
      destruct Hcase as [[Hs _]|(before & found & after & E & Hs & Hm & _)];
        [lra|].
      exists found; rewrite E, Hm.
      repeat split; try assumption; try lra.
      apply in_or_app; right; now left.
    + intros Hlow.
      destruct Hcase as [[Hs _]|(before & found & after & E & Hs & _)].
      * rewrite gtb_false by lra; reflexivity.
      * assert (Hin : In found (u0 :: rest))
          by (rewrite E; apply in_or_app; right; now left).
        specialize (Hlow found Hin).
        rewrite gtb_false by lra; reflexivity.
Qed.

End Matching.

(** X25. The best match has the greatest similarity among the enrolled
    users, and at least -1.  It names the first user who reaches that
    similarity; when no user has a similarity above -1 it is
    [{ score: -1, name: "Unknown" }]. *)
Theorem bestMatch_maximum (descriptor : list R)
        (enrolledUsers : list Checker.Identity) :
  let best := Checker.bestMatch (Some descriptor) enrolledUsers in
  -1 <= Checker.score best /\
  (forall user, In user enrolledUsers ->
     Checker.similarity descriptor user <= Checker.score best) /\
  (Checker.score best = -1 /\ Checker.matched best = "Unknown"%string \/
   exists before user after,
     enrolledUsers = before ++ user :: after /\
     Checker.score best = Checker.similarity descriptor user /\
     Checker.matched best = Checker.name user /\
     -1 < Checker.similarity descriptor user /\
     forall earlier, In earlier before ->
       Checker.similarity descriptor earlier
       < Checker.similarity descriptor user).
Proof. exact (bestMatch_spec descriptor enrolledUsers). Qed.

(** X26. In verification mode a success with nobody enrolled sets nothing.
    Otherwise the score shown is the greatest similarity (or -1), and
    the identity is verified exactly when some enrolled user has a
    similarity above 0.8; the welcome names a user with the greatest
    similarity. *)
Theorem verify_verdict (descriptor : list R)
        (enrolledUsers : list Checker.Identity) :
  (Checker.verify descriptor enrolledUsers = None <-> enrolledUsers = []) /\
  (enrolledUsers <> [] ->
   exists s instruction,
     Checker.verify descriptor enrolledUsers = Some (s, instruction) /\
     (forall user, In user enrolledUsers ->
        Checker.similarity descriptor user <= s) /\
     ((exists user, In user enrolledUsers /\
                    Checker.similarity descriptor user > 0.8) ->
      exists user,
        In user enrolledUsers /\ s = Checker.similarity descriptor user /\
        s > 0.8 /\
        instruction
        = ("Identity Verified! Welcome, " ++ Checker.name user ++ ".")%string) /\
     ((forall user, In user enrolledUsers ->
         Checker.similarity descriptor user <= 0.8) ->
      instruction = "Identity Mismatch!"%string)).
Proof. exact (verify_spec descriptor enrolledUsers). Qed.

(** X27. Enrolment and verification, end to end.  When the descriptor of an
    embedding of norm above 1e-6 is enrolled and the same descriptor
    comes back for verification, the identity is verified, with a score
    of at least 1.  The descriptor of a near-zero embedding, enrolled
    alone, does not verify against itself. *)
Theorem enrolled_descriptor_verifies (prediction : list R) (userName : string)
        (s : Checker.Store) :
  Checker.mode s = Checker.ENROLL ->
  let descriptor := Engine.normalize prediction in
  let s' := Checker.onSuccess userName descriptor s in
  (Vec.norm prediction > 1e-6 ->
   exists score user,
     In user (Checker.enrolledUsers s') /\
     1 <= score /\
     Checker.verify descriptor (Checker.enrolledUsers s')
     = Some (score,
             ("Identity Verified! Welcome, " ++ Checker.name user ++ ".")%string)) /\
  (~ Vec.norm prediction > 1e-6 -> Checker.enrolledUsers s = [] ->
   exists score,
     score <= 1e-12 /\
     Checker.verify descriptor (Checker.enrolledUsers s')
     = Some (score, "Identity Mismatch!"%string)).
Proof.
  intros Hm descriptor s'; subst s' descriptor.
  unfold Checker.onSuccess; rewrite Hm; unfold Checker.enroll.
  cbn [Checker.enrolledUsers].
  set (d := Engine.normalize prediction).
  set (me := {| Checker.name := _; Checker.descriptor := Some d |}).
  set (all := Checker.enrolledUsers s ++ [me]).
  assert (Hne : all <> []) by (unfold all; now destruct (Checker.enrolledUsers s)).
  assert (Hme : In me all) by (apply in_or_app; right; now left).
  destruct (proj2 (verify_spec d all) Hne)
    as (sc & instruction & Hv & Hall & Hyes & Hno).
  split.
  - intros Hn.
    assert (Hself : Checker.similarity d me = 1).
    { unfold Checker.similarity, me; cbn [Checker.descriptor].
      rewrite cosine_dot by reflexivity.
      apply unit_dot, normalize_unit, Hn. }
    destruct Hyes as (user & Hin & Hs & Hgt & Hi);
      [exists me; split; [assumption|lra]|].
    exists sc, user; split; [assumption|split].
    + pose proof (Hall me Hme); lra.
    + now rewrite Hv, Hi.
  - intros Hn He.
    assert (Hself : Checker.similarity d me <= 1e-12).
    { unfold Checker.similarity, me; cbn [Checker.descriptor].
      rewrite cosine_dot by reflexivity.
      unfold d; rewrite normalize_small by assumption.
      rewrite <- norm_sqr.
      pose proof (norm_nonneg prediction); nra. }
    assert (Hall1 : all = [me]) by (unfold all; now rewrite He).
    exists sc; split.
    + destruct (bestMatch_spec d [me]) as (_ & _ & Hcase).
      rewrite Hall1 in Hv; unfold Checker.verify in Hv.
      injection Hv as Hsc _; rewrite <- Hsc.
      destruct Hcase as [[-> _]|(before & user & after & E & -> & _)]; [lra|].
      assert (Hin : In user [me])
        by (rewrite E; apply in_or_app; right; now left).
      destruct Hin as [<-|[]]; exact Hself.
    + rewrite Hv; f_equal; f_equal; apply Hno.
      rewrite Hall1; intros user [<-|[]]; lra.
Qed.

(** ** The enrolled identities and the storage *)

Section Identities.

Import Checker.

Lemma filterIndex_after {A : Type} indexToRemove index (prev : list A) :
  (indexToRemove < index)%nat -> filterIndex indexToRemove index prev = prev.
Proof.
  revert index; induction prev as [|user others IH]; intros index Hlt; cbn;
    [reflexivity|].
  rewrite (proj2 (Nat.eqb_neq index indexToRemove)) by lia; cbn.
  now rewrite IH by lia.
Qed.

Lemma filterIndex_spec {A : Type} indexToRemove index (prev : list A) :
  (index <= indexToRemove)%nat ->
  filterIndex indexToRemove index prev
  = firstn (indexToRemove - index) prev
    ++ skipn (S (indexToRemove - index)) prev.
Proof.
  revert index; induction prev as [|user others IH]; intros index Hle; cbn.
  - now rewrite firstn_nil.
  - destruct (Nat.eqb index indexToRemove) eqn:E; cbn.
    + apply Nat.eqb_eq in E; subst index; rewrite Nat.sub_diag; cbn.
      apply filterIndex_after; lia.
    + apply Nat.eqb_neq in E.
      replace (indexToRemove - index)%nat
        with (S (indexToRemove - S index)) by lia.
      cbn; now rewrite IH by lia.
Qed.

(** What the storage holds is what is enrolled; verification is
    selected only while somebody is enrolled. *)
Lemma stored_load saved :
  enrolledUsers (load (initial (face_identity (load (initial saved)))))
  = enrolledUsers (load (initial saved)) /\
  (mode (load (initial saved)) = VERIFY ->
   enrolledUsers (load (initial saved)) <> []).
Proof.
  destruct saved as [| | |[|user others]]; cbn; split; congruence.
Qed.

Lemma stored_act s a :
  enrolledUsers (load (initial (face_identity s))) = enrolledUsers s /\
  (mode s = VERIFY -> enrolledUsers s <> []) ->
  enrolledUsers (load (initial (face_identity (act s a))))
  = enrolledUsers (act s a) /\
  (mode (act s a) = VERIFY -> enrolledUsers (act s a) <> []).
Proof.
  intros [Hs Hm]; destruct a as [userName descriptor|m|indexToRemove|]; cbn [act].
  - unfold onSuccess; destruct (mode s) eqn:E;
      [|split; [exact Hs|intros _; exact (Hm eq_refl)]].
    unfold enroll; cbn.
    destruct (enrolledUsers s); cbn; split; congruence.
  - unfold selectMode; destruct m, (enrolledUsers s) eqn:E; cbn;
      rewrite ?E; split; try assumption; congruence.
  - unfold removeIdentity.
    destruct (filterIndex _ _ _) as [|user others]; cbn; split; congruence.
  - cbn; split; congruence.
Qed.

Lemma stored_acts actions : forall s,
  enrolledUsers (load (initial (face_identity s))) = enrolledUsers s /\
  (mode s = VERIFY -> enrolledUsers s <> []) ->
  enrolledUsers (load (initial (face_identity (acts s actions))))
  = enrolledUsers (acts s actions) /\
  (mode (acts s actions) = VERIFY -> enrolledUsers (acts s actions) <> []).
Proof.
  induction actions as [|a rest IH]; intros s H; [exact H|].
  apply (IH (act s a)), stored_act, H.
Qed.

End Identities.

(** X28. The identities survive a reload: after whatever is enrolled,
    removed and cleared, and whichever mode is selected, mounting the
    component on the storage as it is gives the users that are enrolled.
    And the component is in verification mode only while somebody is
    enrolled, so that a success in that mode always finds a user to
    compare with. *)
Theorem identities_are_stored (saved : Checker.Saved)
        (actions : list Checker.Action) :
  let s := Checker.acts (Checker.load (Checker.initial saved)) actions in
  Checker.enrolledUsers (Checker.load (Checker.initial (Checker.face_identity s)))
  = Checker.enrolledUsers s /\
  (Checker.mode s = Checker.VERIFY ->
   Checker.enrolledUsers s <> [] /\
   forall descriptor,
     Checker.verify descriptor (Checker.enrolledUsers s) <> None).
Proof.
  intros s; subst s.
  destruct (stored_acts actions _ (stored_load saved)) as [H1 H2].
  split; [exact H1|].
  intros Hm; specialize (H2 Hm); split; [exact H2|].
  intros descriptor.
  destruct (Checker.enrolledUsers (Checker.acts _ _)); [now elim H2|].
  unfold Checker.verify; discriminate.
Qed.

(** X29. [removeIdentity] takes out the user at the index and keeps the
    others in their order; an index past the end removes nobody.  When
    the last user goes, the storage entry is removed and the mode
    returns to enrolment. *)
Theorem removeIdentity_removes (indexToRemove : nat) (s : Checker.Store) :
  let s' := Checker.removeIdentity indexToRemove s in
  Checker.enrolledUsers s'
  = firstn indexToRemove (Checker.enrolledUsers s)
    ++ skipn (S indexToRemove) (Checker.enrolledUsers s) /\
  ((length (Checker.enrolledUsers s) <= indexToRemove)%nat ->
   Checker.enrolledUsers s' = Checker.enrolledUsers s) /\
  ((indexToRemove < length (Checker.enrolledUsers s))%nat ->
   length (Checker.enrolledUsers s')
   = pred (length (Checker.enrolledUsers s))) /\
  (Checker.enrolledUsers s' = [] ->
   Checker.face_identity s' = Checker.absent /\
   Checker.mode s' = Checker.ENROLL) /\
  (Checker.enrolledUsers s' <> [] ->
   Checker.face_identity s' = Checker.users (Checker.enrolledUsers s') /\
   Checker.mode s' = Checker.mode s).
Proof.
  intros s'; subst s'.
  assert (E : Checker.enrolledUsers (Checker.removeIdentity indexToRemove s)
              = firstn indexToRemove (Checker.enrolledUsers s)
                ++ skipn (S indexToRemove) (Checker.enrolledUsers s)).
  { transitivity (Checker.filterIndex indexToRemove 0 (Checker.enrolledUsers s)).
    - unfold Checker.removeIdentity.
      now destruct (Checker.filterIndex _ _ _).
    - rewrite filterIndex_spec by lia; now rewrite Nat.sub_0_r. }
  refine (conj E (conj _ (conj _ (conj _ _)))).
  - intros Hle; rewrite E, firstn_all2, skipn_all2 by lia.
    apply app_nil_r.
  - intros Hlt; rewrite E, length_app, length_firstn, length_skipn; lia.
  - unfold Checker.removeIdentity.
    destruct (Checker.filterIndex _ _ _); cbn; [now split|discriminate].
  - unfold Checker.removeIdentity.
    destruct (Checker.filterIndex _ _ _); cbn; [intros H; now elim H|now split].
Qed.

(** ** What the events carry *)

Section Events.

Import Engine Session Runs.

Lemma vstep_names v i :
  fairDraws i ->
  exists l, vlog (vstep v i) = vlog v ++ l /\ Forall namesChallenge l.
Proof.
  intros Hf.
  destruct i as [ok|now random video canvas rs| |id now rs| |now faces|now pred];
    cbn [vstep].
  - eexists; split; [reflexivity|]; destruct ok; repeat constructor.
  - destruct (vready v); [|exists []; now rewrite app_nil_r].
    eexists; split; [reflexivity|].
    destruct (generateChallenges_three random Hf) as (c0 & c1 & c2 & ->).
    repeat constructor; discriminate.
  - exists []; cbn; now rewrite app_nil_r.
  - exists []; now rewrite app_nil_r.
  - exists []; now rewrite app_nil_r.
  - destruct (vstopped v); [exists []; now rewrite app_nil_r|].
    assert (Hno : exists l,
              vlog v ++ (if vtimedOut now v then [onFailure FACE_NOT_FOUND] else [])
              = vlog v ++ l /\ Forall namesChallenge l)
      by (eexists; split; [reflexivity|];
          destruct (vtimedOut now v); repeat constructor).
    destruct faces as [[|landmarks others]|]; try exact Hno.
    destruct (vprocessing v); [exists []; now rewrite app_nil_r|].
    destruct (assess v landmarks) as [[[latch passed] progress] rawValue].
    cbn [vlog]; eexists; split; [reflexivity|].
    destruct (_ && _); repeat constructor.
  - destruct (vtimers v); [exists []; now rewrite app_nil_r|].
    destruct (_ <=? _)%nat eqn:E; cbn [vlog]; eexists; split; try reflexivity.
    + destruct pred; repeat constructor; discriminate.
    + apply Nat.leb_gt in E.
      constructor; [|constructor].
      unfold namesChallenge; now apply nth_error_Some.
Qed.

Lemma run_names inputs : forall w,
  Forall fairDraws inputs ->
  exists l, callbackLog (run w inputs) = callbackLog w ++ l /\
            Forall namesChallenge l.
Proof.
  induction inputs as [|i rest IH]; intros w Hf.
  - exists []; rewrite run_nil, app_nil_r; split; [reflexivity|constructor].
  - inversion Hf as [|? ? Hi Hrest]; subst.
    rewrite run_cons.
    destruct (vstep_names (view w) i Hi) as (l1 & E1 & F1).
    rewrite <- simulation in E1; cbn [view vlog] in E1.
    destruct (IH (step w i) Hrest) as (l2 & E2 & F2).
    exists (l1 ++ l2); split.
    + rewrite E2, E1; symmetry; apply app_assoc.
    + apply Forall_app; split; assumption.
Qed.

Lemma instructions_given c : SDK.instructions (Some c) <> EmptyString.
Proof. destruct c; discriminate. Qed.

End Events.

(** X30. Every challenge the engine announces is defined, so that the event
    of the SDK carries one of its four instructions, never the empty
    text of the fallback: [start] announces the first of three
    challenges, a settle timer the next one, while there is one, and
    PROCESSING after the last. *)
Theorem challenge_events_are_instructed (w : Engine.World)
        (inputs : list Engine.Input) :
  Forall Runs.fairDraws inputs ->
  exists l,
    Engine.callbackLog (Engine.run w inputs) = Engine.callbackLog w ++ l /\
    forall type instruction,
      In (SDK.challenge type instruction) (map SDK.emitted l) ->
      exists c, type = Some c /\
                instruction = SDK.instructions (Some c) /\
                instruction <> EmptyString.
Proof.
  intros Hf; destruct (run_names inputs w Hf) as (l & E & F).
  exists l; split; [exact E|].
  intros type instruction Hin.
  apply in_map_iff in Hin as (c & Hc & Hin).
  rewrite Forall_forall in F; specialize (F c Hin).
  destruct c as [|[challenge|]| | |]; try discriminate Hc; [|now elim F].
  injection Hc as <- <-.
  exists challenge; split; [reflexivity|split; [reflexivity|]].
  apply instructions_given.
Qed.

(** ** The statements at the fixtures *)

Lemma calculateCosineSimilarity_spec_witness :
  Utils.calculateCosineSimilarity (Some [1; 0]) (Some [1; 0]) = 1 /\
  Utils.calculateCosineSimilarity (Some [1; 0]) (Some (Vec.neg [1; 0])) = -1.
Proof.
  apply (proj1 (proj2 (proj2 (proj2 (proj2 calculateCosineSimilarity_spec))))
           [1; 0]).
  unfold Vec.unit, Vec.norm; simpl.
  apply sqrt_of_square; lra.
Defined.

Lemma calculateHeadTurnV2_spec_witness :
  Utils.calculateHeadTurnV2 Fixture.blank = 0.
Proof.
  apply (proj1 (calculateHeadTurnV2_spec Fixture.blank)).
  unfold Utils.euclideanDistance, Fixture.blank; simpl.
  rewrite (sqrt_of_square _ 0) by lra; lra.
Defined.

Lemma generateChallenges_uniform_witness :
  length (Engine.generateChallenges Fixture.keepOrder) = 3%nat /\
  Permutation [Engine.BLINK; Engine.TURN_LEFT; Engine.TURN_RIGHT]
    (Engine.generateChallenges Fixture.keepOrder) /\
  Engine.generateChallenges Fixture.keepOrder
  = Randomizer.generate_with (Randomizer.choice_of Fixture.keepOrder) /\
  In (Randomizer.choice_of Fixture.keepOrder) Randomizer.choices.
Proof.
  apply (proj1 generateChallenges_uniform Fixture.keepOrder).
  intros k; destruct k; unfold Fixture.keepOrder; lra.
Defined.

Lemma timeouts_at_frame_evaluation_witness :
  Engine.isStopped
    (Engine.step
       (Engine.run (Fixture.loaded Engine.DEFAULT_CONFIG) Fixture.openThenLost)
       (Engine.FaceMeshResults 7000 None)) = true /\
  Session.eventsSince
    (Engine.run (Fixture.loaded Engine.DEFAULT_CONFIG) Fixture.openThenLost)
    (Engine.step
       (Engine.run (Fixture.loaded Engine.DEFAULT_CONFIG) Fixture.openThenLost)
       (Engine.FaceMeshResults 7000 None))
  = [SDK.failure Engine.FACE_NOT_FOUND].
Proof.
  apply (proj1 timeouts_at_frame_evaluation
           (Engine.run (Fixture.loaded Engine.DEFAULT_CONFIG) Fixture.openThenLost)
           7000 None).
  - rewrite stopped_view, view_openThenLost; reflexivity.
  - reflexivity.
  - rewrite time_view, config_view, view_openThenLost; simpl; lra.
Defined.

Lemma blink_pass_condition_witness :
  Engine.isChallengeProcessing
    (Engine.step
       (Engine.run (Fixture.loaded Engine.DEFAULT_CONFIG) Fixture.openThenLost)
       (Engine.FaceMeshResults 1210 (Some [Fixture.eyesClosed]))) = true
  <-> Session.openSeen (Fixture.loaded Engine.DEFAULT_CONFIG)
        (Fixture.openThenLost
         ++ [Engine.FaceMeshResults 1210 (Some [Fixture.eyesClosed])]) /\
      Session.rawEAR Fixture.eyesClosed
      < Engine.blinkEARThreshold
          (Engine.config
             (Engine.run (Fixture.loaded Engine.DEFAULT_CONFIG) Fixture.openThenLost)).
Proof.
  apply (proj1 blink_pass_condition (Fixture.loaded Engine.DEFAULT_CONFIG)
           Fixture.openThenLost 1210 Fixture.eyesClosed []).
  - reflexivity.
  - unfold Session.awaiting.
    rewrite stopped_view, processing_view, view_openThenLost; split; reflexivity.
  - unfold Session.currentChallenge.
    rewrite challenges_view, index_view, view_openThenLost; reflexivity.
Defined.

Lemma latch_resets_witness :
  Engine.hasDetectedOpenEyes
    (Engine.step
       (Engine.run (Fixture.loaded Engine.DEFAULT_CONFIG) Fixture.openThenClosed)
       (Engine.SettleTimeout 1410 (Some Fixture.zeros))) = false.
Proof.
  apply (proj1 (proj2 latch_resets)
           (Engine.run (Fixture.loaded Engine.DEFAULT_CONFIG) Fixture.openThenClosed)
           1410 (Some Fixture.zeros)).
  rewrite timers_view, view_openThenClosed; simpl; lia.
Defined.

Lemma ready_view w : Engine.isReady w = Session.vready (Session.view w).
Proof. reflexivity. Qed.

Lemma noRestart_notStart inputs : forall w,
  Forall Runs.notStart inputs -> Runs.noRestartInFlight w inputs.
Proof.
  induction inputs as [|i rest IH]; intros w H; [exact I|].
  inversion H as [|? ? Hi Hrest]; subst.
  split; [now destruct i|apply IH, Hrest].
Qed.

Lemma norm_embedding : Vec.norm Samples.embedding = 5.
Proof.
  unfold Vec.norm, Samples.embedding; simpl.
  apply sqrt_of_square; lra.
Qed.

Lemma calculateEAR_range_witness :
  Utils.calculateEAR Fixture.blank Utils.left = 0.
Proof.
  apply (proj1 (proj2 (calculateEAR_range Fixture.blank Utils.left))).
  reflexivity.
Defined.

Lemma calculateEAR_invariant_witness :
  Utils.calculateEAR (Geometry.scale 2 Fixture.eyesOpen) Utils.left
  = Utils.calculateEAR Fixture.eyesOpen Utils.left.
Proof.
  apply (proj1 (proj2 (calculateEAR_invariant Fixture.eyesOpen Utils.left)) 2).
  lra.
Defined.

Lemma turn_threshold_out_of_reach_witness :
  Session.challengePassed Fixture.turnedLeft
    (Samples.awaitingTurn Samples.strictTurn) = false.
Proof.
  apply (turn_threshold_out_of_reach (Samples.awaitingTurn Samples.strictTurn)
           Fixture.turnedLeft).
  - simpl; lra.
  - left; reflexivity.
Defined.

Lemma calculateCosineSimilarity_bounds_witness :
  -1 <= Utils.calculateCosineSimilarity (Some [1; 0]) (Some [0; 1]) <= 1.
Proof.
  apply (proj1 (proj2 (proj2 calculateCosineSimilarity_bounds)) [1; 0] [0; 1]).
  - unfold Vec.unit, Vec.norm; simpl; apply sqrt_of_square; lra.
  - unfold Vec.unit, Vec.norm; simpl; apply sqrt_of_square; lra.
Defined.

Lemma descriptor_self_similarity_witness :
  Utils.calculateCosineSimilarity
    (Some (Engine.normalize Samples.embedding))
    (Some (Engine.normalize Samples.embedding)) = 1.
Proof.
  apply (proj1 (descriptor_self_similarity Samples.embedding)).
  rewrite norm_embedding; lra.
Defined.

Lemma unloaded_engine_is_inert_witness :
  let w := Engine.run (Engine.new Engine.DEFAULT_CONFIG) Samples.tooEarly in
  w = Engine.set_callbackLog
        (repeat (Engine.onFailure Engine.MODEL_LOAD_FAILED)
                (length (filter Runs.isLoad Samples.tooEarly)))
        (Engine.new Engine.DEFAULT_CONFIG) /\
  forall now random video canvas readyState,
    Engine.start now random video canvas readyState w
    = Engine.Thrown "Engine not loaded. Call load() first.".
Proof.
  apply (unloaded_engine_is_inert Engine.DEFAULT_CONFIG Samples.tooEarly).
  unfold Samples.tooEarly; repeat constructor; discriminate.
Defined.


Lemma view_stoppedBeforeCompletion :
  Session.view (Completion.engine Completion.stoppedBeforeCompletion)
  = {| Session.vconfig := Engine.DEFAULT_CONFIG;
       Session.vready := true;
       Session.vstopped := true;
       Session.vchallenges := [Engine.BLINK; Engine.TURN_LEFT; Engine.TURN_RIGHT];
       Session.vindex := 2;
       Session.vtime := 1810;
       Session.vprocessing := true;
       Session.vlatch := false;
       Session.vtimers := 1;
       Session.vlog :=
         Session.vlog
           (Session.view
              (Engine.run (Fixture.loaded Engine.DEFAULT_CONFIG)
                 Fixture.challengesPassed)) |}.
Proof.
  unfold Completion.stoppedBeforeCompletion; cbn [Completion.engine].
  rewrite simulation; cbn [Session.vstep].
  now rewrite view_challengesPassed.
Qed.

Lemma stopped_engine_is_quiet_witness :
  let w := Completion.stoppedBeforeCompletion in
  let w' := Completion.run w Completion.lateCompletion in
  Engine.settleTimers (Completion.engine w) = 1%nat /\
  Completion.awaitingData w = [] /\
  Engine.callbackLog (Completion.engine w')
  = Engine.callbackLog (Completion.engine w)
    ++ [ Engine.onChallengeChanged (Some Engine.PROCESSING);
         Engine.onSuccess (Engine.normalize Fixture.threeFour) ] /\
  Engine.isStopped (Completion.engine w') = true /\
  Engine.framesSent (Completion.engine w')
  = Engine.framesSent (Completion.engine w) /\
  (Forall Completion.notLoad Completion.lateCompletion ->
   (exists l,
      Engine.callbackLog (Completion.engine w')
      = Engine.callbackLog (Completion.engine w) ++ l /\
      (length l
       <= 2 * Engine.settleTimers (Completion.engine w)
          + length (Completion.awaitingData w))%nat) /\
   (Engine.settleTimers (Completion.engine w) = O ->
    Completion.awaitingData w = [] ->
    Engine.callbackLog (Completion.engine w')
    = Engine.callbackLog (Completion.engine w))).
Proof.
  cbv zeta.
  assert (T : Engine.settleTimers
                (Completion.engine Completion.stoppedBeforeCompletion) = 1%nat)
    by now rewrite timers_view, view_stoppedBeforeCompletion.
  assert (Hs : Engine.isStopped
                (Completion.engine Completion.stoppedBeforeCompletion) = true)
    by now rewrite stopped_view, view_stoppedBeforeCompletion.
  assert (L : (length (Engine.challenges
                         (Completion.engine Completion.stoppedBeforeCompletion))
               <= S (Engine.currentChallengeIndex
                       (Completion.engine Completion.stoppedBeforeCompletion)))%nat).
  { rewrite challenges_view, index_view, view_stoppedBeforeCompletion.
    simpl; lia. }
  split; [exact T|split; [reflexivity|split]].
  - unfold Completion.lateCompletion.
    rewrite completion_cons.
    destruct (completion_begins Completion.stoppedBeforeCompletion 2210
                Fixture.threeFour 0 T L) as (_ & _ & B & A).
    rewrite completion_cons.
    destruct (completion_resumes
                (Completion.step Completion.stoppedBeforeCompletion
                   (Completion.Host
                      (Engine.SettleTimeout 2210 (Some Fixture.threeFour))))
                0 (Engine.normalize Fixture.threeFour)) as (R & _).
    { now rewrite A. }
    cbn [Completion.run fold_left].
    rewrite R, B, <- app_assoc; reflexivity.
  - apply (stopped_engine_is_quiet Completion.stoppedBeforeCompletion
             Completion.lateCompletion Hs).
    unfold Completion.lateCompletion; repeat constructor.
Defined.

Lemma single_detection_loop_witness :
  Runs.singleLoop
    (Engine.run (Engine.new Engine.DEFAULT_CONFIG)
       (Engine.Load true :: Fixture.passingSession Fixture.threeFour)) /\
  (Runs.activations
     (Engine.run (Engine.new Engine.DEFAULT_CONFIG)
        (Engine.Load true :: Fixture.passingSession Fixture.threeFour))
   <= 1)%nat.
Proof.
  apply (single_detection_loop Engine.DEFAULT_CONFIG
           (Engine.Load true :: Fixture.passingSession Fixture.threeFour)).
  { simpl; lra. }
  unfold Fixture.passingSession, Fixture.blinkFirst.
  cbn [app Runs.noRestartInFlight Runs.startsFresh].
  split; [exact I|split; [reflexivity|]].
  apply noRestart_notStart.
  unfold Fixture.completion, Fixture.threePasses, Fixture.twoPasses.
  cbn [app]; repeat constructor.
Defined.

Lemma restart_in_flight_witness :
  Runs.activations
    (Engine.step Samples.frameInFlight
       (Engine.Start 1000 Fixture.keepOrder true true 4)) = 2%nat.
Proof.
  apply (restart_in_flight Samples.frameInFlight 1000 Fixture.keepOrder
           true true 4).
  - simpl; lra.
  - reflexivity.
  - unfold Runs.singleLoop, Runs.activations; cbn.
    split; [lia|split; [intros id []|discriminate]].
  - reflexivity.
Defined.

Lemma progress_in_unit_interval_witness :
  exists l,
    Engine.callbackLog
      (Engine.run (Fixture.loaded Engine.DEFAULT_CONFIG)
         (Fixture.passingSession Fixture.threeFour))
    = Engine.callbackLog (Fixture.loaded Engine.DEFAULT_CONFIG) ++ l /\
    Forall Runs.progressInRange l /\
    forall progress rawValue,
      In (SDK.progress progress rawValue) (map SDK.emitted l) ->
      0 <= ProgressBar.width progress <= 100.
Proof.
  apply (progress_in_unit_interval (Fixture.loaded Engine.DEFAULT_CONFIG)
           (Fixture.passingSession Fixture.threeFour)).
  simpl; lra.
Defined.

Lemma progress_of_a_frame_witness :
  Session.progressOf Fixture.turnedLeft
    (Samples.awaitingTurn Engine.DEFAULT_CONFIG)
  = Rmax 0 (Rmin (Utils.calculateHeadTurnV2 Fixture.turnedLeft / 0.4) 1) /\
  (Session.challengePassed Fixture.turnedLeft
     (Samples.awaitingTurn Engine.DEFAULT_CONFIG) = true
   <-> Utils.calculateHeadTurnV2 Fixture.turnedLeft > 0.4) /\
  (Utils.calculateHeadTurnV2 Fixture.turnedLeft = 0.4 ->
   Session.progressOf Fixture.turnedLeft
     (Samples.awaitingTurn Engine.DEFAULT_CONFIG) = 1 /\
   Session.challengePassed Fixture.turnedLeft
     (Samples.awaitingTurn Engine.DEFAULT_CONFIG) = false).
Proof.
  apply (proj1 (proj2 (progress_of_a_frame
                         (Samples.awaitingTurn Engine.DEFAULT_CONFIG)
                         Fixture.turnedLeft))).
  - simpl; lra.
  - reflexivity.
Defined.

Lemma recognition_failure_witness :
  let w := Engine.run (Fixture.loaded Engine.DEFAULT_CONFIG)
             Fixture.challengesPassed in
  let w' := Engine.step w (Engine.SettleTimeout 2210 None) in
  Session.eventsSince w w'
  = [SDK.challenge (Some Engine.PROCESSING) "Processing...";
     SDK.failure Engine.RECOGNITION_FAILED] /\
  Engine.isStopped w' = true /\
  Engine.settleTimers w' = pred (Engine.settleTimers w).
Proof.
  apply (recognition_failure
           (Engine.run (Fixture.loaded Engine.DEFAULT_CONFIG)
              Fixture.challengesPassed) 2210).
  - rewrite timers_view, view_challengesPassed; simpl; lia.
  - rewrite challenges_view, index_view, view_challengesPassed; simpl; lia.
Defined.

Lemma failure_only_after_deadline_witness :
  let w := Engine.run (Fixture.loaded Engine.DEFAULT_CONFIG) Fixture.blinkFirst in
  let w' := Engine.step w (Engine.FaceMeshResults 1010 None) in
  Engine.isStopped w' = false /\
  filter Runs.isFailure (Session.since w w') = [].
Proof.
  apply (proj1 (failure_only_after_deadline
                  (Engine.run (Fixture.loaded Engine.DEFAULT_CONFIG)
                     Fixture.blinkFirst) 1010
                  ltac:(rewrite stopped_view, view_blinkFirst; reflexivity))
           None).
  rewrite time_view, config_view, view_blinkFirst; simpl; lra.
Defined.

Lemma success_needs_three_passes_witness :
  let w1 := Engine.step (Fixture.loaded Engine.DEFAULT_CONFIG)
              (Engine.Start 1000 Fixture.keepOrder true true 4) in
  let w := Engine.run w1 (Fixture.completion Fixture.threeFour) in
  (Engine.currentChallengeIndex w + Engine.settleTimers w
   = Session.passCount w1 (Fixture.completion Fixture.threeFour))%nat /\
  (filter SDK.is_success (Session.eventsSince w1 w) <> [] ->
   (3 <= Session.passCount w1 (Fixture.completion Fixture.threeFour))%nat).
Proof.
  apply (success_needs_three_passes (Fixture.loaded Engine.DEFAULT_CONFIG) 1000
           Fixture.keepOrder true true 4 (Fixture.completion Fixture.threeFour)).
  - reflexivity.
  - reflexivity.
  - exact keepOrder_range.
  - exact (completion_hostOnly Fixture.threeFour).
Defined.

Lemma stale_timer_skips_a_challenge_witness :
  let w := Engine.run (Fixture.loaded Engine.DEFAULT_CONFIG)
             Fixture.openThenClosed in
  let w1 := Engine.step w (Engine.Start 1200 Fixture.keepOrder true true 4) in
  let w2 := Engine.step w1 (Engine.SettleTimeout 1410 None) in
  Engine.currentChallengeIndex w1 = 0%nat /\
  Engine.currentChallengeIndex w2 = 1%nat /\
  Session.passCount w1 [Engine.SettleTimeout 1410 None] = 0%nat /\
  exists c0 c1 c2,
    Engine.generateChallenges Fixture.keepOrder = [c0; c1; c2] /\
    Session.eventsSince w w1
    = [SDK.challenge (Some c0) (SDK.instructions (Some c0))] /\
    Session.eventsSince w1 w2
    = [SDK.challenge (Some c1) (SDK.instructions (Some c1))].
Proof.
  apply (stale_timer_skips_a_challenge
           (Engine.run (Fixture.loaded Engine.DEFAULT_CONFIG)
              Fixture.openThenClosed)
           1200 Fixture.keepOrder true true 4 1410 None).
  - rewrite ready_view, view_openThenClosed; reflexivity.
  - rewrite timers_view, view_openThenClosed; simpl; lia.
  - exact keepOrder_range.
Defined.

Lemma challenge_events_are_instructed_witness :
  exists l,
    Engine.callbackLog
      (Engine.run (Fixture.loaded Engine.DEFAULT_CONFIG)
         (Fixture.passingSession Fixture.threeFour))
    = Engine.callbackLog (Fixture.loaded Engine.DEFAULT_CONFIG) ++ l /\
    forall type instruction,
      In (SDK.challenge type instruction) (map SDK.emitted l) ->
      exists c, type = Some c /\
                instruction = SDK.instructions (Some c) /\
                instruction <> EmptyString.
Proof.
  apply (challenge_events_are_instructed (Fixture.loaded Engine.DEFAULT_CONFIG)
           (Fixture.passingSession Fixture.threeFour)).
  unfold Fixture.passingSession, Fixture.blinkFirst, Fixture.completion,
    Fixture.threePasses, Fixture.twoPasses.
  cbn [app]; constructor; [exact keepOrder_range|repeat constructor].
Defined.

Lemma stop_idempotent_witness :
  Engine.surfaceDirty (Engine.stop Samples.withSurface) = false.
Proof.
  apply (proj2 (proj2 (proj2 (stop_idempotent Samples.withSurface)))).
  reflexivity.
Defined.

Lemma on_registers_witness :
  exists listeners',
    Listeners.on "success" 7%nat Listeners.initial
    = Listeners.Returned listeners' /\
    Listeners.get listeners' "success" = Listeners.Own ([] ++ [7%nat]) /\
    (exists effects,
       Listeners._emit (fun _ => true) "success" listeners'
       = Listeners.Returned effects /\
       Listeners._emit (fun _ => true) "success" Listeners.initial
       = Listeners.Returned (Listeners.deliver (fun _ => true) []) /\
       effects = Listeners.deliver (fun _ => true) []
                 ++ Listeners.deliver (fun _ => true) [7%nat] /\
       Listeners.called effects = [] ++ [7%nat]) /\
    (forall other, other <> "success"%string ->
       Listeners.get listeners' other = Listeners.get Listeners.initial other) /\
    map fst listeners' = map fst Listeners.initial.
Proof.
  apply (on_registers Listeners.initial "success" 7%nat [] (fun _ => true)).
  reflexivity.
Defined.

Lemma off_unregisters_witness :
  exists listeners',
    Listeners.off "success" 7%nat Listeners.initial
    = Listeners.Returned listeners' /\
    (exists effects,
       Listeners._emit (fun _ => false) "success" listeners'
       = Listeners.Returned effects /\
       ~ In 7%nat (Listeners.called effects) /\
       Listeners.called effects
       = filter (fun cb => negb (Nat.eqb cb 7)) []) /\
    (forall other, other <> "success"%string ->
       Listeners.get listeners' other = Listeners.get Listeners.initial other) /\
    (NoDup (map fst Listeners.initial) -> ~ In 7%nat [] ->
     listeners' = Listeners.initial /\
     forall registered,
       Listeners.on "success" 7%nat Listeners.initial
       = Listeners.Returned registered ->
       Listeners.off "success" 7%nat registered
       = Listeners.Returned Listeners.initial).
Proof.
  apply (off_unregisters Listeners.initial "success" 7%nat [] (fun _ => false)).
  reflexivity.
Defined.

Lemma event_names_witness :
  Listeners.on "toString" 7%nat Listeners.initial = Listeners.TypeError /\
  Listeners.off "toString" 7%nat Listeners.initial = Listeners.TypeError /\
  Listeners._emit (fun _ => false) "toString" Listeners.initial
  = Listeners.TypeError.
Proof.
  apply (proj1 (proj2 (proj2 (event_names Listeners.initial "toString" 7%nat
                                (fun _ => false) eq_refl)))).
  - unfold Listeners.events; cbn.
    intros H; repeat (destruct H as [H|H]; [discriminate H|]); exact H.
  - unfold Listeners.objectPrototype; cbn; tauto.
Defined.

Lemma verify_verdict_witness :
  exists s instruction,
    Checker.verify [1; 0] [Samples.grace; Samples.ada] = Some (s, instruction) /\
    (forall user, In user [Samples.grace; Samples.ada] ->
       Checker.similarity [1; 0] user <= s) /\
    ((exists user, In user [Samples.grace; Samples.ada] /\
                   Checker.similarity [1; 0] user > 0.8) ->
     exists user,
       In user [Samples.grace; Samples.ada] /\
       s = Checker.similarity [1; 0] user /\
       s > 0.8 /\
       instruction
       = ("Identity Verified! Welcome, " ++ Checker.name user ++ ".")%string) /\
    ((forall user, In user [Samples.grace; Samples.ada] ->
        Checker.similarity [1; 0] user <= 0.8) ->
     instruction = "Identity Mismatch!"%string).
Proof.
  apply (proj2 (verify_verdict [1; 0] [Samples.grace; Samples.ada])).
  discriminate.
Defined.

Lemma enrolled_descriptor_verifies_witness :
  let descriptor := Engine.normalize Samples.embedding in
  let s' := Checker.onSuccess "Ada" descriptor (Checker.initial Checker.absent) in
  (Vec.norm Samples.embedding > 1e-6 ->
   exists score user,
     In user (Checker.enrolledUsers s') /\
     1 <= score /\
     Checker.verify descriptor (Checker.enrolledUsers s')
     = Some (score,
             ("Identity Verified! Welcome, " ++ Checker.name user ++ ".")%string)) /\
  (~ Vec.norm Samples.embedding > 1e-6 ->
   Checker.enrolledUsers (Checker.initial Checker.absent) = [] ->
   exists score,
     score <= 1e-12 /\
     Checker.verify descriptor (Checker.enrolledUsers s')
     = Some (score, "Identity Mismatch!"%string)).
Proof.
  apply (enrolled_descriptor_verifies Samples.embedding "Ada"
           (Checker.initial Checker.absent)).
  reflexivity.
Defined.

Lemma identities_are_stored_witness :
  Checker.enrolledUsers
    (Checker.acts (Checker.load (Checker.initial (Checker.users [Samples.ada])))
       [Checker.RemoveIdentity 3]) <> [] /\
  forall descriptor,
    Checker.verify descriptor
      (Checker.enrolledUsers
         (Checker.acts (Checker.load (Checker.initial (Checker.users [Samples.ada])))
            [Checker.RemoveIdentity 3])) <> None.
Proof.
  apply (proj2 (identities_are_stored (Checker.users [Samples.ada])
                  [Checker.RemoveIdentity 3])).
  reflexivity.
Defined.

Lemma removeIdentity_removes_witness :
  length
    (Checker.enrolledUsers
       (Checker.removeIdentity 0
          (Checker.load
             (Checker.initial (Checker.users [Samples.ada; Samples.grace])))))
  = pred
      (length
         (Checker.enrolledUsers
            (Checker.load
               (Checker.initial (Checker.users [Samples.ada; Samples.grace]))))).
Proof.
  apply (proj1 (proj2 (proj2 (removeIdentity_removes 0
           (Checker.load
              (Checker.initial (Checker.users [Samples.ada; Samples.grace]))))))).
  cbn; lia.
Defined.

Lemma bestMatch_maximum_witness :
  Checker.similarity [1; 0] Samples.ada
  <= Checker.score
       (Checker.bestMatch (Some [1; 0]) [Samples.grace; Samples.ada]).
Proof.
  apply (proj1 (proj2 (bestMatch_maximum [1; 0] [Samples.grace; Samples.ada]))).
  right; left; reflexivity.
Defined.
